(** * LibraLink user actions: a shallow embedding

    The two server-action files of the repository that manage user
    accounts are embedded here:

    - [src/lib/actions/user-actions.ts]  (module [UserActions]): listing
      with interpolated filters, hard delete, statistics over all rows;
    - [src/unnamed/part_001]             (module [Part001]): listing with
      bound parameters, soft delete, statistics without inactive rows.

    Every other function is textually the same in both files and is
    embedded once, at top level.  The role test of
    [src/app/librarian/books/page.tsx] is embedded as [ManageBooksPage].

    Strings are sequences of bytes ([string]).  Lower-casing is embedded
    for ASCII text, where JavaScript's [toLowerCase] and PostgreSQL's
    [LOWER] turn the capitals A..Z into small letters and nothing else;
    beyond ASCII both fold further letters, PostgreSQL according to the
    locale of the database, which the sources do not fix.  The properties
    that depend on what lower-casing does to a text are therefore stated
    for ASCII text ([ascii_text]).  [null] and [undefined] are both
    [None]. *)

From Stdlib Require Import ZArith List String Ascii Lia Bool DecimalString.
From Stdlib Require Import Sorting.Sorted Sorting.Permutation.
Import ListNotations.

Open Scope string_scope.
Open Scope list_scope.

(** ** Text helpers *)

(** Template interpolation of a number, as in [`$${values.length}`]. *)
Definition dec (n : nat) : string := NilZero.string_of_uint (Nat.to_uint n).

(** [Array.prototype.join]. *)
Definition join (sep : string) (parts : list string) : string :=
  String.concat sep parts.

(** JavaScript truthiness of an optional string: [undefined] and the empty
    string are falsy. *)
Definition truthy (s : option string) : bool :=
  match s with
  | Some (String _ _) => true
  | _ => false
  end.

(** [x || null] on an optional string. *)
Definition or_null (s : option string) : option string :=
  if truthy s then s else None.

Definition lower_ascii (c : ascii) : ascii :=
  let n := nat_of_ascii c in
  if (65 <=? n)%nat && (n <=? 90)%nat then ascii_of_nat (n + 32) else c.

(** [String.prototype.toLowerCase] and SQL [LOWER] on ASCII text. *)
Fixpoint toLowerCase (s : string) : string :=
  match s with
  | EmptyString => EmptyString
  | String c s' => String (lower_ascii c) (toLowerCase s')
  end.


Definition percent : ascii := "%"%char.
Definition underscore : ascii := "_"%char.
Definition backslash : ascii := "\"%char.
Definition quote : ascii := "'"%char.

(** SQL [LIKE] with PostgreSQL's defaults: [%] matches any run of
    characters, [_] any single character, and the backslash makes the next
    pattern character literal.  A pattern that ends in a lone backslash is
    rejected by PostgreSQL; the patterns built in this file always end in
    [%], so that case only needs a value. *)
Fixpoint like (pattern s : string) {struct pattern} : bool :=
  match pattern with
  | EmptyString =>
      match s with
      | EmptyString => true
      | String _ _ => false
      end
  | String c p' =>
      if Ascii.eqb c percent then
        (fix any (t : string) : bool :=
           like p' t
           || match t with
              | EmptyString => false
              | String _ t' => any t'
              end) s
      else if Ascii.eqb c underscore then
        match s with
        | EmptyString => false
        | String _ s' => like p' s'
        end
      else if Ascii.eqb c backslash then
        match p' with
        | EmptyString => false
        | String c2 p'' =>
            match s with
            | EmptyString => false
            | String d s' => Ascii.eqb c2 d && like p'' s'
            end
        end
      else
        match s with
        | EmptyString => false
        | String d s' => Ascii.eqb c d && like p' s'
        end
  end.

(** [NULL LIKE p] is [NULL], which a [WHERE] clause treats as false. *)
Definition like_nullable (pattern : string) (s : option string) : bool :=
  match s with
  | Some v => like pattern v
  | None => false
  end.

Fixpoint occurs (c : ascii) (s : string) : bool :=
  match s with
  | EmptyString => false
  | String d s' => Ascii.eqb c d || occurs c s'
  end.


(** ** Password hashing: SHA-256 as [crypto.createHash("sha256")] computes
    it, over 32-bit words held in [Z]. *)
Module Sha256.
Open Scope Z_scope.

Definition mask32 (x : Z) : Z := Z.land x 0xffffffff.
Definition add32 (a b : Z) : Z := mask32 (a + b).
Definition rotr (n x : Z) : Z :=
  mask32 (Z.lor (Z.shiftr x n) (Z.shiftl x (32 - n))).
Definition shr (n x : Z) : Z := Z.shiftr x n.
Definition Ch (x y z : Z) : Z :=
  Z.lxor (Z.land x y) (Z.land (Z.lxor x 0xffffffff) z).
Definition Maj (x y z : Z) : Z :=
  Z.lxor (Z.lxor (Z.land x y) (Z.land x z)) (Z.land y z).
Definition bsig0 (x : Z) : Z :=
  Z.lxor (Z.lxor (rotr 2 x) (rotr 13 x)) (rotr 22 x).
Definition bsig1 (x : Z) : Z :=
  Z.lxor (Z.lxor (rotr 6 x) (rotr 11 x)) (rotr 25 x).
Definition ssig0 (x : Z) : Z :=
  Z.lxor (Z.lxor (rotr 7 x) (rotr 18 x)) (shr 3 x).
Definition ssig1 (x : Z) : Z :=
  Z.lxor (Z.lxor (rotr 17 x) (rotr 19 x)) (shr 10 x).

(** The constants are those of FIPS 180-4: the first 32 bits of the
    fractional parts of the cube roots (for [K]) and of the square roots
    (for [H0]) of the first primes. *)
Definition is_prime (n : nat) : bool :=
forallb (fun d => negb (n mod d =? 0)%nat) (seq 2 (n - 2)).

Definition primes (n : nat) : list Z :=
map Z.of_nat (firstn n (filter is_prime (seq 2 400))).

(** The largest [r] in [lo, hi) with [r^3 <= n], by bisection. *)
Fixpoint cube_root (fuel : nat) (lo hi n : Z) : Z :=
match fuel with
| O => lo
| S f =>
    let mid := (lo + hi) / 2 in
    if mid * mid * mid <=? n then cube_root f mid hi n
    else cube_root f lo mid n
end.

Definition cube_root_bits (p : Z) : Z :=
mask32 (cube_root 40 0 (2 ^ 36) (p * 2 ^ 96)).

Definition square_root_bits (p : Z) : Z :=
mask32 (Z.sqrt (p * 2 ^ 64)).

Definition K : list Z := Eval vm_compute in map cube_root_bits (primes 64).

Definition H0 : list Z := Eval vm_compute in map square_root_bits (primes 8).

Definition be_bytes (n : nat) (x : Z) : list Z :=
  map (fun i => Z.land (Z.shiftr x (8 * Z.of_nat i)) 0xff) (rev (seq 0 n)).

(** The message, the byte 0x80, zero bytes up to 56 modulo 64, and the
    length in bits as a 64-bit big-endian number. *)
Definition pad (msg : list Z) : list Z :=
  let len := Z.of_nat (List.length msg) in
  let zeros := Z.to_nat ((55 - len) mod 64) in
  msg ++ [0x80] ++ repeat 0 zeros ++ be_bytes 8 (8 * len).

Fixpoint words (fuel : nat) (bs : list Z) : list Z :=
  match fuel, bs with
  | S f, a :: b :: c :: d :: rest =>
      Z.lor (Z.lor (Z.lor (Z.shiftl a 24) (Z.shiftl b 16)) (Z.shiftl c 8)) d
      :: words f rest
  | _, _ => []
  end.

Fixpoint blocks (fuel : nat) (ws : list Z) : list (list Z) :=
  match fuel, ws with
  | _, [] => []
  | O, _ => []
  | S f, _ => firstn 16 ws :: blocks f (skipn 16 ws)
  end.

(** The message schedule: [n] more words after the ones in [w]. *)
Fixpoint schedule (n : nat) (w : list Z) : list Z :=
  match n with
  | O => w
  | S n' =>
      let t := List.length w in
      let g k := nth (t - k) w 0 in
      schedule n'
        (w ++ [add32 (add32 (add32 (ssig1 (g 2%nat)) (g 7%nat))
                            (ssig0 (g 15%nat)))
                     (g 16%nat)])
  end.

Record regs :=
  Regs { ra : Z; rb : Z; rc : Z; rd : Z; re : Z; rf : Z; rg : Z; rh : Z }.

Definition round (r : regs) (kw : Z * Z) : regs :=
  let t1 :=
    add32 (add32 (add32 (add32 (rh r) (bsig1 (re r)))
                        (Ch (re r) (rf r) (rg r)))
                 (fst kw))
          (snd kw) in
  let t2 := add32 (bsig0 (ra r)) (Maj (ra r) (rb r) (rc r)) in
  Regs (add32 t1 t2) (ra r) (rb r) (rc r)
       (add32 (rd r) t1) (re r) (rf r) (rg r).

Definition of_list (h : list Z) : regs :=
  Regs (nth 0 h 0) (nth 1 h 0) (nth 2 h 0) (nth 3 h 0)
       (nth 4 h 0) (nth 5 h 0) (nth 6 h 0) (nth 7 h 0).

Definition to_list (r : regs) : list Z :=
  [ra r; rb r; rc r; rd r; re r; rf r; rg r; rh r].

Definition compress (h block : list Z) : list Z :=
  let w := schedule 48 block in
  let r := fold_left round (combine K w) (of_list h) in
  map (fun p => add32 (fst p) (snd p)) (combine h (to_list r)).

Definition digest (msg : list Z) : list Z :=
  let bs := pad msg in
  let ws := words (List.length bs) bs in
  fold_left compress (blocks (List.length ws) ws) H0.

Definition hex_digit (d : Z) : ascii :=
  if d <? 10 then ascii_of_nat (Z.to_nat (48 + d))
  else ascii_of_nat (Z.to_nat (87 + d)).

Definition hex_word (x : Z) : list ascii :=
  map (fun i => hex_digit (Z.land (Z.shiftr x (4 * Z.of_nat i)) 0xf))
      (rev (seq 0 8)).

Definition bytes_of (s : string) : list Z :=
  map (fun c => Z.of_nat (nat_of_ascii c)) (list_ascii_of_string s).

(** [createHash("sha256").update(s).digest("hex")]. *)
Definition hex (s : string) : string :=
  string_of_list_ascii (flat_map hex_word (digest (bytes_of s))).
End Sha256.

Definition hashPassword (password : string) : string := Sha256.hex password.

(** ** Data model *)

Inductive UserRole := student | faculty | librarian | admin.
Inductive UserStatus := active | suspended | inactive.

Definition role_text (r : UserRole) : string :=
  match r with
  | student => "student"
  | faculty => "faculty"
  | librarian => "librarian"
  | admin => "admin"
  end.

Definition status_text (s : UserStatus) : string :=
  match s with
  | active => "active"
  | suspended => "suspended"
  | inactive => "inactive"
  end.

Definition role_eqb (a b : UserRole) : bool :=
  match a, b with
  | student, student | faculty, faculty
  | librarian, librarian | admin, admin => true
  | _, _ => false
  end.

Definition status_eqb (a b : UserStatus) : bool :=
  match a, b with
  | active, active | suspended, suspended | inactive, inactive => true
  | _, _ => false
  end.

(** Modelled from the spec: the [User] row type and the [users] table of
    [@/lib/db], which is not among the sources.  The columns are those the
    statements of the two files name, with the nullability that
    [createUser] shows. *)
Module User.
Record t := mk {
  id : string;
  email : string;
  password_hash : string;
  full_name : string;
  role : UserRole;
  status : UserStatus;
  university_id : option string;
  university_name : option string;
  department : option string;
  year_level : option string;
  course : option string;
  phone : option string;
  avatar_url : option string;
  created_at : Z
}.

Definition set_email (v : string) (u : t) : t :=
  mk (id u) v (password_hash u) (full_name u) (role u) (status u)
     (university_id u) (university_name u) (department u) (year_level u)
     (course u) (phone u) (avatar_url u) (created_at u).
Definition set_password_hash (v : string) (u : t) : t :=
  mk (id u) (email u) v (full_name u) (role u) (status u)
     (university_id u) (university_name u) (department u) (year_level u)
     (course u) (phone u) (avatar_url u) (created_at u).
Definition set_full_name (v : string) (u : t) : t :=
  mk (id u) (email u) (password_hash u) v (role u) (status u)
     (university_id u) (university_name u) (department u) (year_level u)
     (course u) (phone u) (avatar_url u) (created_at u).
Definition set_role (v : UserRole) (u : t) : t :=
  mk (id u) (email u) (password_hash u) (full_name u) v (status u)
     (university_id u) (university_name u) (department u) (year_level u)
     (course u) (phone u) (avatar_url u) (created_at u).
Definition set_status (v : UserStatus) (u : t) : t :=
  mk (id u) (email u) (password_hash u) (full_name u) (role u) v
     (university_id u) (university_name u) (department u) (year_level u)
     (course u) (phone u) (avatar_url u) (created_at u).
Definition set_university_id (v : option string) (u : t) : t :=
  mk (id u) (email u) (password_hash u) (full_name u) (role u) (status u)
     v (university_name u) (department u) (year_level u)
     (course u) (phone u) (avatar_url u) (created_at u).
Definition set_university_name (v : option string) (u : t) : t :=
  mk (id u) (email u) (password_hash u) (full_name u) (role u) (status u)
     (university_id u) v (department u) (year_level u)
     (course u) (phone u) (avatar_url u) (created_at u).
Definition set_department (v : option string) (u : t) : t :=
  mk (id u) (email u) (password_hash u) (full_name u) (role u) (status u)
     (university_id u) (university_name u) v (year_level u)
     (course u) (phone u) (avatar_url u) (created_at u).
Definition set_year_level (v : option string) (u : t) : t :=
  mk (id u) (email u) (password_hash u) (full_name u) (role u) (status u)
     (university_id u) (university_name u) (department u) v
     (course u) (phone u) (avatar_url u) (created_at u).
Definition set_course (v : option string) (u : t) : t :=
  mk (id u) (email u) (password_hash u) (full_name u) (role u) (status u)
     (university_id u) (university_name u) (department u) (year_level u)
     v (phone u) (avatar_url u) (created_at u).
Definition set_phone (v : option string) (u : t) : t :=
  mk (id u) (email u) (password_hash u) (full_name u) (role u) (status u)
     (university_id u) (university_name u) (department u) (year_level u)
     (course u) v (avatar_url u) (created_at u).
Definition set_avatar_url (v : option string) (u : t) : t :=
  mk (id u) (email u) (password_hash u) (full_name u) (role u) (status u)
     (university_id u) (university_name u) (department u) (year_level u)
     (course u) (phone u) v (created_at u).
End User.

Definition User : Type := User.t.

(** A bound parameter; [None] is SQL [NULL]. *)
Definition Param : Type := option string.

(** One statement as the database receives it. *)
Record Stmt := mkStmt { sql_text : string; sql_params : list Param }.

(** What an operation does that the outside can see. *)
Inductive Event :=
| EvSession
| EvSql (q : Stmt).

(** The world an operation runs in: the rows of [users] in storage order,
    the identifiers and timestamps the table's defaults will produce for
    the coming inserts, a schedule of persistence failures ([true]: the
    next statement fails; an exhausted schedule means no more failures),
    and the log of events so far. *)
Record World := mkWorld {
  table : list User;
  supply : list (string * Z);
  faults : list bool;
  trace : list Event
}.

Definition with_table (t : list User) (w : World) : World :=
  mkWorld t (supply w) (faults w) (trace w).
Definition with_supply (s : list (string * Z)) (w : World) : World :=
  mkWorld (table w) s (faults w) (trace w).
Definition with_faults (f : list bool) (w : World) : World :=
  mkWorld (table w) (supply w) f (trace w).
Definition log (e : Event) (w : World) : World :=
  mkWorld (table w) (supply w) (faults w) (trace w ++ [e]).

(** The SQL texts of a log, in the order they were sent. *)
Fixpoint sql_texts (tr : list Event) : list string :=
  match tr with
  | [] => []
  | EvSession :: tr' => sql_texts tr'
  | EvSql q :: tr' => sql_text q :: sql_texts tr'
  end.

(** The statements of a log. *)
Fixpoint statements (tr : list Event) : list Stmt :=
  match tr with
  | [] => []
  | EvSession :: tr' => statements tr'
  | EvSql q :: tr' => q :: statements tr'
  end.

(** ** The monad of server actions: the request's session is read, the
    world is threaded, and an exception may be raised. *)

Inductive Exn := Unauthorized | DbError.

Inductive Outcome (A : Type) :=
| Return (a : A)
| Throw (e : Exn).
Arguments Return {A} a.
Arguments Throw {A} e.

Definition Session : Type := option User.

Definition M (A : Type) : Type := Session -> World -> Outcome A * World.

Definition ret {A} (a : A) : M A := fun _ w => (Return a, w).

Definition throw {A} (e : Exn) : M A := fun _ w => (Throw e, w).

Definition bind {A B} (m : M A) (k : A -> M B) : M B :=
  fun s w =>
    match m s w with
    | (Return a, w') => k a s w'
    | (Throw e, w') => (Throw e, w')
    end.

(** [try { m } catch (err) { h }]; [console.error] is not modelled. *)
Definition try_catch {A} (m : M A) (h : M A) : M A :=
  fun s w =>
    match m s w with
    | (Return a, w') => (Return a, w')
    | (Throw _, w') => h s w'
    end.

Notation "x <- m ;; k" := (bind m (fun x => k))
  (at level 61, m at next level, right associativity).
Notation "m ;;; k" := (bind m (fun _ => k))
  (at level 61, right associativity).

(** Modelled from the spec: [getSession] of [@/lib/auth], the session
    resolver "returning { user | null }".  The resolved session is the
    request's input. *)
Definition getSession : M Session :=
  fun s w => (Return s, log EvSession w).

(** Modelled from the spec: [requireRole] of [@/lib/auth], which must
    "verify a caller exists and holds one of an allowed-role set" and
    "fails with an Unauthorized error otherwise". *)
Definition requireRole (roles : list UserRole) : M unit :=
  user <- getSession ;;
  match user with
  | Some u =>
      if existsb (role_eqb (User.role u)) roles then ret tt
      else throw Unauthorized
  | None => throw Unauthorized
  end.

(** ** The database *)

(** Sending one statement: it is logged, then it fails if the schedule
    says so, and runs otherwise. *)
Definition sql {A} (text : string) (params : list Param)
    (run : World -> Outcome A * World) : M A :=
  fun _ w =>
    let w1 := log (EvSql (mkStmt text params)) w in
    match faults w1 with
    | true :: rest => (Throw DbError, with_faults rest w1)
    | false :: rest => run (with_faults rest w1)
    | [] => run w1
    end.

(** [SELECT ... WHERE p]. *)
Definition select_where (p : User -> bool) : World -> Outcome (list User) * World :=
  fun w => (Return (filter p (table w)), w).

(** [UPDATE ... SET f WHERE p RETURNING *]. *)
Definition update_where (p : User -> bool) (f : User -> User)
    : World -> Outcome (list User) * World :=
  fun w =>
    (Return (map f (filter p (table w))),
     with_table (map (fun u => if p u then f u else u) (table w)) w).

(** [DELETE ... WHERE p]. *)
Definition delete_where (p : User -> bool) : World -> Outcome unit * World :=
  fun w => (Return tt, with_table (filter (fun u => negb (p u)) (table w)) w).

(** [INSERT ... RETURNING *]: the table's defaults give the new row its
    [id] and [created_at]; the primary key rejects an [id] that is in
    use. *)
Definition insert_row (row : string -> Z -> User)
    : World -> Outcome (list User) * World :=
  fun w =>
    match supply w with
    | [] => (Throw DbError, w)
    | (i, ts) :: rest =>
        if existsb (fun u => String.eqb (User.id u) i) (table w)
        then (Throw DbError, with_supply rest w)
        else (Return [row i ts],
              with_table (table w ++ [row i ts]) (with_supply rest w))
    end.

Definition has_id (id : string) (u : User) : bool := String.eqb (User.id u) id.

(** [ORDER BY created_at DESC].  PostgreSQL fixes no order among rows
    with equal timestamps; the insertion sort below returns one of the
    orders it may give (rows with equal timestamps in storage order), and
    the properties of a listing are stated for its rows and for their
    being sorted, not for the place of a row among its equals. *)
Fixpoint insert_desc (u : User) (l : list User) : list User :=
  match l with
  | [] => [u]
  | v :: l' =>
      if (User.created_at v <=? User.created_at u)%Z then u :: l
      else v :: insert_desc u l'
  end.

Definition order_by_created_at_desc (l : list User) : list User :=
  fold_right insert_desc [] l.

(** The [WHERE] clause of the listing: not inactive, the role if one is
    asked for, and the pattern against the three lower-cased columns if
    one is given. *)
Definition listing_filter (role : option UserRole) (pattern : option string)
    (u : User) : bool :=
  negb (status_eqb (User.status u) inactive)
  && match role with
     | Some r => role_eqb (User.role u) r
     | None => true
     end
  && match pattern with
     | Some p =>
         like p (toLowerCase (User.full_name u))
         || like p (toLowerCase (User.email u))
         || like_nullable p (option_map toLowerCase (User.university_id u))
     | None => true
     end.

Definition select_listing (role : option UserRole) (pattern : option string)
    : World -> Outcome (list User) * World :=
  fun w =>
    (Return (order_by_created_at_desc
               (filter (listing_filter role pattern) (table w))), w).

(** ** Results and payloads *)

(** [{ user: User | null; error: string | null }]. *)
Record UserResult := mkUserResult { user : option User; error : option string }.

(** [{ error: string | null }]. *)
Record ErrorResult := mkErrorResult { error_of : option string }.

(** The row [getUserStats] returns. *)
Module UserStats.
Record t := mk {
  total_users : nat;
  students : nat;
  faculty : nat;
  librarians : nat;
  admins : nat;
  active_users : nat
}.
End UserStats.

(** The argument of [createUser]. *)
Module NewUser.
Record t := mk {
  email : string;
  password : string;
  full_name : string;
  role : UserRole;
  university_id : option string;
  university_name : option string;
  department : option string;
  year_level : option string;
  course : option string
}.
End NewUser.

(** The argument of [updateCurrentUserProfile]. *)
Module ProfileData.
Record t := mk { full_name : option string; email : option string }.
End ProfileData.

(** One property of the [Partial<...>] argument of [updateUser]; a
    property may be present with the value [undefined] ([None]).  The
    argument itself is the list of its properties in the order
    [Object.entries] yields them. *)
Inductive Entry :=
| e_full_name (v : option string)
| e_role (v : option UserRole)
| e_status (v : option UserStatus)
| e_university_id (v : option string)
| e_university_name (v : option string)
| e_department (v : option string)
| e_phone (v : option string)
| e_avatar_url (v : option string)
| e_year_level (v : option string)
| e_course (v : option string).

Definition entry_key (e : Entry) : string :=
  match e with
  | e_full_name _ => "full_name"
  | e_role _ => "role"
  | e_status _ => "status"
  | e_university_id _ => "university_id"
  | e_university_name _ => "university_name"
  | e_department _ => "department"
  | e_phone _ => "phone"
  | e_avatar_url _ => "avatar_url"
  | e_year_level _ => "year_level"
  | e_course _ => "course"
  end.

(** The value of a property as it is bound; [None] when [undefined]. *)
Definition entry_value (e : Entry) : option string :=
  match e with
  | e_role v => option_map role_text v
  | e_status v => option_map status_text v
  | e_full_name v | e_university_id v | e_university_name v
  | e_department v | e_phone v | e_avatar_url v | e_year_level v
  | e_course v => v
  end.

(** What [SET key = value] does to a row. *)
Definition entry_assign (e : Entry) (u : User) : User :=
  match e with
  | e_full_name (Some v) => User.set_full_name v u
  | e_role (Some v) => User.set_role v u
  | e_status (Some v) => User.set_status v u
  | e_university_id (Some v) => User.set_university_id (Some v) u
  | e_university_name (Some v) => User.set_university_name (Some v) u
  | e_department (Some v) => User.set_department (Some v) u
  | e_phone (Some v) => User.set_phone (Some v) u
  | e_avatar_url (Some v) => User.set_avatar_url (Some v) u
  | e_year_level (Some v) => User.set_year_level (Some v) u
  | e_course (Some v) => User.set_course (Some v) u
  | _ => u
  end.

Definition assign_all (data : list Entry) (u : User) : User :=
  fold_left (fun acc e => entry_assign e acc) data u.

(** The [forEach] of [updateUser]: the [updates] and [values] arrays after
    the loop over [Object.entries(data)]. *)
Definition collect (data : list Entry) : list string * list Param :=
  fold_left
    (fun (acc : list string * list Param) e =>
       let (updates, values) := acc in
       match entry_value e with
       | Some v =>
           (updates ++ [(entry_key e ++ " = $" ++ dec (List.length values + 1))%string],
            values ++ [Some v])
       | None => (updates, values)
       end)
    data ([], []).

(** ** Operations that read the same in both files *)

(** [getUserById]. *)
Definition getUserById (id : string) : M (option User) :=
  result <- sql "SELECT * FROM users WHERE id = $1" [Some id]
              (select_where (has_id id)) ;;
  ret (hd_error result).

(** [getCurrentUserProfile]. *)
Definition getCurrentUserProfile : M (option User) :=
  user <- getSession ;;
  ret user.

(** The row that the [INSERT] of [createUser] stores: the bound columns,
    and the table's defaults for the three columns the statement does
    not name.  The defaults belong to the schema, which is not among the
    sources; the row is given [status] active, which the life cycle of
    the specification asks for ("excluded from listings" only once
    soft-deleted), no [phone] and no [avatar_url]. *)
Definition new_row (data : NewUser.t) (passwordHash : string)
    (i : string) (ts : Z) : User :=
  User.mk i (NewUser.email data) passwordHash (NewUser.full_name data)
          (NewUser.role data) active
          (or_null (NewUser.university_id data))
          (or_null (NewUser.university_name data))
          (or_null (NewUser.department data))
          (or_null (NewUser.year_level data))
          (or_null (NewUser.course data))
          None None ts.

(** The text of the [INSERT], its line breaks written as spaces. *)
Definition insert_text : string :=
  "INSERT INTO users ( email, password_hash, full_name, role, university_id, university_name, department, year_level, course ) VALUES ( $1, $2, $3, $4, $5, $6, $7, $8, $9 ) RETURNING *".

(** [createUser]. *)
Definition createUser (data : NewUser.t) : M UserResult :=
  try_catch
    (requireRole [admin] ;;;
     exists_ <- sql "SELECT id FROM users WHERE email = $1"
                  [Some (NewUser.email data)]
                  (select_where
                     (fun u => String.eqb (User.email u) (NewUser.email data))) ;;
     if (0 <? List.length exists_)%nat
     then ret (mkUserResult None (Some "Email already exists"))
     else
       let passwordHash := hashPassword (NewUser.password data) in
       result <- sql insert_text
                   [ Some (NewUser.email data); Some passwordHash;
                     Some (NewUser.full_name data);
                     Some (role_text (NewUser.role data));
                     or_null (NewUser.university_id data);
                     or_null (NewUser.university_name data);
                     or_null (NewUser.department data);
                     or_null (NewUser.year_level data);
                     or_null (NewUser.course data) ]
                   (insert_row (new_row data passwordHash)) ;;
       ret (mkUserResult (hd_error result) None))
    (ret (mkUserResult None (Some "Failed to create user"))).

(** [createUser] in the two parts that its [await]s cut it in.  No
    transaction holds the [SELECT] and the [INSERT] together, so a
    statement of another call can run between them.

    [createUser_check] is the call up to the answer of the [SELECT]: it
    ends the call with a result ([Some]) or lets it go on ([None]).
    [createUser_store] is the call from there on.  Run one right after
    the other they are [createUser] (lemma [createUser_in_two_steps]). *)
Definition createUser_check (data : NewUser.t) : M (option UserResult) :=
  try_catch
    (requireRole [admin] ;;;
     exists_ <- sql "SELECT id FROM users WHERE email = $1"
                  [Some (NewUser.email data)]
                  (select_where
                     (fun u => String.eqb (User.email u) (NewUser.email data))) ;;
     if (0 <? List.length exists_)%nat
     then ret (Some (mkUserResult None (Some "Email already exists")))
     else ret None)
    (ret (Some (mkUserResult None (Some "Failed to create user")))).

Definition createUser_store (data : NewUser.t) : M UserResult :=
  try_catch
    (let passwordHash := hashPassword (NewUser.password data) in
     result <- sql insert_text
                 [ Some (NewUser.email data); Some passwordHash;
                   Some (NewUser.full_name data);
                   Some (role_text (NewUser.role data));
                   or_null (NewUser.university_id data);
                   or_null (NewUser.university_name data);
                   or_null (NewUser.department data);
                   or_null (NewUser.year_level data);
                   or_null (NewUser.course data) ]
                 (insert_row (new_row data passwordHash)) ;;
     ret (mkUserResult (hd_error result) None))
    (ret (mkUserResult None (Some "Failed to create user"))).

(** The text of the dynamic [UPDATE] of [updateUser] and of
    [updateCurrentUserProfile]; [values] already ends with the id. *)
Definition update_text (updates : list string) (values : list Param) : string :=
  ("UPDATE users SET " ++ join ", " updates
     ++ " WHERE id = $" ++ dec (List.length values) ++ " RETURNING *")%string.

(** [updateUser]. *)
Definition updateUser (id : string) (data : list Entry) : M UserResult :=
  try_catch
    (requireRole [admin] ;;;
     let (updates, values) := collect data in
     if (List.length updates =? 0)%nat
     then ret (mkUserResult None (Some "No updates provided"))
     else
       let values := values ++ [Some id] in
       let query := update_text updates values in
       result <- sql query values
                   (update_where (has_id id) (assign_all data)) ;;
       ret (mkUserResult (hd_error result) None))
    (ret (mkUserResult None (Some "Failed to update user"))).

(** [updateUserRole]. *)
Definition updateUserRole (id : string) (role : UserRole) : M ErrorResult :=
  try_catch
    (requireRole [admin] ;;;
     sql "UPDATE users SET role = $1 WHERE id = $2"
         [Some (role_text role); Some id]
         (update_where (has_id id) (User.set_role role)) ;;;
     ret (mkErrorResult None))
    (ret (mkErrorResult (Some "Failed to update role"))).

(** [updateUserStatus]. *)
Definition updateUserStatus (id : string) (status : UserStatus) : M ErrorResult :=
  try_catch
    (requireRole [admin] ;;;
     sql "UPDATE users SET status = $1 WHERE id = $2"
         [Some (status_text status); Some id]
         (update_where (has_id id) (User.set_status status)) ;;;
     ret (mkErrorResult None))
    (ret (mkErrorResult (Some "Failed to update status"))).

(** What the [UPDATE] of [updateCurrentUserProfile] sets. *)
Definition profile_assign (data : ProfileData.t) (u : User) : User :=
  let u1 :=
    match ProfileData.full_name data with
    | Some v => if truthy (Some v) then User.set_full_name v u else u
    | None => u
    end in
  match ProfileData.email data with
  | Some v => if truthy (Some v) then User.set_email v u1 else u1
  | None => u1
  end.

(** The tail of [updateCurrentUserProfile], from the test of
    [updates.length] on. *)
Definition profile_write (me : User) (data : ProfileData.t)
    (updates : list string) (values : list Param) : M UserResult :=
  if (List.length updates =? 0)%nat
  then ret (mkUserResult None (Some "No updates provided"))
  else
    let values := values ++ [Some (User.id me)] in
    let query := update_text updates values in
    result <- sql query values
                (update_where (has_id (User.id me)) (profile_assign data)) ;;
    ret (mkUserResult (hd_error result) None).

(** [updateCurrentUserProfile]. *)
Definition updateCurrentUserProfile (data : ProfileData.t) : M UserResult :=
  try_catch
    (session <- getSession ;;
     match session with
     | None => ret (mkUserResult None (Some "Not authenticated"))
     | Some me =>
         let (updates, values) :=
           if truthy (ProfileData.full_name data)
           then (["full_name = $1"], [ProfileData.full_name data])
           else ([], []) in
         if truthy (ProfileData.email data) then
           exists_ <- sql "SELECT id FROM users WHERE email = $1 AND id != $2"
                        [ProfileData.email data; Some (User.id me)]
                        (select_where
                           (fun u =>
                              match ProfileData.email data with
                              | Some e => String.eqb (User.email u) e
                              | None => false
                              end
                              && negb (has_id (User.id me) u))) ;;
           if (0 <? List.length exists_)%nat
           then ret (mkUserResult None (Some "Email already in use"))
           else
             profile_write me data
               (updates ++ [("email = $" ++ dec (List.length values + 1))%string])
               (values ++ [ProfileData.email data])
         else profile_write me data updates values
     end)
    (ret (mkUserResult None (Some "Failed to update profile"))).

(** [updateCurrentUserPassword]. *)
Definition updateCurrentUserPassword (currentPassword newPassword : string)
    : M ErrorResult :=
  try_catch
    (session <- getSession ;;
     match session with
     | None => ret (mkErrorResult (Some "Not authenticated"))
     | Some me =>
         let currentHash := hashPassword currentPassword in
         stored <- sql "SELECT password_hash FROM users WHERE id = $1"
                     [Some (User.id me)]
                     (select_where (has_id (User.id me))) ;;
         match stored with
         | [] => ret (mkErrorResult (Some "Current password is incorrect"))
         | row :: _ =>
             if negb (String.eqb (User.password_hash row) currentHash)
             then ret (mkErrorResult (Some "Current password is incorrect"))
             else
               let newHash := hashPassword newPassword in
               sql "UPDATE users SET password_hash = $1 WHERE id = $2"
                   [Some newHash; Some (User.id me)]
                   (update_where (has_id (User.id me))
                                 (User.set_password_hash newHash)) ;;;
               ret (mkErrorResult None)
         end
     end)
    (ret (mkErrorResult (Some "Failed to change password"))).

Definition count (p : User -> bool) (t : list User) : nat :=
  List.length (filter p t).

Definition is_role (r : UserRole) (u : User) : bool := role_eqb (User.role u) r.
Definition is_status (s : UserStatus) (u : User) : bool :=
  status_eqb (User.status u) s.
Definition not_inactive (u : User) : bool := negb (is_status inactive u).

(** What the database makes of a text sent without parameters when the
    text is not the statement its author meant: nothing is assumed about
    it. *)
Definition RawEngine : Type := string -> World -> Outcome (list User) * World.

(** ** [src/lib/actions/user-actions.ts] *)
Module UserActions.

(** The text [getUsers] builds by interpolation. *)
Definition getUsers_query (role : option UserRole) (search : option string)
    : string :=
  let query := "SELECT * FROM users WHERE status != 'inactive'" in
  let query :=
    match role with
    | Some r => (query ++ " AND role = '" ++ role_text r ++ "'")%string
    | None => query
    end in
  let query :=
    match search with
    | Some v =>
        if truthy search then
          let s := toLowerCase v in
          (query ++ " AND (LOWER(full_name) LIKE '%" ++ s
             ++ "%' OR LOWER(email) LIKE '%" ++ s
             ++ "%' OR LOWER(university_id) LIKE '%" ++ s ++ "%')")%string
        else query
    | None => query
    end in
  (query ++ " ORDER BY created_at DESC")%string.

(** The pattern the three literals of the text spell, when there is a
    search. *)
Definition getUsers_pattern (search : option string) : option string :=
  match search with
  | Some v =>
      if truthy search then Some ("%" ++ toLowerCase v ++ "%")%string
      else None
  | None => None
  end.

(** Whether the interpolated search closes its own literal. *)
Definition breaks_literal (search : option string) : bool :=
  match search with
  | Some v => occurs quote (toLowerCase v)
  | None => false
  end.

(** [getUsers].  The text is sent as it is ([sql.unsafe(query)]).  When
    the search holds no quote, each literal is read back as the pattern
    and the text is the listing query; otherwise its meaning is the
    engine's. *)
Definition getUsers (raw : RawEngine) (role : option UserRole)
    (search : option string) : M (list User) :=
  requireRole [admin] ;;;
  let query := getUsers_query role search in
  result <- sql query []
              (if breaks_literal search then raw query
               else select_listing role (getUsers_pattern search)) ;;
  ret result.

(** [deleteUser]: the row is removed. *)
Definition deleteUser (id : string) : M ErrorResult :=
  try_catch
    (requireRole [admin] ;;;
     sql "DELETE FROM users WHERE id = $1" [Some id]
         (delete_where (has_id id)) ;;;
     ret (mkErrorResult None))
    (ret (mkErrorResult (Some "Failed to delete user"))).

(** The text of the statistics query, its line breaks written as spaces. *)
Definition stats_text : string :=
  "SELECT COUNT(*) AS total_users, COUNT(*) FILTER (WHERE role = 'student') AS students, COUNT(*) FILTER (WHERE role = 'faculty') AS faculty, COUNT(*) FILTER (WHERE role = 'librarian') AS librarians, COUNT(*) FILTER (WHERE role = 'admin') AS admins, COUNT(*) FILTER (WHERE status = 'active') AS active_users FROM users".

Definition stats_of (t : list User) : UserStats.t :=
  UserStats.mk
    (List.length t)
    (count (is_role student) t)
    (count (is_role faculty) t)
    (count (is_role librarian) t)
    (count (is_role admin) t)
    (count (is_status active) t).

(** [getUserStats]: every row counts. *)
Definition getUserStats : M UserStats.t :=
  stats <- sql stats_text [] (fun w => (Return (stats_of (table w)), w)) ;;
  ret stats.

End UserActions.

(** ** [src/unnamed/part_001] *)
Module Part001.

(** The [conditions] and [values] arrays of [getUsers] before the
    query is assembled. *)
Definition getUsers_parts (role : option UserRole) (search : option string)
    : list string * list Param :=
  let conditions := ["status != 'inactive'"] in
  let values : list Param := [] in
  let (conditions, values) :=
    match role with
    | Some r =>
        let values := values ++ [Some (role_text r)] in
        (conditions ++ [("role = $" ++ dec (List.length values))%string],
         values)
    | None => (conditions, values)
    end in
  match search with
  | Some v =>
      if truthy search then
        let searchPattern := ("%" ++ toLowerCase v ++ "%")%string in
        let values :=
          values ++ [Some searchPattern; Some searchPattern; Some searchPattern] in
        (conditions
           ++ [("(LOWER(full_name) LIKE $" ++ dec (List.length values - 2)
                ++ " OR LOWER(email) LIKE $" ++ dec (List.length values - 1)
                ++ " OR LOWER(university_id) LIKE $" ++ dec (List.length values)
                ++ ")")%string],
         values)
      else (conditions, values)
  | None => (conditions, values)
  end.

Definition getUsers_query (conditions : list string) : string :=
  ("SELECT * FROM users WHERE " ++ join " AND " conditions
     ++ " ORDER BY created_at DESC")%string.

Definition getUsers_pattern (search : option string) : option string :=
  match search with
  | Some v =>
      if truthy search then Some ("%" ++ toLowerCase v ++ "%")%string
      else None
  | None => None
  end.

(** [getUsers]: the filters are bound parameters. *)
Definition getUsers (role : option UserRole) (search : option string)
    : M (list User) :=
  requireRole [admin] ;;;
  let (conditions, values) := getUsers_parts role search in
  let query := getUsers_query conditions in
  result <- sql query values
              (select_listing role (getUsers_pattern search)) ;;
  ret result.

(** [deleteUser]: the row stays and its status becomes inactive. *)
Definition deleteUser (id : string) : M ErrorResult :=
  try_catch
    (requireRole [admin] ;;;
     sql "UPDATE users SET status = 'inactive' WHERE id = $1" [Some id]
         (update_where (has_id id) (User.set_status inactive)) ;;;
     ret (mkErrorResult None))
    (ret (mkErrorResult (Some "Failed to delete user"))).

(** The text of the statistics query, its line breaks written as spaces. *)
Definition stats_text : string :=
  "SELECT COUNT(*) FILTER (WHERE status != 'inactive') AS total_users, COUNT(*) FILTER (WHERE role = 'student' AND status != 'inactive') AS students, COUNT(*) FILTER (WHERE role = 'faculty' AND status != 'inactive') AS faculty, COUNT(*) FILTER (WHERE role = 'librarian' AND status != 'inactive') AS librarians, COUNT(*) FILTER (WHERE role = 'admin' AND status != 'inactive') AS admins, COUNT(*) FILTER (WHERE status = 'active') AS active_users FROM users".

Definition stats_of (t : list User) : UserStats.t :=
  UserStats.mk
    (count not_inactive t)
    (count (fun u => is_role student u && not_inactive u) t)
    (count (fun u => is_role faculty u && not_inactive u) t)
    (count (fun u => is_role librarian u && not_inactive u) t)
    (count (fun u => is_role admin u && not_inactive u) t)
    (count (is_status active) t).

(** [getUserStats]: inactive rows are left out of the totals. *)
Definition getUserStats : M UserStats.t :=
  stats <- sql stats_text [] (fun w => (Return (stats_of (table w)), w)) ;;
  ret stats.

End Part001.

(** ** Running an operation *)

Definition is_admin (s : Session) : bool :=
  match s with
  | Some u => role_eqb (User.role u) admin
  | None => false
  end.

(** A fresh request: nothing logged yet. *)
Definition fresh (t : list User) : World := mkWorld t [] [] [].

(** The events an operation added to the log. *)
Definition events_since (w w' : World) : list Event :=
  skipn (List.length (trace w)) (trace w').

(** ** Requests *)

(** One call of a server action. *)
Inductive Request :=
| rq_getUsers (role : option UserRole) (search : option string)
| rq_getUserById (id : string)
| rq_getCurrentUserProfile
| rq_createUser (data : NewUser.t)
| rq_updateUser (id : string) (data : list Entry)
| rq_updateUserRole (id : string) (role : UserRole)
| rq_updateUserStatus (id : string) (status : UserStatus)
| rq_deleteUser (id : string)
| rq_getUserStats
| rq_updateCurrentUserProfile (data : ProfileData.t)
| rq_updateCurrentUserPassword (currentPassword newPassword : string).

(** The world after [part_001] has served a request. *)
Definition serve_part001 (rq : Request) (s : Session) (w : World) : World :=
  match rq with
  | rq_getUsers role search => snd (Part001.getUsers role search s w)
  | rq_getUserById id => snd (getUserById id s w)
  | rq_getCurrentUserProfile => snd (getCurrentUserProfile s w)
  | rq_createUser data => snd (createUser data s w)
  | rq_updateUser id data => snd (updateUser id data s w)
  | rq_updateUserRole id role => snd (updateUserRole id role s w)
  | rq_updateUserStatus id status => snd (updateUserStatus id status s w)
  | rq_deleteUser id => snd (Part001.deleteUser id s w)
  | rq_getUserStats => snd (Part001.getUserStats s w)
  | rq_updateCurrentUserProfile data => snd (updateCurrentUserProfile data s w)
  | rq_updateCurrentUserPassword c n => snd (updateCurrentUserPassword c n s w)
  end.

(** The world after [user-actions.ts] has served a request. *)
Definition serve_user_actions (raw : RawEngine) (rq : Request) (s : Session)
    (w : World) : World :=
  match rq with
  | rq_getUsers role search => snd (UserActions.getUsers raw role search s w)
  | rq_deleteUser id => snd (UserActions.deleteUser id s w)
  | rq_getUserStats => snd (UserActions.getUserStats s w)
  | _ => serve_part001 rq s w
  end.

(** A listing request whose search would end its own literal is the one
    request whose effect the text alone does not fix. *)
Definition literal_safe (rq : Request) : bool :=
  match rq with
  | rq_getUsers _ search => negb (UserActions.breaks_literal search)
  | _ => true
  end.

(** Serving a sequence of requests, each with its own session, one
    after the other: a call has ended before the next one begins.  Calls
    that overlap are not runs of [serve_all]; for [createUser] they are
    runs of its two parts, [createUser_check] and [createUser_store]. *)
Fixpoint serve_all (serve : Request -> Session -> World -> World)
    (rqs : list (Request * Session)) (w : World) : World :=
  match rqs with
  | [] => w
  | (rq, s) :: rest => serve_all serve rest (serve rq s w)
  end.

(** ** Properties of tables *)

Definition pk_unique (t : list User) : Prop := NoDup (map User.id t).

(** No two rows share an email, soft-deleted rows included. *)
Definition email_unique (t : list User) : Prop := NoDup (map User.email t).

(** No two rows that are not soft-deleted share an email. *)
Definition live_email_unique (t : list User) : Prop :=
  NoDup (map User.email (filter not_inactive t)).

Definition email_taken (e : string) (t : list User) : Prop :=
  exists u, In u t /\ User.email u = e.


(** ** The listing as the specification words it *)

(** [needle] occurs somewhere in [hay]. *)
Fixpoint contains (needle hay : string) : bool :=
  String.prefix needle hay
  || match hay with
     | EmptyString => false
     | String _ hay' => contains needle hay'
     end.

(** The letters of the alphabet, capital and small. *)
Definition capitals : string := "ABCDEFGHIJKLMNOPQRSTUVWXYZ".
Definition smalls : string := "abcdefghijklmnopqrstuvwxyz".

Definition letter_pairs : list (ascii * ascii) :=
  combine (list_ascii_of_string capitals) (list_ascii_of_string smalls).

(** The same character without regard to case: equal, or the capital
    and the small form of one letter. *)
Definition same_letter (c d : ascii) : bool :=
  Ascii.eqb c d
  || existsb (fun p => (Ascii.eqb c (fst p) && Ascii.eqb d (snd p))
                       || (Ascii.eqb d (fst p) && Ascii.eqb c (snd p)))
             letter_pairs.


(** [hay] starts with [needle], without regard to case. *)
Fixpoint starts_with (needle hay : string) : bool :=
  match needle, hay with
  | EmptyString, _ => true
  | String c needle', String d hay' => same_letter c d && starts_with needle' hay'
  | String _ _, EmptyString => false
  end.

(** Case-insensitive partial match of a search text against a column:
    the column holds the search text somewhere, without regard to
    case. *)
Fixpoint partial_match (search column : string) : bool :=
  starts_with search column
  || match column with
     | EmptyString => false
     | String _ column' => partial_match search column'
     end.


(** The rows the specification says a listing shows: not inactive, of the
    role asked for, and, when a search text is given, matching it in the
    name, the email or the university id. *)
Definition claimed_filter (role : option UserRole) (search : option string)
    (u : User) : bool :=
  negb (status_eqb (User.status u) inactive)
  && match role with
     | Some r => role_eqb (User.role u) r
     | None => true
     end
  && match search with
     | Some v =>
         partial_match v (User.full_name u)
         || partial_match v (User.email u)
         || match User.university_id u with
            | Some i => partial_match v i
            | None => false
            end
     | None => true
     end.

Definition newer_or_same (a b : User) : Prop :=
  (User.created_at b <= User.created_at a)%Z.

(** ** Comparing the SQL texts of two runs *)

(** The texts an operation sends, in order. *)
Definition texts_sent {A} (m : M A) (s : Session) (w : World) : list string :=
  sql_texts (events_since w (snd (m s w))).

(** Two runs agree when the n-th texts are equal wherever both runs send an
    n-th statement. *)
Definition agree (l1 l2 : list string) : Prop :=
  forall n t1 t2, nth_error l1 n = Some t1 -> nth_error l2 n = Some t2 -> t1 = t2.

Definition is_some {A} (o : option A) : bool :=
  match o with
  | Some _ => true
  | None => false
  end.

(** The keys of the properties of an [updateUser] argument that hold a
    value, in order. *)
Definition defined_keys (data : list Entry) : list string :=
  map entry_key (filter (fun e => is_some (entry_value e)) data).

(** The [updates] array that a run of keys gives when [n] values are
    already bound: [key = $n+1], [key = $n+2], ... *)
Fixpoint numbered (n : nat) (keys : list string) : list string :=
  match keys with
  | [] => []
  | k :: rest => (k ++ " = $" ++ dec (n + 1))%string :: numbered (S n) rest
  end.

(** The digest stored for the session user: the [password_hash] of the
    first row the [SELECT] of [updateCurrentUserPassword] returns. *)
Definition stored_digest (me : User) (t : list User) : option string :=
  option_map User.password_hash (hd_error (filter (has_id (User.id me)) t)).

(** The table after [UPDATE users SET password_hash = h WHERE id = me.id]. *)
Definition with_new_digest (me : User) (h : string) (t : list User) : list User :=
  map (fun u => if has_id (User.id me) u then User.set_password_hash h u else u) t.

(** Two operations send the same texts: in any two runs, whatever the
    sessions and the worlds, the n-th texts are equal wherever both runs
    send an n-th statement. *)
Definition same_texts {A B} (m1 : M A) (m2 : M B) : Prop :=
  forall s1 s2 w1 w2, agree (texts_sent m1 s1 w1) (texts_sent m2 s2 w2).

(** ** Notions used in the proofs *)

(** No row has the id. *)
Definition absent (id : string) (t : list User) : Prop :=
  forall u, In u t -> User.id u <> id.

(** One turn of the loop of [collect]. *)
Definition collect_step (acc : list string * list Param) (e : Entry)
    : list string * list Param :=
  let (updates, values) := acc in
  match entry_value e with
  | Some v =>
      (updates ++ [(entry_key e ++ " = $" ++ dec (List.length values + 1))%string],
       values ++ [Some v])
  | None => (updates, values)
  end.

(** The statement [updateUser] sends. *)
Definition updateUser_stmt (id : string) (data : list Entry) : Stmt :=
  mkStmt (update_text (fst (collect data)) (snd (collect data) ++ [Some id]))
         (snd (collect data) ++ [Some id]).

(** The statement the [getUsers] of [part_001] sends. *)
Definition getUsers_stmt (role : option UserRole) (search : option string)
    : Stmt :=
  mkStmt (Part001.getUsers_query (fst (Part001.getUsers_parts role search)))
         (snd (Part001.getUsers_parts role search)).

(** The table after the soft delete of an id. *)
Definition soft_deleted (id : string) (t : list User) : list User :=
  map (fun u => if has_id id u then User.set_status inactive u else u) t.

(** Two worlds with the same rows and the same pending defaults. *)
Definition same_data (w w1 : World) : Prop :=
  table w1 = table w /\ supply w1 = supply w.

(** [hoare s P m Q]: run with session [s] from a world in [P], [m] ends in
    an outcome and a world in [Q]. *)
Definition hoare {A} (s : Session) (P : World -> Prop) (m : M A)
    (Q : Outcome A -> World -> Prop) : Prop :=
  forall w, P w -> Q (fst (m s w)) (snd (m s w)).

(** [m] adds to the log events whose SQL texts are exactly [T], however it
    ends. *)
Definition emits_exactly {A} (m : M A) (T : list string) : Prop :=
  forall s w, exists evs,
    trace (snd (m s w)) = trace w ++ evs /\ sql_texts evs = T.

(** [m] adds to the log events whose SQL texts are the first few of [T]. *)
Definition emits {A} (m : M A) (T : list string) : Prop :=
  forall s w, exists evs k,
    trace (snd (m s w)) = trace w ++ evs /\ sql_texts evs = firstn k T.

(** A statement body that leaves the log alone. *)
Definition keeps_trace {A} (body : World -> Outcome A * World) : Prop :=
  forall w, trace (snd (body w)) = trace w.

(** The texts each operation can send, in order. *)
Definition byid_texts : list string := ["SELECT * FROM users WHERE id = $1"].

Definition create_texts : list string :=
  ["SELECT id FROM users WHERE email = $1"; insert_text].

Definition update_texts (keys : list string) : list string :=
  [update_text (numbered 0 keys) (repeat None (S (List.length keys)))].

Definition listing_texts (has_role has_search : bool) : list string :=
  [Part001.getUsers_query
     (fst (Part001.getUsers_parts
             (if has_role then Some student else None)
             (if has_search then Some "x" else None)))].

Definition profile_texts (has_name has_email : bool) : list string :=
  match has_name, has_email with
  | true, true =>
      ["SELECT id FROM users WHERE email = $1 AND id != $2";
       "UPDATE users SET full_name = $1, email = $2 WHERE id = $3 RETURNING *"]
  | false, true =>
      ["SELECT id FROM users WHERE email = $1 AND id != $2";
       "UPDATE users SET email = $1 WHERE id = $2 RETURNING *"]
  | true, false =>
      ["UPDATE users SET full_name = $1 WHERE id = $2 RETURNING *"]
  | false, false => []
  end.

Definition password_texts : list string :=
  ["SELECT password_hash FROM users WHERE id = $1";
   "UPDATE users SET password_hash = $1 WHERE id = $2"].

(** Ids are unique and no two rows, soft-deleted ones included, share an
    email. *)
Definition keys_unique (t : list User) : Prop := pk_unique t /\ email_unique t.

(** The keys of the world's table are unique. *)
Definition Inv (w : World) : Prop := keys_unique (table w).

(** A statement body that keeps the keys unique. *)
Definition harmless {A} (body : World -> Outcome A * World) : Prop :=
  forall w, Inv w -> Inv (snd (body w)).

(** [m], run with session [s], keeps the keys unique. *)
Definition keeps_keys {A} (s : Session) (m : M A) : Prop :=
  hoare s Inv m (fun _ w => Inv w).

(** A row update that touches neither the id nor the email. *)
Definition keeps_row_keys (f : User -> User) : Prop :=
  forall u, User.id (f u) = User.id u /\ User.email (f u) = User.email u.

(** No row of another id than [me] has the email [e]. *)
Definition email_free_for (me : User) (e : string) (w : World) : Prop :=
  Inv w
  /\ filter (fun u => String.eqb (User.email u) e
                      && negb (has_id (User.id me) u)) (table w) = [].

(** A new user for the examples. *)
Definition demo : NewUser.t :=
  NewUser.mk "dan@lib.org" "pw" "Dan" student None None None None None.

(** ** Failures of the database *)

(** A statement of the run from [w] to [w'] failed: the schedule of [w]
    has a failure among the entries that the statements of the run have
    used up, one entry a statement. *)
Definition statement_failed (w w' : World) : bool :=
  existsb (fun b : bool => b)
          (firstn (List.length (statements (events_since w w'))) (faults w)).

(** [w0] is reached from [w] by statements none of which failed. *)
Definition on_track (w w0 : World) : Prop :=
  exists evs,
    trace w0 = trace w ++ evs
    /\ faults w0 = skipn (List.length (statements evs)) (faults w)
    /\ existsb (fun b : bool => b)
               (firstn (List.length (statements evs)) (faults w)) = false.

(** No statement has failed and nothing has been written yet. *)
Definition going (w w0 : World) : Prop :=
  on_track w w0 /\ table w0 = table w.

(** A step that goes on without a failure or a write, or stops before
    writing. *)
Definition going_or_stopped {A} (w : World) (r : Outcome A) (w1 : World)
    : Prop :=
  match r with
  | Return _ => going w w1
  | Throw _ => table w1 = table w
  end.

(** A run that ends without a failed statement, or stops before
    writing. *)
Definition done_or_stopped {A} (w : World) (r : Outcome A) (w1 : World)
    : Prop :=
  match r with
  | Return _ => on_track w w1
  | Throw _ => table w1 = table w
  end.

(** ** Sample data *)

Definition sample (i e n : string) (r : UserRole) (st : UserStatus) (ts : Z)
    : User :=
  User.mk i e (hashPassword "secret") n r st None None None None None None None ts.

Definition alice : User := sample "1" "alice@lib.org" "alice smith" student active 10.
Definition root : User := sample "2" "root@lib.org" "Root" admin active 20.
Definition ghost : User := sample "3" "alice@lib.org" "Old Alice" student inactive 5.
Definition blank : User := sample "4" "" "No Mail" student active 7.

Definition no_engine : RawEngine := fun _ w => (Throw DbError, w).

(** ** Notions for the further properties *)

(** [m], run with session [s], leaves the table as it is. *)
Definition quiet {A} (s : Session) (m : M A) : Prop :=
  forall w, table (snd (m s w)) = table w.

(** [m], run with session [s], takes a table to one that [R] relates to
    it. *)
Definition evolves {A} (R : list User -> list User -> Prop) (s : Session)
    (m : M A) : Prop :=
  forall w, R (table w) (table (snd (m s w))).

(** A statement body whose effect on the table [R] allows. *)
Definition body_evolves {A} (R : list User -> list User -> Prop)
    (body : World -> Outcome A * World) : Prop :=
  forall w, R (table w) (table (snd (body w))).

(** What an admin's edit aimed at [id] may do to a row: it keeps the id,
    the email, the password digest and the creation time, and leaves a
    row of another id as it is. *)
Definition admin_edit (id : string) (u u' : User) : Prop :=
  User.id u' = User.id u
  /\ User.email u' = User.email u
  /\ User.password_hash u' = User.password_hash u
  /\ User.created_at u' = User.created_at u
  /\ (User.id u <> id -> u' = u).

(** The text a row holds in the column that a property of an
    [updateUser] argument names. *)
Definition column_value (e : Entry) (u : User) : option string :=
  match e with
  | e_full_name _ => Some (User.full_name u)
  | e_role _ => Some (role_text (User.role u))
  | e_status _ => Some (status_text (User.status u))
  | e_university_id _ => User.university_id u
  | e_university_name _ => User.university_name u
  | e_department _ => User.department u
  | e_phone _ => User.phone u
  | e_avatar_url _ => User.avatar_url u
  | e_year_level _ => User.year_level u
  | e_course _ => User.course u
  end.

(** The properties of an [updateUser] argument that hold a value. *)
Definition defined_entries (data : list Entry) : list Entry :=
  filter (fun e => is_some (entry_value e)) data.

(** A row update that keeps what identifies the row and its credentials. *)
Definition keeps_identity (g : User -> User) : Prop :=
  forall u,
    User.id (g u) = User.id u
    /\ User.email (g u) = User.email u
    /\ User.password_hash (g u) = User.password_hash u
    /\ User.created_at (g u) = User.created_at u.

(** The count a statistics row gives for a role. *)
Definition role_count (r : UserRole) (st : UserStats.t) : nat :=
  match r with
  | student => UserStats.students st
  | faculty => UserStats.faculty st
  | librarian => UserStats.librarians st
  | admin => UserStats.admins st
  end.

(** Two rows that differ at most in the name, the email and the password
    digest. *)
Definition same_standing (u u' : User) : Prop :=
  User.id u' = User.id u
  /\ User.role u' = User.role u
  /\ User.status u' = User.status u
  /\ User.created_at u' = User.created_at u
  /\ User.university_id u' = User.university_id u
  /\ User.university_name u' = User.university_name u
  /\ User.department u' = User.department u
  /\ User.year_level u' = User.year_level u
  /\ User.course u' = User.course u
  /\ User.phone u' = User.phone u
  /\ User.avatar_url u' = User.avatar_url u.

(** What a caller who is not an admin may do to a row: nothing to a row
    of another id, and to a row of the caller's id no more than a change
    of name, email or password digest. *)
Definition self_edit (me : User) (u u' : User) : Prop :=
  same_standing u u' /\ (User.id u <> User.id me -> u' = u).

(** What identifies a row for good: its id and its creation time. *)
Definition row_key (u : User) : string * Z := (User.id u, User.created_at u).

(** The rows of [t] are still there in [t'], in their places, possibly
    edited, and new rows come after them. *)
Definition rows_kept (t t' : list User) : Prop :=
  exists extra, map row_key t' = map row_key t ++ extra.

(** ** [src/app/librarian/books/page.tsx] *)

(** How the page function ends: [redirect(url)], which does not return;
    the element it renders, of which the two properties handed to
    [ManageBooksClient] are kept; or an exception of one of the calls. *)
Inductive PageOutcome (B C : Type) :=
| Redirect (url : string)
| Rendered (initialBooks : B) (categories : C)
| Failed (e : Exn).
Arguments Redirect {B C} url.
Arguments Rendered {B C} initialBooks categories.
Arguments Failed {B C} e.

(** The test of the page: no user, or a role that is neither librarian
    nor admin. *)
Definition not_staff (user : Session) : bool :=
  match user with
  | None => true
  | Some u =>
      negb (role_eqb (User.role u) librarian)
      && negb (role_eqb (User.role u) admin)
  end.

(** [ManageBooksPage].  [getBooks] and [getCategories] belong to
    [@/lib/actions/book-actions], which is not among the sources: they
    are parameters. *)
Definition ManageBooksPage {B C} (getBooks : M B) (getCategories : M C)
    (s : Session) (w : World) : PageOutcome B C * World :=
  match getSession s w with
  | (Throw e, w1) => (Failed e, w1)
  | (Return user, w1) =>
      if not_staff user then (Redirect "/login", w1)
      else
        match getBooks s w1 with
        | (Throw e, w2) => (Failed e, w2)
        | (Return books, w2) =>
            match getCategories s w2 with
            | (Throw e, w3) => (Failed e, w3)
            | (Return categories, w3) => (Rendered books categories, w3)
            end
        end
  end.

(** The characters of a hexadecimal digest. *)
Definition hex_chars : string := "0123456789abcdef".

(** A text made of percent signs only. *)
Fixpoint only_percent (s : string) : bool :=
  match s with
  | EmptyString => true
  | String c s' => Ascii.eqb c percent && only_percent s'
  end.

(** The email that a profile update asks for is not the email of a row
    of another id than [me]. *)
Definition email_is_free (data : ProfileData.t) (me : User) (t : list User)
    : Prop :=
  forall e v,
    ProfileData.email data = Some e -> In v t -> User.email v = e ->
    User.id v = User.id me.

Create HintDb actions.

(** * Properties *)

(** ** The monad and the gate *)

Lemma requireRole_admin (s : Session) (w : World) :
  is_admin s = true ->
  requireRole [admin] s w = (Return tt, log EvSession w).
Proof.
  unfold requireRole, bind, getSession, is_admin.
  destruct s as [u|]; simpl; [|discriminate].
  intros ->. reflexivity.
Qed.

Lemma requireRole_other (s : Session) (w : World) :
  is_admin s = false ->
  requireRole [admin] s w = (Throw Unauthorized, log EvSession w).
Proof.
  unfold requireRole, bind, getSession, is_admin.
  destruct s as [u|]; simpl; [|reflexivity].
  intros ->. reflexivity.
Qed.

Lemma sql_up {A} (text : string) (params : list Param)
    (body : World -> Outcome A * World) (s : Session) (w : World) :
  faults w = [] ->
  sql text params body s w = body (log (EvSql (mkStmt text params)) w).
Proof. unfold sql. simpl. intros ->. reflexivity. Qed.

Lemma sql_down {A} (text : string) (params : list Param)
    (body : World -> Outcome A * World) (s : Session) (w : World)
    (rest : list bool) :
  faults w = true :: rest ->
  sql text params body s w
  = (Throw DbError, with_faults rest (log (EvSql (mkStmt text params)) w)).
Proof. unfold sql. simpl. intros ->. reflexivity. Qed.

Lemma try_catch_returns {A} (m : M A) (a : A) (s : Session) (w : World) :
  exists r w', try_catch m (ret a) s w = (Return r, w').
Proof.
  unfold try_catch, ret. destruct (m s w) as [[r|e] w']; eauto.
Qed.

Lemma gate_closed {A} (k : unit -> M A) (s : Session) (w : World) :
  is_admin s = false ->
  bind (requireRole [admin]) k s w = (Throw Unauthorized, log EvSession w).
Proof.
  intros H. unfold bind. rewrite (requireRole_other s w H). reflexivity.
Qed.

Lemma gate_closed_caught {A} (k : unit -> M A) (a : A) (s : Session) (w : World) :
  is_admin s = false ->
  try_catch (bind (requireRole [admin]) k) (ret a) s w
  = (Return a, log EvSession w).
Proof.
  intros H. unfold try_catch, bind. rewrite (requireRole_other s w H).
  reflexivity.
Qed.

Lemma gate_open {A} (k : unit -> M A) (s : Session) (w : World) :
  is_admin s = true ->
  bind (requireRole [admin]) k s w = k tt s (log EvSession w).
Proof.
  intros H. unfold bind. rewrite (requireRole_admin s w H). reflexivity.
Qed.

Lemma statements_app (a b : list Event) :
  statements (a ++ b) = statements a ++ statements b.
Proof.
  induction a as [|[|q] a IH]; simpl; [reflexivity|exact IH|now rewrite IH].
Qed.

Lemma sql_texts_app (a b : list Event) :
  sql_texts (a ++ b) = sql_texts a ++ sql_texts b.
Proof.
  induction a as [|[|q] a IH]; simpl; [reflexivity|exact IH|now rewrite IH].
Qed.

(** ** C1 *)

(** C1. A caller without a session, or with a role other than admin, is
    stopped by the role gate in each admin-only operation of both files:
    the world afterwards is the one before with only the session lookup
    added to the log, so no statement has been sent and the table is the
    same, and the outcome carries no user and no listing. *)
Theorem admin_only_operations_reject_before_data
    (s : Session) (w : World) (raw : RawEngine)
    (role : option UserRole) (search : option string)
    (data : NewUser.t) (id : string) (entries : list Entry)
    (r : UserRole) (st : UserStatus) :
  is_admin s = false ->
  UserActions.getUsers raw role search s w
    = (Throw Unauthorized, log EvSession w)
  /\ Part001.getUsers role search s w
    = (Throw Unauthorized, log EvSession w)
  /\ createUser data s w
    = (Return (mkUserResult None (Some "Failed to create user")),
       log EvSession w)
  /\ updateUser id entries s w
    = (Return (mkUserResult None (Some "Failed to update user")),
       log EvSession w)
  /\ updateUserRole id r s w
    = (Return (mkErrorResult (Some "Failed to update role")),
       log EvSession w)
  /\ updateUserStatus id st s w
    = (Return (mkErrorResult (Some "Failed to update status")),
       log EvSession w)
  /\ UserActions.deleteUser id s w
    = (Return (mkErrorResult (Some "Failed to delete user")),
       log EvSession w)
  /\ Part001.deleteUser id s w
    = (Return (mkErrorResult (Some "Failed to delete user")),
       log EvSession w)
  /\ table (log EvSession w) = table w
  /\ statements (trace (log EvSession w)) = statements (trace w).
Proof.
  intros H.
  repeat split;
    try (apply gate_closed_caught; exact H);
    try (apply gate_closed; exact H).
  simpl. rewrite statements_app. simpl. apply app_nil_r.
Qed.

Lemma admin_only_operations_reject_before_data_witness :
  is_admin (Some alice) = false
  /\ updateUserRole "2" student (Some alice) (fresh [alice; root])
     = (Return (mkErrorResult (Some "Failed to update role")),
        log EvSession (fresh [alice; root])).
Proof.
  split; [reflexivity|].
  apply (admin_only_operations_reject_before_data
           (Some alice) (fresh [alice; root]) no_engine None None
           (NewUser.mk "" "" "" student None None None None None)
           "2" [] student active).
  reflexivity.
Defined.

(** ** Statements on rows that are not there *)

Lemma filter_none {A} (p : A -> bool) (l : list A) :
  (forall x, In x l -> p x = false) -> filter p l = [].
Proof.
  induction l as [|a l IH]; simpl; intros H; [reflexivity|].
  rewrite (H a (or_introl eq_refl)). apply IH. intros x Hx. apply H. now right.
Qed.

Lemma filter_all {A} (p : A -> bool) (l : list A) :
  (forall x, In x l -> p x = true) -> filter p l = l.
Proof.
  induction l as [|a l IH]; simpl; intros H; [reflexivity|].
  rewrite (H a (or_introl eq_refl)). f_equal. apply IH.
  intros x Hx. apply H. now right.
Qed.

Lemma map_if_none {A} (p : A -> bool) (f : A -> A) (l : list A) :
  (forall x, In x l -> p x = false) ->
  map (fun x => if p x then f x else x) l = l.
Proof.
  induction l as [|a l IH]; simpl; intros H; [reflexivity|].
  rewrite (H a (or_introl eq_refl)). f_equal. apply IH.
  intros x Hx. apply H. now right.
Qed.

Lemma has_id_false (id : string) (u : User) :
  User.id u <> id -> has_id id u = false.
Proof. unfold has_id. intros H. now apply String.eqb_neq. Qed.

Lemma has_id_true (id : string) (u : User) :
  has_id id u = true <-> User.id u = id.
Proof. unfold has_id. apply String.eqb_eq. Qed.

Lemma update_where_absent (id : string) (f : User -> User) (w : World) :
  absent id (table w) ->
  update_where (has_id id) f w = (Return [], w).
Proof.
  intros H. unfold update_where.
  rewrite filter_none by (intros x Hx; apply has_id_false, H, Hx).
  rewrite map_if_none by (intros x Hx; apply has_id_false, H, Hx).
  destruct w; reflexivity.
Qed.

Lemma delete_where_absent (id : string) (w : World) :
  absent id (table w) ->
  delete_where (has_id id) w = (Return tt, w).
Proof.
  intros H. unfold delete_where.
  rewrite filter_all.
  - destruct w; reflexivity.
  - intros x Hx. rewrite has_id_false; [reflexivity|apply H, Hx].
Qed.

(** ** The loop of [updateUser] *)

Lemma collect_step_some (updates : list string) (values : list Param)
    (e : Entry) (v : string) :
  entry_value e = Some v ->
  collect_step (updates, values) e
  = (updates ++ [(entry_key e ++ " = $" ++ dec (List.length values + 1))%string],
     values ++ [Some v]).
Proof. unfold collect_step. intros ->. reflexivity. Qed.

Lemma collect_step_none (acc : list string * list Param) (e : Entry) :
  entry_value e = None -> collect_step acc e = acc.
Proof. unfold collect_step. destruct acc. intros ->. reflexivity. Qed.

Lemma defined_keys_step (e : Entry) (data : list Entry) :
  defined_keys (e :: data)
  = if is_some (entry_value e) then entry_key e :: defined_keys data
    else defined_keys data.
Proof.
  unfold defined_keys. cbn [filter].
  destruct (is_some (entry_value e)); reflexivity.
Qed.

Lemma collect_from (data : list Entry) (updates : list string)
    (values : list Param) :
  fst (fold_left collect_step data (updates, values))
    = updates ++ numbered (List.length values) (defined_keys data)
  /\ List.length (snd (fold_left collect_step data (updates, values)))
    = List.length values + List.length (defined_keys data).
Proof.
  revert updates values.
  induction data as [|e data IH]; intros updates values; cbn [fold_left].
  - cbn. rewrite app_nil_r. split; [reflexivity|lia].
  - rewrite defined_keys_step.
    destruct (entry_value e) as [v|] eqn:E; cbn [is_some].
    + rewrite (collect_step_some updates values e v E).
      destruct (IH (updates ++ [(entry_key e ++ " = $"
                                   ++ dec (List.length values + 1))%string])
                   (values ++ [Some v])) as [H1 H2].
      rewrite H1, H2. rewrite length_app. cbn [List.length numbered].
      rewrite <- app_assoc. cbn [app].
      replace (List.length values + 1) with (S (List.length values)) by lia.
      split; [reflexivity|lia].
    + rewrite (collect_step_none (updates, values) e E). apply IH.
Qed.

Lemma collect_updates (data : list Entry) :
  fst (collect data) = numbered 0 (defined_keys data).
Proof. apply (collect_from data [] []). Qed.

Lemma collect_values_length (data : list Entry) :
  List.length (snd (collect data)) = List.length (defined_keys data).
Proof. apply (collect_from data [] []). Qed.

Lemma numbered_length (n : nat) (keys : list string) :
  List.length (numbered n keys) = List.length keys.
Proof.
  revert n. induction keys as [|k keys IH]; intros n; simpl; [reflexivity|].
  now rewrite IH.
Qed.

Lemma defined_keys_nil (data : list Entry) :
  (forall e, In e data -> entry_value e = None) -> defined_keys data = [].
Proof.
  intros H. unfold defined_keys. rewrite filter_none; [reflexivity|].
  intros e He. now rewrite (H e He).
Qed.

Lemma defined_keys_cons (data : list Entry) (e : Entry) :
  In e data -> entry_value e <> None -> defined_keys data <> [].
Proof.
  intros He Hv Hnil. unfold defined_keys in Hnil.
  apply map_eq_nil in Hnil.
  assert (Hin : In e (filter (fun e => is_some (entry_value e)) data)).
  { apply filter_In. split; [exact He|].
    destruct (entry_value e); [reflexivity|congruence]. }
  rewrite Hnil in Hin. exact Hin.
Qed.

(** ** C8 *)

(** C8. For an admin caller, [updateUser] with an argument all of whose
    properties are undefined (the empty object among them) returns
    [{ user: null, error: "No updates provided" }]; the only event is the
    session lookup of the gate, so no statement is sent and no row
    changes. *)
Theorem updateUser_without_fields_is_refused
    (id : string) (data : list Entry) (s : Session) (w : World) :
  is_admin s = true ->
  (forall e, In e data -> entry_value e = None) ->
  updateUser id data s w
    = (Return (mkUserResult None (Some "No updates provided")),
       log EvSession w)
  /\ table (log EvSession w) = table w
  /\ statements (trace (log EvSession w)) = statements (trace w).
Proof.
  intros Hs Hd. split.
  - unfold updateUser, try_catch. rewrite gate_open by exact Hs.
    pose proof (collect_updates data) as Hu.
    rewrite (defined_keys_nil data Hd) in Hu.
    destruct (collect data) as [updates values]. simpl in Hu. subst updates.
    reflexivity.
  - split; [reflexivity|].
    simpl. rewrite statements_app. simpl. apply app_nil_r.
Qed.

Lemma updateUser_without_fields_is_refused_witness :
  updateUser "1" [e_phone None; e_role None] (Some root) (fresh [alice; root])
    = (Return (mkUserResult None (Some "No updates provided")),
       log EvSession (fresh [alice; root])).
Proof.
  apply (updateUser_without_fields_is_refused
           "1" [e_phone None; e_role None] (Some root) (fresh [alice; root])).
  - reflexivity.
  - intros e [<-|[<-|[]]]; reflexivity.
Defined.

(** ** C10 *)

Lemma updateUser_sends (id : string) (data : list Entry) (s : Session)
    (w : World) :
  is_admin s = true ->
  faults w = [] ->
  defined_keys data <> [] ->
  updateUser id data s w
  = (Return (mkUserResult
               (hd_error (map (assign_all data) (filter (has_id id) (table w))))
               None),
     with_table
       (map (fun u => if has_id id u then assign_all data u else u) (table w))
       (log (EvSql (updateUser_stmt id data)) (log EvSession w))).
Proof.
  intros Hs Hf Hk.
  unfold updateUser, try_catch, updateUser_stmt.
  rewrite gate_open by exact Hs.
  pose proof (collect_updates data) as Hu.
  destruct (collect data) as [updates values]. cbn [fst snd] in *.
  destruct updates as [|k updates].
  - destruct (defined_keys data); [congruence|discriminate].
  - cbn [List.length Nat.eqb]. unfold bind.
    rewrite sql_up by exact Hf. reflexivity.
Qed.

(** C10. For an admin caller and a database that answers, the operations
    aimed at an id that no row has report success: [updateUserRole],
    [updateUserStatus] and both versions of [deleteUser] return
    [{ error: null }], and [updateUser] with at least one defined property
    returns no user and [error: null].  None of them changes a row. *)
Theorem absent_id_is_reported_as_success
    (id : string) (s : Session) (w : World)
    (role : UserRole) (status : UserStatus) (data : list Entry) (e : Entry) :
  is_admin s = true ->
  faults w = [] ->
  absent id (table w) ->
  In e data -> entry_value e <> None ->
  (exists w', updateUserRole id role s w = (Return (mkErrorResult None), w')
              /\ table w' = table w)
  /\ (exists w', updateUserStatus id status s w = (Return (mkErrorResult None), w')
                 /\ table w' = table w)
  /\ (exists w', UserActions.deleteUser id s w = (Return (mkErrorResult None), w')
                 /\ table w' = table w)
  /\ (exists w', Part001.deleteUser id s w = (Return (mkErrorResult None), w')
                 /\ table w' = table w)
  /\ (exists w', updateUser id data s w = (Return (mkUserResult None None), w')
                 /\ table w' = table w).
Proof.
  intros Hs Hf Ha He Hv.
  repeat split.
  - unfold updateUserRole, try_catch. rewrite gate_open by exact Hs.
    unfold bind. rewrite sql_up by exact Hf.
    rewrite update_where_absent by exact Ha.
    eexists; split; reflexivity.
  - unfold updateUserStatus, try_catch. rewrite gate_open by exact Hs.
    unfold bind. rewrite sql_up by exact Hf.
    rewrite update_where_absent by exact Ha.
    eexists; split; reflexivity.
  - unfold UserActions.deleteUser, try_catch. rewrite gate_open by exact Hs.
    unfold bind. rewrite sql_up by exact Hf.
    rewrite delete_where_absent by exact Ha.
    eexists; split; reflexivity.
  - unfold Part001.deleteUser, try_catch. rewrite gate_open by exact Hs.
    unfold bind. rewrite sql_up by exact Hf.
    rewrite update_where_absent by exact Ha.
    eexists; split; reflexivity.
  - rewrite (updateUser_sends id data s w Hs Hf
               (defined_keys_cons data e He Hv)).
    rewrite filter_none by (intros x Hx; apply has_id_false, Ha, Hx).
    rewrite map_if_none by (intros x Hx; apply has_id_false, Ha, Hx).
    eexists; split; reflexivity.
Qed.

Lemma absent_id_is_reported_as_success_witness :
  exists w',
    updateUser "9" [e_phone (Some "555")] (Some root) (fresh [alice; root])
    = (Return (mkUserResult None None), w')
    /\ table w' = [alice; root].
Proof.
  apply (absent_id_is_reported_as_success
           "9" (Some root) (fresh [alice; root]) student active
           [e_phone (Some "555")] (e_phone (Some "555"))).
  - reflexivity.
  - reflexivity.
  - intros u [<-|[<-|[]]]; discriminate.
  - left; reflexivity.
  - discriminate.
Defined.

(** ** C9 *)

Lemma hd_filter_unique (id : string) (u : User) (t : list User) :
  pk_unique t -> In u t -> User.id u = id ->
  filter (has_id id) t = [u].
Proof.
  unfold pk_unique. intros Hnd Hin Hid.
  induction t as [|a t IH]; [destruct Hin|].
  cbn [map] in Hnd. inversion Hnd as [|x l Hnotin Hnd' E]; subst x l.
  cbn [filter]. destruct Hin as [->|Hin].
  - rewrite (proj2 (has_id_true id u) Hid).
    f_equal. apply filter_none. intros x Hx. apply has_id_false.
    intros Hx'. apply Hnotin. rewrite Hid, <- Hx'. now apply in_map.
  - rewrite has_id_false.
    + apply IH; assumption.
    + intros Ha. apply Hnotin. rewrite Ha, <- Hid. now apply in_map.
Qed.

Lemma lookups_need_no_session_aux (id : string) (s : Session) (w : World)
    (Hf : faults w = []) (u : User) :
  pk_unique (table w) -> In u (table w) -> User.id u = id ->
  fst (getUserById id s w) = Return (Some u).
Proof.
  intros Hpk Hin Hid. unfold getUserById, bind. rewrite sql_up by exact Hf.
  cbn. rewrite (hd_filter_unique id u (table w) Hpk Hin Hid). reflexivity.
Qed.

(** C9. [getUserById] and both versions of [getUserStats] never look at
    the session: whoever calls, with a session or without, the only event
    is the one statement, the answer is the row with that id (the first
    stored one; the very row when ids are unique, whatever its status,
    inactive included) and the counts over the table, and the result is
    the same for any two callers.  The counts are: in [user-actions.ts],
    the number of all rows, of the rows of each role, and of the rows
    with status active; in [part_001], the number of the rows that are
    not inactive, of the rows of each role that are not inactive, and of
    the rows with status active. *)
Theorem lookups_need_no_session
    (id : string) (s : Session) (w : World) :
  faults w = [] ->
  getUserById id s w
    = (Return (hd_error (filter (has_id id) (table w))),
       log (EvSql (mkStmt "SELECT * FROM users WHERE id = $1" [Some id])) w)
  /\ (forall u, pk_unique (table w) -> In u (table w) -> User.id u = id ->
                fst (getUserById id s w) = Return (Some u))
  /\ UserActions.getUserStats s w
    = (Return (UserActions.stats_of (table w)),
       log (EvSql (mkStmt UserActions.stats_text [])) w)
  /\ Part001.getUserStats s w
    = (Return (Part001.stats_of (table w)),
       log (EvSql (mkStmt Part001.stats_text [])) w)
  /\ (forall s', getUserById id s' w = getUserById id s w
                 /\ UserActions.getUserStats s' w = UserActions.getUserStats s w
                 /\ Part001.getUserStats s' w = Part001.getUserStats s w)
  /\ (let number (p : User -> bool) := List.length (filter p (table w)) in
      let of_role (r : UserRole) (u : User) :=
        match r, User.role u with
        | student, student | faculty, faculty
        | librarian, librarian | admin, admin => true
        | _, _ => false
        end in
      let is_active (u : User) :=
        match User.status u with
        | active => true
        | _ => false
        end in
      let live (u : User) :=
        match User.status u with
        | inactive => false
        | _ => true
        end in
      (forall st w',
          UserActions.getUserStats s w = (Return st, w') ->
          UserStats.total_users st = List.length (table w)
          /\ UserStats.students st = number (of_role student)
          /\ UserStats.faculty st = number (of_role faculty)
          /\ UserStats.librarians st = number (of_role librarian)
          /\ UserStats.admins st = number (of_role admin)
          /\ UserStats.active_users st = number is_active)
      /\ (forall st w',
            Part001.getUserStats s w = (Return st, w') ->
            UserStats.total_users st = number live
            /\ UserStats.students st
               = number (fun u => of_role student u && live u)
            /\ UserStats.faculty st
               = number (fun u => of_role faculty u && live u)
            /\ UserStats.librarians st
               = number (fun u => of_role librarian u && live u)
            /\ UserStats.admins st
               = number (fun u => of_role admin u && live u)
            /\ UserStats.active_users st = number is_active)).
Proof.
  intros Hf.
  assert (H1 : getUserById id s w
               = (Return (hd_error (filter (has_id id) (table w))),
                  log (EvSql (mkStmt "SELECT * FROM users WHERE id = $1"
                                     [Some id])) w)).
  { unfold getUserById, bind. rewrite sql_up by exact Hf. reflexivity. }
  split; [exact H1|]. split.
  { intros u Hpk Hin Hid. rewrite H1. cbn [fst].
    rewrite (hd_filter_unique id u (table w) Hpk Hin Hid). reflexivity. }
  split.
  { unfold UserActions.getUserStats, bind. rewrite sql_up by exact Hf.
    reflexivity. }
  assert (H2 : UserActions.getUserStats s w
               = (Return (UserActions.stats_of (table w)),
                  log (EvSql (mkStmt UserActions.stats_text [])) w)).
  { unfold UserActions.getUserStats, bind. rewrite sql_up by exact Hf.
    reflexivity. }
  assert (H3 : Part001.getUserStats s w
               = (Return (Part001.stats_of (table w)),
                  log (EvSql (mkStmt Part001.stats_text [])) w)).
  { unfold Part001.getUserStats, bind. rewrite sql_up by exact Hf.
    reflexivity. }
  split; [exact H3|].
  split; [intros s'; repeat split; reflexivity|].
  intros number of_role is_active live.
  assert (Hn : forall p q : User -> bool,
             (forall u, p u = q u) -> count p (table w) = number q).
  { intros p q Hpq. unfold count, number. f_equal. apply filter_ext, Hpq. }
  split.
  - intros st w' Hrun. rewrite H2 in Hrun. injection Hrun as <- _.
    cbn [UserActions.stats_of UserStats.total_users UserStats.students
         UserStats.faculty UserStats.librarians UserStats.admins
         UserStats.active_users].
    split; [reflexivity|].
    repeat split; apply Hn; intros u; unfold is_role, is_status, of_role,
      is_active; destruct (User.role u), (User.status u); reflexivity.
  - intros st w' Hrun. rewrite H3 in Hrun. injection Hrun as <- _.
    cbn [Part001.stats_of UserStats.total_users UserStats.students
         UserStats.faculty UserStats.librarians UserStats.admins
         UserStats.active_users].
    repeat split; apply Hn; intros u;
      unfold not_inactive, is_role, is_status, of_role, is_active, live;
      destruct (User.role u), (User.status u); reflexivity.
Qed.

Lemma lookups_need_no_session_witness :
  fst (getUserById "3" None (fresh [alice; root; ghost])) = Return (Some ghost).
Proof.
  apply (lookups_need_no_session "3" None (fresh [alice; root; ghost])).
  - reflexivity.
  - unfold pk_unique. cbn.
    repeat constructor; cbn; intuition discriminate.
  - right; right; left; reflexivity.
  - reflexivity.
Defined.

(** ** Ordering *)

Lemma insert_desc_perm (u : User) (l : list User) :
  Permutation (insert_desc u l) (u :: l).
Proof.
  induction l as [|v l IH]; cbn [insert_desc]; [apply Permutation_refl|].
  destruct (User.created_at v <=? User.created_at u)%Z.
  - apply Permutation_refl.
  - apply perm_trans with (v :: u :: l).
    + apply perm_skip, IH.
    + apply perm_swap.
Qed.

Lemma order_perm (l : list User) :
  Permutation (order_by_created_at_desc l) l.
Proof.
  induction l as [|u l IH]; cbn; [apply perm_nil|].
  apply perm_trans with (u :: order_by_created_at_desc l).
  - apply insert_desc_perm.
  - apply perm_skip, IH.
Qed.

Lemma order_In (u : User) (l : list User) :
  In u (order_by_created_at_desc l) <-> In u l.
Proof.
  split; apply Permutation_in;
    [apply order_perm | apply Permutation_sym, order_perm].
Qed.

Lemma insert_desc_hd (a u : User) (l : list User) :
  newer_or_same a u -> HdRel newer_or_same a l ->
  HdRel newer_or_same a (insert_desc u l).
Proof.
  intros Hau Hal. destruct l as [|v l]; cbn [insert_desc].
  - constructor. exact Hau.
  - destruct (User.created_at v <=? User.created_at u)%Z.
    + constructor. exact Hau.
    + constructor. inversion Hal; assumption.
Qed.

Lemma insert_desc_sorted (u : User) (l : list User) :
  Sorted newer_or_same l -> Sorted newer_or_same (insert_desc u l).
Proof.
  induction l as [|v l IH]; intros Hs; cbn [insert_desc].
  - repeat constructor.
  - destruct (User.created_at v <=? User.created_at u)%Z eqn:E.
    + constructor; [exact Hs|]. constructor.
      unfold newer_or_same. apply Z.leb_le, E.
    + inversion Hs as [|x y Hs' Hhd]; subst.
      constructor; [apply IH, Hs'|].
      apply insert_desc_hd; [|exact Hhd].
      unfold newer_or_same. apply Z.leb_gt in E. lia.
Qed.

Lemma order_sorted (l : list User) :
  Sorted newer_or_same (order_by_created_at_desc l).
Proof.
  induction l as [|u l IH]; cbn; [constructor|].
  apply insert_desc_sorted, IH.
Qed.

(** ** The listing of [part_001] for an admin *)

Lemma getUsers_admin (role : option UserRole) (search : option string)
    (s : Session) (w : World) :
  is_admin s = true ->
  faults w = [] ->
  Part001.getUsers role search s w
  = (Return (order_by_created_at_desc
               (filter (listing_filter role (Part001.getUsers_pattern search))
                       (table w))),
     log (EvSql (getUsers_stmt role search)) (log EvSession w)).
Proof.
  intros Hs Hf. unfold Part001.getUsers, getUsers_stmt.
  rewrite gate_open by exact Hs.
  destruct (Part001.getUsers_parts role search) as [conditions values].
  unfold bind. rewrite sql_up by exact Hf. reflexivity.
Qed.

(** ** Soft delete *)

Lemma soft_delete_admin (id : string) (s : Session) (w : World) :
  is_admin s = true ->
  faults w = [] ->
  Part001.deleteUser id s w
  = (Return (mkErrorResult None),
     with_table (soft_deleted id (table w))
       (log (EvSql (mkStmt "UPDATE users SET status = 'inactive' WHERE id = $1"
                           [Some id]))
            (log EvSession w))).
Proof.
  intros Hs Hf. unfold Part001.deleteUser, try_catch.
  rewrite gate_open by exact Hs.
  unfold bind. rewrite sql_up by exact Hf. reflexivity.
Qed.

Lemma soft_deleted_ids (id : string) (t : list User) :
  map User.id (soft_deleted id t) = map User.id t.
Proof.
  unfold soft_deleted. rewrite map_map. apply map_ext.
  intros u. destruct (has_id id u); reflexivity.
Qed.

Lemma soft_deleted_row (id : string) (t : list User) (r : User) :
  In r (soft_deleted id t) -> User.id r = id -> User.status r = inactive.
Proof.
  unfold soft_deleted. intros Hin Hid.
  apply in_map_iff in Hin. destruct Hin as (x & Hx & _).
  destruct (has_id id x) eqn:E; subst r; [reflexivity|].
  apply has_id_true in Hid. congruence.
Qed.

Lemma soft_deleted_count (id : string) (u : User) (t : list User) :
  pk_unique t -> In u t -> User.id u = id -> User.status u <> inactive ->
  count not_inactive t = S (count not_inactive (soft_deleted id t)).
Proof.
  unfold pk_unique, count. intros Hnd Hin Hid Hst.
  induction t as [|a t IH]; [destruct Hin|].
  cbn [map] in Hnd. inversion Hnd as [|x l Hnotin Hnd' E]; subst x l.
  unfold soft_deleted. cbn [map filter]. fold (soft_deleted id t).
  destruct Hin as [->|Hin].
  - rewrite (proj2 (has_id_true id u) Hid).
    assert (Hrest : soft_deleted id t = t).
    { apply map_if_none. intros x Hx. apply has_id_false.
      intros Hx'. apply Hnotin. rewrite Hid, <- Hx'. now apply in_map. }
    rewrite Hrest.
    assert (Hu : not_inactive u = true).
    { unfold not_inactive, is_status. destruct (User.status u); try reflexivity.
      now elim Hst. }
    rewrite Hu. reflexivity.
  - assert (Ha : has_id id a = false).
    { apply has_id_false. intros Ha. apply Hnotin. rewrite Ha, <- Hid.
      now apply in_map. }
    rewrite Ha. destruct (not_inactive a); cbn [List.length].
    + f_equal. apply IH; assumption.
    + apply IH; assumption.
Qed.

Lemma listing_filter_live (role : option UserRole) (pattern : option string)
    (u : User) :
  listing_filter role pattern u = true -> User.status u <> inactive.
Proof.
  unfold listing_filter. intros H Hst. rewrite Hst in H. discriminate.
Qed.

(** ** C2 *)

(** C2. In [part_001], with unique ids and a database that answers, an
    admin's [deleteUser(id)] on a stored user succeeds, and afterwards: no
    listing, whatever its role and search arguments, shows a row of that
    id; [getUserById(id)] still returns the row, now inactive; and, when
    the user was not inactive before, [total_users] is one less than it
    was. *)
Theorem soft_delete_hides_and_keeps
    (id : string) (u : User) (s : Session) (w : World) :
  is_admin s = true ->
  faults w = [] ->
  pk_unique (table w) ->
  In u (table w) ->
  User.id u = id ->
  exists w1,
    Part001.deleteUser id s w = (Return (mkErrorResult None), w1)
    /\ (forall role search, exists l w2,
          Part001.getUsers role search s w1 = (Return l, w2)
          /\ ~ In id (map User.id l))
    /\ (forall s',
          fst (getUserById id s' w1) = Return (Some (User.set_status inactive u)))
    /\ (User.status u <> inactive ->
        forall s', exists before after,
          fst (Part001.getUserStats s' w) = Return before
          /\ fst (Part001.getUserStats s' w1) = Return after
          /\ UserStats.total_users before = S (UserStats.total_users after)).
Proof.
  intros Hs Hf Hpk Hin Hid.
  eexists. split; [apply soft_delete_admin; assumption|].
  set (w1 := with_table _ _).
  assert (Hf1 : faults w1 = []) by exact Hf.
  assert (Ht1 : table w1 = soft_deleted id (table w)) by reflexivity.
  split; [|split].
  - intros role search. eexists _, _. split.
    + apply getUsers_admin; assumption.
    + intros Hmem. apply in_map_iff in Hmem. destruct Hmem as (r & Hrid & Hr).
      apply (proj1 (order_In _ _)) in Hr.
      apply filter_In in Hr. destruct Hr as [Hr Hlive].
      apply listing_filter_live in Hlive. apply Hlive.
      rewrite Ht1 in Hr. exact (soft_deleted_row id (table w) r Hr Hrid).
  - intros s'.
    apply (lookups_need_no_session_aux id s' w1 Hf1).
    + unfold pk_unique. rewrite Ht1, soft_deleted_ids. exact Hpk.
    + rewrite Ht1. unfold soft_deleted.
      apply in_map_iff. exists u. split; [|exact Hin].
      now rewrite (proj2 (has_id_true id u) Hid).
    + exact Hid.
  - intros Hst s'. eexists _, _. split; [|split].
    + unfold Part001.getUserStats, bind. rewrite sql_up by exact Hf. reflexivity.
    + unfold Part001.getUserStats, bind. rewrite sql_up by exact Hf1. reflexivity.
    + cbn [UserStats.total_users Part001.stats_of table log].
      rewrite Ht1. apply (soft_deleted_count id u); assumption.
Qed.

Lemma soft_delete_hides_and_keeps_witness :
  exists w1,
    Part001.deleteUser "1" (Some root) (fresh [alice; root])
      = (Return (mkErrorResult None), w1)
    /\ (forall role search, exists l w2,
          Part001.getUsers role search (Some root) w1 = (Return l, w2)
          /\ ~ In "1" (map User.id l))
    /\ (forall s',
          fst (getUserById "1" s' w1)
            = Return (Some (User.set_status inactive alice)))
    /\ (User.status alice <> inactive ->
        forall s', exists before after,
          fst (Part001.getUserStats s' (fresh [alice; root])) = Return before
          /\ fst (Part001.getUserStats s' w1) = Return after
          /\ UserStats.total_users before = S (UserStats.total_users after)).
Proof.
  apply (soft_delete_hides_and_keeps "1" alice (Some root) (fresh [alice; root])).
  - reflexivity.
  - reflexivity.
  - unfold pk_unique. cbn. repeat constructor; cbn; intuition discriminate.
  - left; reflexivity.
  - reflexivity.
Defined.

(** ** A program logic for server actions *)

Lemma same_data_refl (w : World) : same_data w w.
Proof. split; reflexivity. Qed.

Lemma same_data_trans (a b c : World) :
  same_data a b -> same_data b c -> same_data a c.
Proof. intros [H1 H2] [H3 H4]. split; congruence. Qed.

Lemma same_data_log (e : Event) (w : World) : same_data w (log e w).
Proof. split; reflexivity. Qed.

Lemma same_data_faults (f : list bool) (w : World) :
  same_data w (with_faults f w).
Proof. split; reflexivity. Qed.

#[local] Hint Resolve same_data_refl same_data_log same_data_faults : actions.

Section Hoare.
Variable s : Session.

Lemma hoare_ret {A} (P : World -> Prop) (a : A)
    (Q : Outcome A -> World -> Prop) :
  (forall w, P w -> Q (Return a) w) -> hoare s P (ret a) Q.
Proof. intros H w Hw. apply H, Hw. Qed.

Lemma hoare_bind {A B} (P : World -> Prop) (m : M A) (k : A -> M B)
    (R : Outcome A -> World -> Prop) (Q : Outcome B -> World -> Prop) :
  hoare s P m R ->
  (forall a, hoare s (R (Return a)) (k a) Q) ->
  (forall e w, R (Throw e) w -> Q (Throw e) w) ->
  hoare s P (bind m k) Q.
Proof.
  intros Hm Hk He w Hw. unfold bind. specialize (Hm w Hw).
  destruct (m s w) as [[a|e] w1]; cbn [fst snd] in *.
  - apply Hk, Hm.
  - apply He, Hm.
Qed.

Lemma hoare_try {A} (P : World -> Prop) (m h : M A)
    (R Q : Outcome A -> World -> Prop) :
  hoare s P m R ->
  (forall a w, R (Return a) w -> Q (Return a) w) ->
  (forall e, hoare s (R (Throw e)) h Q) ->
  hoare s P (try_catch m h) Q.
Proof.
  intros Hm Hr Hh w Hw. unfold try_catch. specialize (Hm w Hw).
  destruct (m s w) as [[a|e] w1]; cbn [fst snd] in *.
  - apply Hr, Hm.
  - apply (Hh e), Hm.
Qed.

Lemma hoare_sql {A} (P : World -> Prop) (text : string)
    (params : list Param) (body : World -> Outcome A * World)
    (Q : Outcome A -> World -> Prop) :
  (forall w w1, P w -> same_data w w1 ->
                Q (fst (body w1)) (snd (body w1))) ->
  (forall w w1, P w -> same_data w w1 -> Q (Throw DbError) w1) ->
  hoare s P (sql text params body) Q.
Proof.
  intros Hrun Hfail w Hw. unfold sql. cbn [faults log].
  destruct (faults w) as [|[|] rest]; cbn [fst snd].
  - apply (Hrun w); [exact Hw|apply same_data_log].
  - apply (Hfail w); [exact Hw|split; reflexivity].
  - apply (Hrun w); [exact Hw|split; reflexivity].
Qed.

Lemma hoare_getSession (P : World -> Prop)
    (Q : Outcome Session -> World -> Prop) :
  (forall w w1, P w -> same_data w w1 -> Q (Return s) w1) ->
  hoare s P getSession Q.
Proof.
  intros H w Hw. unfold getSession. cbn [fst snd].
  apply (H w); [exact Hw|apply same_data_log].
Qed.

Lemma hoare_requireRole (P : World -> Prop)
    (Q : Outcome unit -> World -> Prop) :
  (forall w w1, P w -> same_data w w1 ->
                if is_admin s then Q (Return tt) w1
                else Q (Throw Unauthorized) w1) ->
  hoare s P (requireRole [admin]) Q.
Proof.
  intros H w Hw. specialize (H w (log EvSession w) Hw (same_data_log _ _)).
  destruct (is_admin s) eqn:E.
  - rewrite requireRole_admin by exact E. exact H.
  - rewrite requireRole_other by exact E. exact H.
Qed.

Lemma hoare_weaken {A} (P P' : World -> Prop) (m : M A)
    (Q Q' : Outcome A -> World -> Prop) :
  hoare s P' m Q' ->
  (forall w, P w -> P' w) ->
  (forall r w, Q' r w -> Q r w) ->
  hoare s P m Q.
Proof. intros H HP HQ w Hw. apply HQ, H, HP, Hw. Qed.
End Hoare.

(** ** C6 *)

(** The digest function on the standard test vectors. *)
Example hashPassword_vectors :
  hashPassword "abc"
    = "ba7816bf8f01cfea414140de5dae2223b00361a396177a9cb410ff61f20015ad"
  /\ hashPassword ""
    = "e3b0c44298fc1c149afbf4c8996fb92427ae41e4649b934ca495991b7852b855"
  /\ String.length (hashPassword "a longer password, of more than one block of sixty-four bytes")
    = 64.
Proof. repeat split; vm_compute; reflexivity. Qed.

Lemma option_eq_dec_string (a b : option string) : {a = b} + {a <> b}.
Proof. decide equality. apply string_dec. Qed.

Lemma stored_digest_rows (me : User) (t : list User) (h : string) :
  stored_digest me t = Some h <->
  exists row rest,
    filter (has_id (User.id me)) t = row :: rest /\ User.password_hash row = h.
Proof.
  unfold stored_digest. destruct (filter (has_id (User.id me)) t) as [|row rest].
  - cbn. split; [discriminate|]. intros (r & l & H & _). discriminate.
  - cbn. split.
    + intros [= <-]. eauto.
    + intros (r & l & [= <- <-] & <-). reflexivity.
Qed.

Lemma password_session (currentPassword newPassword : string) (me : User)
    (w : World) :
  updateCurrentUserPassword currentPassword newPassword (Some me) w
  = try_catch
      (stored <- sql "SELECT password_hash FROM users WHERE id = $1"
                   [Some (User.id me)]
                   (select_where (has_id (User.id me))) ;;
       match stored with
       | [] => ret (mkErrorResult (Some "Current password is incorrect"))
       | row :: _ =>
           if negb (String.eqb (User.password_hash row)
                               (hashPassword currentPassword))
           then ret (mkErrorResult (Some "Current password is incorrect"))
           else
             sql "UPDATE users SET password_hash = $1 WHERE id = $2"
                 [Some (hashPassword newPassword); Some (User.id me)]
                 (update_where (has_id (User.id me))
                               (User.set_password_hash (hashPassword newPassword))) ;;;
             ret (mkErrorResult None)
       end)
      (ret (mkErrorResult (Some "Failed to change password")))
      (Some me) (log EvSession w).
Proof. reflexivity. Qed.

Lemma password_wrong (currentPassword newPassword : string) (me : User)
    (w : World) :
  stored_digest me (table w) <> Some (hashPassword currentPassword) ->
  exists msg w',
    updateCurrentUserPassword currentPassword newPassword (Some me) w
      = (Return (mkErrorResult (Some msg)), w')
    /\ table w' = table w.
Proof.
  intros Hno.
  assert (H : hoare (Some me) (fun w0 => w0 = w)
                (updateCurrentUserPassword currentPassword newPassword)
                (fun r w' => exists msg,
                     r = Return (mkErrorResult (Some msg))
                     /\ table w' = table w)).
  { unfold updateCurrentUserPassword.
    apply hoare_try with
      (R := fun r w' => table w' = table w
                        /\ forall a, r = Return a -> exists msg,
                               a = mkErrorResult (Some msg)).
    - apply hoare_bind with (R := fun r w' => same_data w w' /\ r = Return (Some me)).
      + apply hoare_getSession. intros w0 w1 -> Hd. split; [exact Hd|reflexivity].
      + intros a. destruct a as [me'|].
        2:{ apply hoare_ret. intros w0 [Hd _]. split; [apply Hd|].
            intros a [= <-]. eauto. }
        apply hoare_bind with
          (R := fun r w' => same_data w w'
                            /\ forall rows, r = Return rows ->
                                 Some me' = Some me
                                 /\ rows = filter (has_id (User.id me)) (table w)).
        * apply hoare_sql.
          -- intros w0 w1 [Hd Hme] Hd1. unfold select_where. cbn [fst snd].
             pose proof (same_data_trans _ _ _ Hd Hd1) as Hd2.
             split; [exact Hd2|]. intros rows [= <-].
             split; [congruence|]. injection Hme as ->.
             now rewrite (proj1 Hd2).
          -- intros w0 w1 [Hd _] Hd1.
             split; [exact (same_data_trans _ _ _ Hd Hd1)|]. intros rows [=].
        * intros rows. destruct rows as [|row rest].
          { apply hoare_ret. intros w0 [Hd _]. split; [apply Hd|].
            intros a [= <-]. eauto. }
          destruct (String.eqb (User.password_hash row)
                               (hashPassword currentPassword)) eqn:Eh; cbn [negb].
          2:{ apply hoare_ret. intros w0 [Hd _]. split; [apply Hd|].
              intros a [= <-]. eauto. }
          intros w0 [Hd Hrows]. exfalso.
          destruct (Hrows _ eq_refl) as [_ Hr].
          apply Hno. apply stored_digest_rows. exists row, rest.
          split; [now symmetry|now apply String.eqb_eq].
        * intros e w0 [Hd _]. split; [apply Hd|]. intros a [=].
      + intros e w0 [_ [=]].
    - intros a w0 [Ht Ha]. destruct (Ha a eq_refl) as [msg ->]. eauto.
    - intros e. apply hoare_ret. intros w0 [Ht _]. eauto. }
  specialize (H w eq_refl). destruct H as (msg & Hr & Ht).
  exists msg, (snd (updateCurrentUserPassword currentPassword newPassword (Some me) w)).
  split; [|exact Ht].
  rewrite <- Hr. apply surjective_pairing.
Qed.


Lemma password_right (currentPassword newPassword : string) (me : User)
    (w : World) :
  faults w = [] ->
  stored_digest me (table w) = Some (hashPassword currentPassword) ->
  exists w',
    updateCurrentUserPassword currentPassword newPassword (Some me) w
      = (Return (mkErrorResult None), w')
    /\ table w' = with_new_digest me (hashPassword newPassword) (table w).
Proof.
  intros Hf Hyes. apply stored_digest_rows in Hyes.
  destruct Hyes as (row & rest & E & Hh).
  rewrite password_session. unfold try_catch, bind.
  rewrite sql_up by exact Hf.
  unfold select_where. cbn [table log]. rewrite E.
  rewrite Hh, String.eqb_refl. cbn [negb].
  rewrite sql_up by exact Hf.
  eexists. split; reflexivity.
Qed.

Lemma insert_row_result (row : string -> Z -> User) (w : World)
    (rows : list User) :
  fst (insert_row row w) = Return rows ->
  exists i ts, rows = [row i ts]
               /\ table (snd (insert_row row w)) = table w ++ [row i ts]
               /\ existsb (fun u => String.eqb (User.id u) i) (table w) = false.
Proof.
  unfold insert_row. destruct (supply w) as [|[i ts] rest]; [intros [=]|].
  destruct (existsb (fun u => String.eqb (User.id u) i) (table w)) eqn:E;
    [intros [=]|].
  cbn [fst snd]. intros [= <-]. exists i, ts. repeat split. exact E.
Qed.

Lemma createUser_digest (data : NewUser.t) (s : Session) (w w' : World)
    (u : User) (e : option string) :
  createUser data s w = (Return (mkUserResult (Some u) e), w') ->
  User.password_hash u = hashPassword (NewUser.password data)
  /\ User.email u = NewUser.email data.
Proof.
  intros Hrun.
  assert (H : hoare s (fun _ => True) (createUser data)
                (fun r _ => forall u e, r = Return (mkUserResult (Some u) e) ->
                   User.password_hash u = hashPassword (NewUser.password data)
                   /\ User.email u = NewUser.email data)).
  { unfold createUser.
    apply hoare_try with
      (R := fun r _ => forall u e, r = Return (mkUserResult (Some u) e) ->
                   User.password_hash u = hashPassword (NewUser.password data)
                   /\ User.email u = NewUser.email data).
    - apply hoare_bind with (R := fun _ _ => True).
      + apply hoare_requireRole. intros; destruct (is_admin s); exact I.
      + intros _. apply hoare_bind with (R := fun _ _ => True).
        * apply hoare_sql; intros; exact I.
        * intros rows. destruct (0 <? List.length rows)%nat.
          { apply hoare_ret. intros _ _ u0 e0 [=]. }
          apply hoare_bind with
            (R := fun r _ => forall rows, r = Return rows ->
                      exists i ts, rows = [new_row data
                                    (hashPassword (NewUser.password data)) i ts]).
          -- apply hoare_sql.
             ++ intros w0 w1 _ _ rows' Hr.
                destruct (insert_row_result _ _ _ Hr) as (i & ts & -> & _).
                eauto.
             ++ intros w0 w1 _ _ rows' [=].
          -- intros rows'. apply hoare_ret. intros w0 Hrows u0 e0 [= Hu _].
             destruct (Hrows rows' eq_refl) as (i & ts & ->).
             cbn in Hu. injection Hu as <-. split; reflexivity.
          -- intros e0 w0 _ u0 e1 [=].
        * intros e0 w0 _ u0 e1 [=].
      + intros e0 w0 _ u0 e1 [=].
    - intros a w0 Ha. exact Ha.
    - intros e0. apply hoare_ret. intros w0 _ u0 e1 [=]. }
  specialize (H w I u e). rewrite Hrun in H. apply H. reflexivity.
Qed.


(** C6. For a caller with a session, [updateCurrentUserPassword] writes
    the digest of the new password and returns [{ error: null }] exactly
    when the digest of the supplied current password is the stored one:
    with any other stored digest, or none, it returns an error and leaves
    the table as it was; it returns [{ error: null }] only if the digests
    are equal; and when they are equal and the database answers it does
    succeed and the rows of that user carry the new digest.  A user made
    by [createUser] is stored with [hashPassword] of the given password,
    the function the verification applies. *)
Theorem password_change_requires_stored_digest
    (currentPassword newPassword : string) (me : User) (w : World) :
  (stored_digest me (table w) <> Some (hashPassword currentPassword) ->
   exists msg w',
     updateCurrentUserPassword currentPassword newPassword (Some me) w
       = (Return (mkErrorResult (Some msg)), w')
     /\ table w' = table w)
  /\ (forall w',
        updateCurrentUserPassword currentPassword newPassword (Some me) w
          = (Return (mkErrorResult None), w') ->
        stored_digest me (table w) = Some (hashPassword currentPassword))
  /\ (faults w = [] ->
      stored_digest me (table w) = Some (hashPassword currentPassword) ->
      exists w',
        updateCurrentUserPassword currentPassword newPassword (Some me) w
          = (Return (mkErrorResult None), w')
        /\ table w' = with_new_digest me (hashPassword newPassword) (table w))
  /\ (forall data s0 w0 w0' u,
        createUser data s0 w0 = (Return (mkUserResult (Some u) None), w0') ->
        User.password_hash u = hashPassword (NewUser.password data)).
Proof.
  split; [apply password_wrong|].
  split.
  - intros w' Hok.
    destruct (option_eq_dec_string (stored_digest me (table w))
                (Some (hashPassword currentPassword))) as [Heq|Hne];
      [exact Heq|].
    destruct (password_wrong currentPassword newPassword me w Hne)
      as (msg & w2 & H2 & _).
    rewrite H2 in Hok. discriminate.
  - split; [apply password_right|].
    intros data s0 w0 w0' u H. exact (proj1 (createUser_digest _ _ _ _ _ _ H)).
Qed.

Lemma password_change_requires_stored_digest_witness :
  (faults (fresh [alice; root]) = []
   /\ stored_digest alice (table (fresh [alice; root]))
      = Some (hashPassword "secret"))
  /\ exists w',
       updateCurrentUserPassword "secret" "renewed" (Some alice)
                                 (fresh [alice; root])
         = (Return (mkErrorResult None), w')
       /\ table w'
          = with_new_digest alice (hashPassword "renewed")
                            (table (fresh [alice; root])).
Proof.
  split; [split; vm_compute; reflexivity|].
  destruct (password_change_requires_stored_digest
              "secret" "renewed" alice (fresh [alice; root]))
    as (_ & _ & H & _).
  apply H; vm_compute; reflexivity.
Defined.

(** ** Patterns and partial matches *)

Lemma like_percent_unfold (q s : string) :
  like (String percent q) s
  = like q s
    || match s with
       | EmptyString => false
       | String _ s' => like (String percent q) s'
       end.
Proof. destruct s; reflexivity. Qed.


Lemma like_percent_only (s : string) : like (String percent EmptyString) s = true.
Proof.
  induction s as [|d s IH]; [reflexivity|].
  rewrite like_percent_unfold. rewrite IH. apply orb_true_r.
Qed.




Lemma prefix_split (p s : string) :
  String.prefix p s = true <-> exists c, s = (p ++ c)%string.
Proof.
  revert s. induction p as [|a p IH]; intros s.
  - destruct s; cbn; split; eauto.
  - destruct s as [|b s]; cbn [String.prefix append].
    + split; [discriminate|]. intros [c [=]].
    + destruct (ascii_dec a b) as [->|Hne].
      * rewrite IH. split.
        -- intros [c ->]. now exists c.
        -- intros [c [= ->]]. now exists c.
      * split; [discriminate|]. intros [c [= Hab _]]. now elim Hne.
Qed.

Lemma contains_split (p s : string) :
  contains p s = true <-> exists a c, s = (a ++ p ++ c)%string.
Proof.
  induction s as [|d s IH]; cbn [contains].
  - rewrite orb_false_r, prefix_split. split.
    + intros [c ->]. exists EmptyString, c. reflexivity.
    + intros (a & c & H). destruct a as [|x a]; [|discriminate].
      cbn in H. now exists c.
  - rewrite orb_true_iff, prefix_split, IH. split.
    + intros [[c ->]|(a & c & ->)].
      * exists EmptyString, c. reflexivity.
      * exists (String d a), c. reflexivity.
    + intros (a & c & H). destruct a as [|x a].
      * left. exists c. exact H.
      * right. cbn in H. injection H as _ ->. now exists a, c.
Qed.



Lemma contains_empty (s : string) : contains EmptyString s = true.
Proof. destruct s; reflexivity. Qed.

(** *** Letter case, character by character *)














(** ** The listing of [user-actions.ts] for an admin *)

Lemma getUsers_interpolated_admin (raw : RawEngine) (role : option UserRole)
    (search : option string) (s : Session) (w : World) :
  is_admin s = true ->
  faults w = [] ->
  UserActions.breaks_literal search = false ->
  UserActions.getUsers raw role search s w
  = (Return (order_by_created_at_desc
               (filter (listing_filter role (Part001.getUsers_pattern search))
                       (table w))),
     log (EvSql (mkStmt (UserActions.getUsers_query role search) []))
         (log EvSession w)).
Proof.
  intros Hs Hf Hb. unfold UserActions.getUsers.
  rewrite gate_open by exact Hs.
  unfold bind. rewrite sql_up by exact Hf. rewrite Hb. reflexivity.
Qed.

(** ** C7 *)




(** The search of the specification's example: upper-case text finds the
    lower-case name. *)
Example search_is_case_insensitive :
  fst (Part001.getUsers None (Some "ALICE") (Some root)
                        (fresh [alice; root; ghost]))
    = Return [alice]
  /\ fst (UserActions.getUsers no_engine None (Some "ALICE") (Some root)
                               (fresh [alice; root; ghost]))
    = Return [alice]
  /\ order_by_created_at_desc
       (filter (claimed_filter None (Some "ALICE"))
               (table (fresh [alice; root; ghost])))
     = [alice].
Proof. repeat split; vm_compute; reflexivity. Qed.


(** ** The texts an operation can send *)

Lemma emits_ret {A} (a : A) (T : list string) : emits (ret a) T.
Proof.
  intros s w. exists [], 0. cbn. now rewrite app_nil_r.
Qed.

Lemma exactly_ret {A} (a : A) : emits_exactly (ret a) [].
Proof. intros s w. exists []. cbn. now rewrite app_nil_r. Qed.

Lemma exactly_getSession : emits_exactly getSession [].
Proof. intros s w. exists [EvSession]. split; reflexivity. Qed.

Lemma exactly_requireRole : emits_exactly (requireRole [admin]) [].
Proof.
  intros s w. exists [EvSession]. split; [|reflexivity].
  destruct (is_admin s) eqn:E.
  - now rewrite requireRole_admin.
  - now rewrite requireRole_other.
Qed.

Lemma exactly_sql {A} (text : string) (params : list Param)
    (body : World -> Outcome A * World) :
  keeps_trace body -> emits_exactly (sql text params body) [text].
Proof.
  intros Hb s w. exists [EvSql (mkStmt text params)]. split; [|reflexivity].
  unfold sql. cbn [faults log].
  destruct (faults w) as [|[|] rest]; [| reflexivity |]; now rewrite Hb.
Qed.

Lemma emits_of_exactly {A} (m : M A) (T : list string) :
  emits_exactly m T -> emits m T.
Proof.
  intros H s w. destruct (H s w) as (evs & Ht & Hs).
  exists evs, (List.length T). split; [exact Ht|].
  now rewrite firstn_all.
Qed.

Lemma emits_bind {A B} (m : M A) (k : A -> M B) (T1 T2 : list string) :
  emits_exactly m T1 ->
  (forall a, emits (k a) T2) ->
  emits (bind m k) (T1 ++ T2).
Proof.
  intros Hm Hk s w. unfold bind.
  destruct (Hm s w) as (evs & Ht & Hs).
  destruct (m s w) as [[a|e] w1]; cbn [snd] in *.
  - destruct (Hk a s w1) as (evs2 & n & Ht2 & Hs2).
    exists (evs ++ evs2), (List.length T1 + n). split.
    + rewrite Ht2, Ht. now rewrite app_assoc.
    + rewrite sql_texts_app, Hs, Hs2. now rewrite firstn_app_2.
  - exists evs, (List.length T1). split; [exact Ht|].
    rewrite Hs. rewrite firstn_app, Nat.sub_diag, firstn_all.
    cbn. now rewrite app_nil_r.
Qed.

Lemma emits_try {A} (m h : M A) (T : list string) :
  emits m T -> emits_exactly h [] -> emits (try_catch m h) T.
Proof.
  intros Hm Hh s w. unfold try_catch.
  destruct (Hm s w) as (evs & n & Ht & Hs).
  destruct (m s w) as [[a|e] w1]; cbn [snd] in *.
  - exists evs, n. split; assumption.
  - destruct (Hh s w1) as (evs2 & Ht2 & Hs2).
    exists (evs ++ evs2), n. split.
    + rewrite Ht2, Ht. now rewrite app_assoc.
    + rewrite sql_texts_app, Hs, Hs2. apply app_nil_r.
Qed.

Lemma emits_gated {A} (k : unit -> M A) (T : list string) :
  (forall a, emits (k a) T) -> emits (bind (requireRole [admin]) k) T.
Proof.
  intros H. apply (emits_bind (requireRole [admin]) k [] T).
  - apply exactly_requireRole.
  - exact H.
Qed.

Lemma emits_one {A B} (text : string) (params : list Param)
    (body : World -> Outcome A * World) (k : A -> M B) (T : list string) :
  keeps_trace body ->
  (forall a, emits (k a) T) ->
  emits (bind (sql text params body) k) (text :: T).
Proof.
  intros Hb Hk. apply (emits_bind (sql text params body) k [text] T).
  - apply exactly_sql, Hb.
  - exact Hk.
Qed.

Lemma keeps_select (p : User -> bool) : keeps_trace (select_where p).
Proof. intros w. reflexivity. Qed.

Lemma keeps_update (p : User -> bool) (f : User -> User) :
  keeps_trace (update_where p f).
Proof. intros w. reflexivity. Qed.

Lemma keeps_delete (p : User -> bool) : keeps_trace (delete_where p).
Proof. intros w. reflexivity. Qed.

Lemma keeps_insert (row : string -> Z -> User) : keeps_trace (insert_row row).
Proof.
  intros w. unfold insert_row. destruct (supply w) as [|[i ts] rest];
    [reflexivity|].
  destruct (existsb (fun u => String.eqb (User.id u) i) (table w)); reflexivity.
Qed.

Lemma keeps_listing (role : option UserRole) (pattern : option string) :
  keeps_trace (select_listing role pattern).
Proof. intros w. reflexivity. Qed.

#[local] Hint Resolve keeps_select keeps_update keeps_delete keeps_insert
  keeps_listing : actions.

Lemma texts_sent_emits {A} (m : M A) (T : list string) (s : Session) (w : World) :
  emits m T -> exists k, texts_sent m s w = firstn k T.
Proof.
  intros H. destruct (H s w) as (evs & k & Ht & Hs).
  exists k. unfold texts_sent, events_since. rewrite Ht.
  rewrite skipn_app, Nat.sub_diag, skipn_all. cbn. exact Hs.
Qed.

Lemma nth_error_firstn_some {A} (k n : nat) (l : list A) (x : A) :
  nth_error (firstn k l) n = Some x -> nth_error l n = Some x.
Proof.
  revert n l. induction k as [|k IH]; intros n l; cbn.
  - destruct n; discriminate.
  - destruct l as [|a l]; [destruct n; discriminate|].
    destruct n as [|n]; cbn; [trivial|apply IH].
Qed.

Lemma emits_agree {A B} (m1 : M A) (m2 : M B) (T : list string)
    (s1 s2 : Session) (w1 w2 : World) :
  emits m1 T -> emits m2 T ->
  agree (texts_sent m1 s1 w1) (texts_sent m2 s2 w2).
Proof.
  intros H1 H2.
  destruct (texts_sent_emits m1 T s1 w1 H1) as [k1 ->].
  destruct (texts_sent_emits m2 T s2 w2 H2) as [k2 ->].
  intros n t1 t2 E1 E2.
  apply nth_error_firstn_some in E1. apply nth_error_firstn_some in E2.
  congruence.
Qed.

(** ** The texts of each operation *)

Lemma update_text_length (updates : list string) (v v' : list Param) :
  List.length v = List.length v' -> update_text updates v = update_text updates v'.
Proof. unfold update_text. intros ->. reflexivity. Qed.

Lemma emits_getUserById (id : string) : emits (getUserById id) byid_texts.
Proof.
  unfold getUserById, byid_texts. apply emits_one; [auto with actions|].
  intros a. apply emits_ret.
Qed.

Lemma emits_createUser (data : NewUser.t) : emits (createUser data) create_texts.
Proof.
  unfold createUser, create_texts.
  apply emits_try; [|apply exactly_ret].
  apply emits_gated. intros _.
  apply emits_one; [auto with actions|]. intros rows.
  destruct (0 <? List.length rows)%nat; [apply emits_ret|].
  apply emits_one; [auto with actions|]. intros a. apply emits_ret.
Qed.

Lemma emits_updateUser (id : string) (data : list Entry) :
  emits (updateUser id data) (update_texts (defined_keys data)).
Proof.
  unfold updateUser, update_texts.
  apply emits_try; [|apply exactly_ret].
  apply emits_gated. intros _.
  pose proof (collect_updates data) as Hu.
  pose proof (collect_values_length data) as Hv.
  destruct (collect data) as [updates values]. cbn [fst snd] in Hu, Hv.
  destruct (List.length updates =? 0)%nat; [apply emits_ret|].
  rewrite (update_text_length updates (values ++ [Some id])
             (repeat None (S (List.length (defined_keys data))))).
  - rewrite Hu. apply emits_one; [auto with actions|].
    intros a. apply emits_ret.
  - rewrite length_app, repeat_length, Hv. cbn. lia.
Qed.

Lemma emits_updateUserRole (id : string) (role : UserRole) :
  emits (updateUserRole id role) ["UPDATE users SET role = $1 WHERE id = $2"].
Proof.
  unfold updateUserRole.
  apply emits_try; [|apply exactly_ret].
  apply emits_gated. intros _.
  apply emits_one; [auto with actions|]. intros a. apply emits_ret.
Qed.

Lemma emits_updateUserStatus (id : string) (status : UserStatus) :
  emits (updateUserStatus id status)
        ["UPDATE users SET status = $1 WHERE id = $2"].
Proof.
  unfold updateUserStatus.
  apply emits_try; [|apply exactly_ret].
  apply emits_gated. intros _.
  apply emits_one; [auto with actions|]. intros a. apply emits_ret.
Qed.

Lemma emits_hard_delete (id : string) :
  emits (UserActions.deleteUser id) ["DELETE FROM users WHERE id = $1"].
Proof.
  unfold UserActions.deleteUser.
  apply emits_try; [|apply exactly_ret].
  apply emits_gated. intros _.
  apply emits_one; [auto with actions|]. intros a. apply emits_ret.
Qed.

Lemma emits_soft_delete (id : string) :
  emits (Part001.deleteUser id)
        ["UPDATE users SET status = 'inactive' WHERE id = $1"].
Proof.
  unfold Part001.deleteUser.
  apply emits_try; [|apply exactly_ret].
  apply emits_gated. intros _.
  apply emits_one; [auto with actions|]. intros a. apply emits_ret.
Qed.

Lemma listing_conditions (role : option UserRole) (search : option string) :
  fst (Part001.getUsers_parts role search)
  = fst (Part001.getUsers_parts
           (if is_some role then Some student else None)
           (if truthy search then Some "x" else None)).
Proof. destruct role, search as [[|c v]|]; reflexivity. Qed.

Lemma emits_getUsers (role : option UserRole) (search : option string) :
  emits (Part001.getUsers role search)
        (listing_texts (is_some role) (truthy search)).
Proof.
  unfold Part001.getUsers, listing_texts.
  apply emits_gated. intros _.
  rewrite <- (listing_conditions role search).
  destruct (Part001.getUsers_parts role search) as [conditions values].
  cbn [fst]. apply emits_one; [auto with actions|].
  intros a. apply emits_ret.
Qed.

Lemma emits_profile_write (me : User) (data : ProfileData.t)
    (updates : list string) (values : list Param) :
  emits (profile_write me data updates values)
        [update_text updates (values ++ [Some (User.id me)])].
Proof.
  unfold profile_write. destruct (List.length updates =? 0)%nat;
    [apply emits_ret|].
  apply emits_one; [auto with actions|]. intros a. apply emits_ret.
Qed.

Lemma emits_updateCurrentUserProfile (data : ProfileData.t) :
  emits (updateCurrentUserProfile data)
        (profile_texts (truthy (ProfileData.full_name data))
                       (truthy (ProfileData.email data))).
Proof.
  unfold updateCurrentUserProfile.
  apply emits_try; [|apply exactly_ret].
  apply (emits_bind getSession _ [] _); [apply exactly_getSession|].
  intros [me|]; [|apply emits_ret].
  destruct (truthy (ProfileData.full_name data)),
    (truthy (ProfileData.email data)); cbn [profile_texts].
  - apply emits_one; [auto with actions|]. intros rows.
    destruct (0 <? List.length rows)%nat; [apply emits_ret|].
    apply emits_profile_write.
  - apply emits_profile_write.
  - apply emits_one; [auto with actions|]. intros rows.
    destruct (0 <? List.length rows)%nat; [apply emits_ret|].
    apply emits_profile_write.
  - apply emits_ret.
Qed.

Lemma emits_updateCurrentUserPassword (c n : string) :
  emits (updateCurrentUserPassword c n) password_texts.
Proof.
  unfold updateCurrentUserPassword, password_texts.
  apply emits_try; [|apply exactly_ret].
  apply (emits_bind getSession _ [] _); [apply exactly_getSession|].
  intros [me|]; [|apply emits_ret].
  apply emits_one; [auto with actions|]. intros rows.
  destruct rows as [|row rest]; [apply emits_ret|].
  destruct (negb (String.eqb (User.password_hash row) (hashPassword c)));
    [apply emits_ret|].
  apply emits_one; [auto with actions|]. intros a. apply emits_ret.
Qed.

(** ** C3 *)

(** Everywhere but in the [getUsers] of [user-actions.ts], the SQL texts
    depend on the caller's input only through which optional inputs are
    present: whether a role and a non-empty search are given to
    [getUsers], which properties of the [updateUser] argument hold a
    value, and whether [updateCurrentUserProfile] is given a non-empty
    name and a non-empty email.  Two runs that agree on that send the same
    text at every position both reach, whatever the values, the sessions
    and the database; the values travel in the parameter lists. *)
Theorem bound_texts_ignore_values :
  (forall role1 role2 search1 search2,
      is_some role1 = is_some role2 ->
      truthy search1 = truthy search2 ->
      same_texts (Part001.getUsers role1 search1)
                 (Part001.getUsers role2 search2))
  /\ (forall id1 id2, same_texts (getUserById id1) (getUserById id2))
  /\ (forall data1 data2, same_texts (createUser data1) (createUser data2))
  /\ (forall id1 id2 data1 data2,
        defined_keys data1 = defined_keys data2 ->
        same_texts (updateUser id1 data1) (updateUser id2 data2))
  /\ (forall id1 id2 role1 role2,
        same_texts (updateUserRole id1 role1) (updateUserRole id2 role2))
  /\ (forall id1 id2 status1 status2,
        same_texts (updateUserStatus id1 status1)
                   (updateUserStatus id2 status2))
  /\ (forall id1 id2,
        same_texts (UserActions.deleteUser id1) (UserActions.deleteUser id2))
  /\ (forall id1 id2,
        same_texts (Part001.deleteUser id1) (Part001.deleteUser id2))
  /\ (forall data1 data2,
        truthy (ProfileData.full_name data1) = truthy (ProfileData.full_name data2) ->
        truthy (ProfileData.email data1) = truthy (ProfileData.email data2) ->
        same_texts (updateCurrentUserProfile data1)
                   (updateCurrentUserProfile data2))
  /\ (forall c1 n1 c2 n2,
        same_texts (updateCurrentUserPassword c1 n1)
                   (updateCurrentUserPassword c2 n2)).
Proof.
  repeat split.
  - intros role1 role2 search1 search2 Hr Hq s1 s2 w1 w2.
    apply (emits_agree _ _ (listing_texts (is_some role1) (truthy search1))).
    + apply emits_getUsers.
    + rewrite Hr, Hq. apply emits_getUsers.
  - intros id1 id2 s1 s2 w1 w2.
    apply (emits_agree _ _ byid_texts); apply emits_getUserById.
  - intros d1 d2 s1 s2 w1 w2.
    apply (emits_agree _ _ create_texts); apply emits_createUser.
  - intros id1 id2 d1 d2 Hk s1 s2 w1 w2.
    apply (emits_agree _ _ (update_texts (defined_keys d1))).
    + apply emits_updateUser.
    + rewrite Hk. apply emits_updateUser.
  - intros id1 id2 r1 r2 s1 s2 w1 w2.
    eapply emits_agree; apply emits_updateUserRole.
  - intros id1 id2 st1 st2 s1 s2 w1 w2.
    eapply emits_agree; apply emits_updateUserStatus.
  - intros id1 id2 s1 s2 w1 w2.
    eapply emits_agree; apply emits_hard_delete.
  - intros id1 id2 s1 s2 w1 w2.
    eapply emits_agree; apply emits_soft_delete.
  - intros d1 d2 Hn He s1 s2 w1 w2.
    apply (emits_agree _ _ (profile_texts (truthy (ProfileData.full_name d1))
                                          (truthy (ProfileData.email d1)))).
    + apply emits_updateCurrentUserProfile.
    + rewrite Hn, He. apply emits_updateCurrentUserProfile.
  - intros c1 n1 c2 n2 s1 s2 w1 w2.
    eapply emits_agree; apply emits_updateCurrentUserPassword.
Qed.

(** The listing of [part_001] sends the role and the pattern as
    parameters: one text for two searches. *)
Example bound_listing_sends_values_as_parameters :
  statements (events_since (fresh [alice; root])
                (snd (Part001.getUsers (Some admin) (Some "o'brien")
                                       (Some root) (fresh [alice; root]))))
  = [mkStmt "SELECT * FROM users WHERE status != 'inactive' AND role = $1 AND (LOWER(full_name) LIKE $2 OR LOWER(email) LIKE $3 OR LOWER(university_id) LIKE $4) ORDER BY created_at DESC"
            [Some "admin"; Some "%o'brien%"; Some "%o'brien%"; Some "%o'brien%"]]
  /\ texts_sent (Part001.getUsers (Some student) (Some "alice"))
                (Some root) (fresh [alice; root])
     = texts_sent (Part001.getUsers (Some admin) (Some "o'brien"))
                  (Some root) (fresh [alice; root]).
Proof. split; vm_compute; reflexivity. Qed.

(** C3. In [user-actions.ts], [getUsers] writes the lower-cased search
    into the text it sends: two runs by the same admin on the same
    database that differ only in the search text send different SQL
    texts, nothing is bound as a parameter, and a quote in the search
    ends the literal it was written into.  The text is not independent of
    the caller's input. *)
Theorem interpolated_listing_text_carries_the_search :
  statements (events_since (fresh [alice; root])
                (snd (UserActions.getUsers no_engine None (Some "a")
                                           (Some root) (fresh [alice; root]))))
    = [mkStmt "SELECT * FROM users WHERE status != 'inactive' AND (LOWER(full_name) LIKE '%a%' OR LOWER(email) LIKE '%a%' OR LOWER(university_id) LIKE '%a%') ORDER BY created_at DESC" []]
  /\ statements (events_since (fresh [alice; root])
                   (snd (UserActions.getUsers no_engine None (Some "b")
                                              (Some root) (fresh [alice; root]))))
    = [mkStmt "SELECT * FROM users WHERE status != 'inactive' AND (LOWER(full_name) LIKE '%b%' OR LOWER(email) LIKE '%b%' OR LOWER(university_id) LIKE '%b%') ORDER BY created_at DESC" []]
  /\ ~ agree
       (texts_sent (UserActions.getUsers no_engine None (Some "a"))
                   (Some root) (fresh [alice; root]))
       (texts_sent (UserActions.getUsers no_engine None (Some "b"))
                   (Some root) (fresh [alice; root]))
  /\ UserActions.getUsers_query None (Some "' OR 1=1 --")
    = "SELECT * FROM users WHERE status != 'inactive' AND (LOWER(full_name) LIKE '%' or 1=1 --%' OR LOWER(email) LIKE '%' or 1=1 --%' OR LOWER(university_id) LIKE '%' or 1=1 --%') ORDER BY created_at DESC".
Proof.
  split; [vm_compute; reflexivity|].
  split; [vm_compute; reflexivity|].
  split; [|vm_compute; reflexivity].
  intros H. specialize (H 0 _ _ eq_refl eq_refl). vm_compute in H.
  discriminate.
Qed.

(** ** C4 *)

(** C4 as stated fails twice: with no session, [createUser] does not let
    the Unauthorized error out but returns its generic failure message;
    and [getUserById], which has no handler, raises when the database
    fails. *)
Lemma gate_failure_is_returned_not_raised :
  fst (createUser demo None (fresh [alice; root]))
    = Return (mkUserResult None (Some "Failed to create user"))
  /\ fst (createUser demo None (fresh [alice; root])) <> Throw Unauthorized
  /\ fst (getUserById "1" (Some root) (mkWorld [alice; root] [] [true] []))
    = Throw DbError.
Proof.
  split; [reflexivity|]. split; [discriminate|reflexivity].
Qed.

(** *** Runs in which a statement fails *)

Lemma events_since_app (w w0 : World) (evs : list Event) :
  trace w0 = trace w ++ evs -> events_since w w0 = evs.
Proof.
  unfold events_since. intros ->.
  rewrite skipn_app, Nat.sub_diag, skipn_all. reflexivity.
Qed.

Lemma on_track_clean (w w' : World) :
  on_track w w' -> statement_failed w w' = false.
Proof.
  intros (evs & Ht & _ & Hno). unfold statement_failed.
  rewrite (events_since_app w w' evs Ht). exact Hno.
Qed.

Lemma on_track_refl (w : World) : on_track w w.
Proof.
  exists []. split; [now rewrite app_nil_r|]. split; reflexivity.
Qed.

Lemma on_track_same (w w0 w1 : World) :
  trace w1 = trace w0 -> faults w1 = faults w0 ->
  on_track w w0 -> on_track w w1.
Proof.
  intros Ht Hf (evs & H1 & H2 & H3). exists evs.
  split; [congruence|]. split; [congruence|exact H3].
Qed.

Lemma on_track_session (w w0 : World) :
  on_track w w0 -> on_track w (log EvSession w0).
Proof.
  intros (evs & H1 & H2 & H3). exists (evs ++ [EvSession]).
  rewrite statements_app. cbn [statements]. rewrite app_nil_r.
  split; [cbn [log trace]; rewrite H1; symmetry; apply app_assoc|].
  split; [exact H2|exact H3].
Qed.

Lemma tl_skipn {A} (n : nat) (l : list A) : tl (skipn n l) = skipn (S n) l.
Proof.
  revert l. induction n as [|n IH]; intros [|x l]; try reflexivity.
  cbn [skipn]. rewrite IH. reflexivity.
Qed.

Lemma existsb_firstn_S (n : nat) (l : list bool) :
  existsb (fun b : bool => b) (firstn (S n) l)
  = existsb (fun b : bool => b) (firstn n l) || hd false (skipn n l).
Proof.
  revert l. induction n as [|n IH]; intros [|x l]; try reflexivity.
  - cbn. now rewrite orb_false_r.
  - change (firstn (S (S n)) (x :: l)) with (x :: firstn (S n) l).
    change (firstn (S n) (x :: l)) with (x :: firstn n l).
    cbn [existsb skipn]. rewrite IH. now rewrite orb_assoc.
Qed.

Lemma on_track_statement (w w0 : World) (q : Stmt) :
  on_track w w0 ->
  hd false (faults w0) = false ->
  on_track w (with_faults (tl (faults w0)) (log (EvSql q) w0)).
Proof.
  intros (evs & H1 & H2 & H3) Hhd. exists (evs ++ [EvSql q]).
  rewrite statements_app, length_app. cbn [statements List.length].
  rewrite Nat.add_1_r.
  split; [cbn [with_faults log trace]; rewrite H1; symmetry; apply app_assoc|].
  split.
  - cbn [with_faults faults]. rewrite H2. apply tl_skipn.
  - rewrite existsb_firstn_S, H3, <- H2, Hhd. reflexivity.
Qed.

Section Tracked.
Variable s : Session.
Variable w : World.

Lemma tracked_sql {A} (text : string) (params : list Param)
    (body : World -> Outcome A * World) (Q : Outcome A -> World -> Prop) :
  (forall w1, going w w1 -> Q (fst (body w1)) (snd (body w1))) ->
  (forall w1, table w1 = table w -> Q (Throw DbError) w1) ->
  hoare s (going w) (sql text params body) Q.
Proof.
  intros Hrun Hfail w0 [Hon Ht]. unfold sql. cbn [faults log].
  pose proof (on_track_statement w w0 (mkStmt text params) Hon) as Hnext.
  destruct (faults w0) as [|[|] rest] eqn:Hf; cbn [fst snd].
  - assert (E : log (EvSql (mkStmt text params)) w0
                = with_faults (tl []) (log (EvSql (mkStmt text params)) w0)).
    { destruct w0 as [t0 s0 f0 tr0]. cbn in Hf. subst f0. reflexivity. }
    rewrite E. apply Hrun. split; [apply Hnext; reflexivity|exact Ht].
  - apply Hfail. exact Ht.
  - apply Hrun. split; [apply Hnext; reflexivity|exact Ht].
Qed.

Lemma tracked_requireRole :
  hoare s (going w) (requireRole [admin]) (going_or_stopped w).
Proof.
  intros w0 [Hon Ht]. destruct (is_admin s) eqn:E.
  - rewrite requireRole_admin by exact E. cbn.
    split; [apply on_track_session, Hon|exact Ht].
  - rewrite requireRole_other by exact E. exact Ht.
Qed.

Lemma tracked_getSession :
  hoare s (going w) getSession (going_or_stopped w).
Proof.
  intros w0 [Hon Ht]. cbn. split; [apply on_track_session, Hon|exact Ht].
Qed.

Lemma tracked_select (text : string) (params : list Param)
    (p : User -> bool) :
  hoare s (going w) (sql text params (select_where p)) (going_or_stopped w).
Proof.
  apply tracked_sql; [|intros w1 Ht; exact Ht].
  intros w1 Hgo. exact Hgo.
Qed.

Lemma tracked_update (text : string) (params : list Param)
    (p : User -> bool) (f : User -> User) :
  hoare s (going w) (sql text params (update_where p f)) (done_or_stopped w).
Proof.
  apply tracked_sql; [|intros w1 Ht; exact Ht].
  intros w1 [Hon _]. cbn. exact (on_track_same w w1 _ eq_refl eq_refl Hon).
Qed.

Lemma tracked_delete (text : string) (params : list Param)
    (p : User -> bool) :
  hoare s (going w) (sql text params (delete_where p)) (done_or_stopped w).
Proof.
  apply tracked_sql; [|intros w1 Ht; exact Ht].
  intros w1 [Hon _]. cbn. exact (on_track_same w w1 _ eq_refl eq_refl Hon).
Qed.

Lemma tracked_insert (text : string) (params : list Param)
    (row : string -> Z -> User) :
  hoare s (going w) (sql text params (insert_row row)) (done_or_stopped w).
Proof.
  apply tracked_sql; [|intros w1 Ht; exact Ht].
  intros w1 [Hon Ht]. unfold insert_row.
  destruct (supply w1) as [|[i ts] rest]; [exact Ht|].
  destruct (existsb (fun u => String.eqb (User.id u) i) (table w1)); cbn;
    [exact Ht|].
  exact (on_track_same w w1 _ eq_refl eq_refl Hon).
Qed.

(** A write followed by the [return] of the result. *)
Lemma tracked_then_ret {A B} (m : M A) (k : A -> B) :
  hoare s (going w) m (done_or_stopped w) ->
  hoare s (going w) (bind m (fun a => ret (k a))) (done_or_stopped w).
Proof.
  intros Hm. apply hoare_bind with (R := done_or_stopped w); [exact Hm| |].
  - intros a. apply hoare_ret. intros w1 H. exact H.
  - intros e w1 H. exact H.
Qed.

(** A [return] before any write. *)
Lemma tracked_ret {A} (a : A) :
  hoare s (going w) (ret a) (done_or_stopped w).
Proof. apply hoare_ret. intros w1 [Hon _]. exact Hon. Qed.

(** A step that goes on, then the rest of the run. *)
Lemma tracked_bind {A B} (m : M A) (k : A -> M B) :
  hoare s (going w) m (going_or_stopped w) ->
  (forall a, hoare s (going w) (k a) (done_or_stopped w)) ->
  hoare s (going w) (bind m k) (done_or_stopped w).
Proof.
  intros Hm Hk. apply hoare_bind with (R := going_or_stopped w); [exact Hm| |].
  - intros a. exact (Hk a).
  - intros e w1 H. exact H.
Qed.

(** What the handler of an operation makes of such a run: when a
    statement failed, the operation returns the handler's object and
    nothing was written. *)
Lemma caught_failure {A} (m : M A) (a : A) :
  hoare s (going w) m (done_or_stopped w) ->
  statement_failed w (snd (try_catch m (ret a) s w)) = true ->
  fst (try_catch m (ret a) s w) = Return a
  /\ table (snd (try_catch m (ret a) s w)) = table w.
Proof.
  intros Hm. specialize (Hm w (conj (on_track_refl w) eq_refl)).
  unfold try_catch, ret. destruct (m s w) as [[r|e] w']; cbn [fst snd] in *.
  - intros Hfail. rewrite (on_track_clean w w' Hm) in Hfail. discriminate.
  - intros _. split; [reflexivity|exact Hm].
Qed.
End Tracked.

Lemma tracked_createUser (data : NewUser.t) (s : Session) (w : World) :
  statement_failed w (snd (createUser data s w)) = true ->
  fst (createUser data s w)
    = Return (mkUserResult None (Some "Failed to create user"))
  /\ table (snd (createUser data s w)) = table w.
Proof.
  apply caught_failure.
  apply tracked_bind; [apply tracked_requireRole|]. intros _.
  apply tracked_bind; [apply tracked_select|]. intros rows.
  destruct (0 <? List.length rows)%nat; [apply tracked_ret|].
  apply tracked_then_ret with (k := fun result => mkUserResult (hd_error result) None).
  apply tracked_insert.
Qed.

Lemma tracked_updateUser (id : string) (data : list Entry) (s : Session)
    (w : World) :
  statement_failed w (snd (updateUser id data s w)) = true ->
  fst (updateUser id data s w)
    = Return (mkUserResult None (Some "Failed to update user"))
  /\ table (snd (updateUser id data s w)) = table w.
Proof.
  apply caught_failure.
  apply tracked_bind; [apply tracked_requireRole|]. intros _.
  destruct (collect data) as [updates values].
  destruct (List.length updates =? 0)%nat; [apply tracked_ret|].
  apply tracked_then_ret with (k := fun result => mkUserResult (hd_error result) None).
  apply tracked_update.
Qed.

Lemma tracked_updateUserRole (id : string) (role : UserRole) (s : Session)
    (w : World) :
  statement_failed w (snd (updateUserRole id role s w)) = true ->
  fst (updateUserRole id role s w)
    = Return (mkErrorResult (Some "Failed to update role"))
  /\ table (snd (updateUserRole id role s w)) = table w.
Proof.
  apply caught_failure.
  apply tracked_bind; [apply tracked_requireRole|]. intros _.
  apply tracked_then_ret with (k := fun _ => mkErrorResult None).
  apply tracked_update.
Qed.

Lemma tracked_updateUserStatus (id : string) (status : UserStatus)
    (s : Session) (w : World) :
  statement_failed w (snd (updateUserStatus id status s w)) = true ->
  fst (updateUserStatus id status s w)
    = Return (mkErrorResult (Some "Failed to update status"))
  /\ table (snd (updateUserStatus id status s w)) = table w.
Proof.
  apply caught_failure.
  apply tracked_bind; [apply tracked_requireRole|]. intros _.
  apply tracked_then_ret with (k := fun _ => mkErrorResult None).
  apply tracked_update.
Qed.

Lemma tracked_hard_delete (id : string) (s : Session) (w : World) :
  statement_failed w (snd (UserActions.deleteUser id s w)) = true ->
  fst (UserActions.deleteUser id s w)
    = Return (mkErrorResult (Some "Failed to delete user"))
  /\ table (snd (UserActions.deleteUser id s w)) = table w.
Proof.
  apply caught_failure.
  apply tracked_bind; [apply tracked_requireRole|]. intros _.
  apply tracked_then_ret with (k := fun _ => mkErrorResult None).
  apply tracked_delete.
Qed.

Lemma tracked_soft_delete (id : string) (s : Session) (w : World) :
  statement_failed w (snd (Part001.deleteUser id s w)) = true ->
  fst (Part001.deleteUser id s w)
    = Return (mkErrorResult (Some "Failed to delete user"))
  /\ table (snd (Part001.deleteUser id s w)) = table w.
Proof.
  apply caught_failure.
  apply tracked_bind; [apply tracked_requireRole|]. intros _.
  apply tracked_then_ret with (k := fun _ => mkErrorResult None).
  apply tracked_update.
Qed.

Lemma tracked_profile_write (me : User) (data : ProfileData.t)
    (updates : list string) (values : list Param) (s : Session) (w : World) :
  hoare s (going w) (profile_write me data updates values)
        (done_or_stopped w).
Proof.
  unfold profile_write.
  destruct (List.length updates =? 0)%nat; [apply tracked_ret|].
  apply tracked_then_ret with (k := fun result => mkUserResult (hd_error result) None).
  apply tracked_update.
Qed.

Lemma tracked_updateCurrentUserProfile (data : ProfileData.t) (s : Session)
    (w : World) :
  statement_failed w (snd (updateCurrentUserProfile data s w)) = true ->
  fst (updateCurrentUserProfile data s w)
    = Return (mkUserResult None (Some "Failed to update profile"))
  /\ table (snd (updateCurrentUserProfile data s w)) = table w.
Proof.
  apply caught_failure.
  apply tracked_bind; [apply tracked_getSession|]. intros [me|];
    [|apply tracked_ret].
  destruct (truthy (ProfileData.full_name data));
    (destruct (truthy (ProfileData.email data));
     [|apply tracked_profile_write]);
    (apply tracked_bind; [apply tracked_select|]; intros rows;
     destruct (0 <? List.length rows)%nat;
     [apply tracked_ret|apply tracked_profile_write]).
Qed.

Lemma tracked_updateCurrentUserPassword (currentPassword newPassword : string)
    (s : Session) (w : World) :
  statement_failed w
    (snd (updateCurrentUserPassword currentPassword newPassword s w)) = true ->
  fst (updateCurrentUserPassword currentPassword newPassword s w)
    = Return (mkErrorResult (Some "Failed to change password"))
  /\ table (snd (updateCurrentUserPassword currentPassword newPassword s w))
     = table w.
Proof.
  apply caught_failure.
  apply tracked_bind; [apply tracked_getSession|]. intros [me|];
    [|apply tracked_ret].
  apply tracked_bind; [apply tracked_select|]. intros [|row rest];
    [apply tracked_ret|].
  destruct (negb (String.eqb (User.password_hash row)
                             (hashPassword currentPassword)));
    [apply tracked_ret|].
  apply tracked_then_ret with (k := fun _ => mkErrorResult None).
  apply tracked_update.
Qed.

(** C4, as the code has it. The operations written inside a [try]
    ([createUser], [updateUser], [updateUserRole], [updateUserStatus],
    both [deleteUser], [updateCurrentUserProfile] and
    [updateCurrentUserPassword]) never raise: whatever the session and
    the database do, they return a result object; a failed role gate is
    among the failures they turn into their generic message.  Only
    [getUsers], whose role check stands outside any handler, lets
    Unauthorized out; and [getUsers], [getUserById] and [getUserStats]
    let a failure of the database out.  Whenever a statement that one of
    the eight operations sends fails, be it the first or the second, the
    operation returns exactly its own failure object, with the message
    "Failed to ...", and no row has been written. *)
Theorem failures_are_returned_where_a_handler_stands
    (s : Session) (w : World) (raw : RawEngine)
    (data : NewUser.t) (id : string) (entries : list Entry)
    (role : UserRole) (status : UserStatus) (profile : ProfileData.t)
    (currentPassword newPassword : string)
    (wanted : option UserRole) (search : option string) :
  ((exists r w', createUser data s w = (Return r, w'))
   /\ (exists r w', updateUser id entries s w = (Return r, w'))
   /\ (exists r w', updateUserRole id role s w = (Return r, w'))
   /\ (exists r w', updateUserStatus id status s w = (Return r, w'))
   /\ (exists r w', UserActions.deleteUser id s w = (Return r, w'))
   /\ (exists r w', Part001.deleteUser id s w = (Return r, w'))
   /\ (exists r w', updateCurrentUserProfile profile s w = (Return r, w'))
   /\ (exists r w',
         updateCurrentUserPassword currentPassword newPassword s w
           = (Return r, w')))
  /\ (is_admin s = false ->
      fst (createUser data s w)
        = Return (mkUserResult None (Some "Failed to create user"))
      /\ fst (updateUser id entries s w)
        = Return (mkUserResult None (Some "Failed to update user"))
      /\ fst (updateUserRole id role s w)
        = Return (mkErrorResult (Some "Failed to update role"))
      /\ fst (updateUserStatus id status s w)
        = Return (mkErrorResult (Some "Failed to update status"))
      /\ fst (UserActions.deleteUser id s w)
        = Return (mkErrorResult (Some "Failed to delete user"))
      /\ fst (Part001.deleteUser id s w)
        = Return (mkErrorResult (Some "Failed to delete user"))
      /\ fst (UserActions.getUsers raw wanted search s w) = Throw Unauthorized
      /\ fst (Part001.getUsers wanted search s w) = Throw Unauthorized)
  /\ (forall rest, faults w = true :: rest ->
      fst (getUserById id s w) = Throw DbError
      /\ fst (UserActions.getUserStats s w) = Throw DbError
      /\ fst (Part001.getUserStats s w) = Throw DbError
      /\ (is_admin s = true ->
          fst (UserActions.getUsers raw wanted search s w) = Throw DbError
          /\ fst (Part001.getUsers wanted search s w) = Throw DbError))
  /\ ((statement_failed w (snd (createUser data s w)) = true ->
       fst (createUser data s w)
         = Return (mkUserResult None (Some "Failed to create user"))
       /\ table (snd (createUser data s w)) = table w)
      /\ (statement_failed w (snd (updateUser id entries s w)) = true ->
          fst (updateUser id entries s w)
            = Return (mkUserResult None (Some "Failed to update user"))
          /\ table (snd (updateUser id entries s w)) = table w)
      /\ (statement_failed w (snd (updateUserRole id role s w)) = true ->
          fst (updateUserRole id role s w)
            = Return (mkErrorResult (Some "Failed to update role"))
          /\ table (snd (updateUserRole id role s w)) = table w)
      /\ (statement_failed w (snd (updateUserStatus id status s w)) = true ->
          fst (updateUserStatus id status s w)
            = Return (mkErrorResult (Some "Failed to update status"))
          /\ table (snd (updateUserStatus id status s w)) = table w)
      /\ (statement_failed w (snd (UserActions.deleteUser id s w)) = true ->
          fst (UserActions.deleteUser id s w)
            = Return (mkErrorResult (Some "Failed to delete user"))
          /\ table (snd (UserActions.deleteUser id s w)) = table w)
      /\ (statement_failed w (snd (Part001.deleteUser id s w)) = true ->
          fst (Part001.deleteUser id s w)
            = Return (mkErrorResult (Some "Failed to delete user"))
          /\ table (snd (Part001.deleteUser id s w)) = table w)
      /\ (statement_failed w (snd (updateCurrentUserProfile profile s w))
            = true ->
          fst (updateCurrentUserProfile profile s w)
            = Return (mkUserResult None (Some "Failed to update profile"))
          /\ table (snd (updateCurrentUserProfile profile s w)) = table w)
      /\ (statement_failed w
            (snd (updateCurrentUserPassword currentPassword newPassword s w))
            = true ->
          fst (updateCurrentUserPassword currentPassword newPassword s w)
            = Return (mkErrorResult (Some "Failed to change password"))
          /\ table (snd (updateCurrentUserPassword currentPassword
                                                   newPassword s w))
             = table w)).
Proof.
  split; [repeat split; apply try_catch_returns|].
  split.
  - intros H.
    repeat split;
      try (unfold createUser, updateUser, updateUserRole, updateUserStatus,
             UserActions.deleteUser, Part001.deleteUser;
           rewrite gate_closed_caught by exact H; reflexivity).
    + unfold UserActions.getUsers. rewrite gate_closed by exact H. reflexivity.
    + unfold Part001.getUsers. rewrite gate_closed by exact H. reflexivity.
  - split; [|repeat apply conj;
                [apply tracked_createUser|apply tracked_updateUser
                |apply tracked_updateUserRole|apply tracked_updateUserStatus
                |apply tracked_hard_delete|apply tracked_soft_delete
                |apply tracked_updateCurrentUserProfile
                |apply tracked_updateCurrentUserPassword]].
    intros rest Hf. repeat split.
    + unfold getUserById, bind. rewrite (sql_down _ _ _ _ _ rest Hf). reflexivity.
    + unfold UserActions.getUserStats, bind.
      rewrite (sql_down _ _ _ _ _ rest Hf). reflexivity.
    + unfold Part001.getUserStats, bind.
      rewrite (sql_down _ _ _ _ _ rest Hf). reflexivity.
    + unfold UserActions.getUsers. rewrite gate_open by exact H.
      unfold bind. rewrite (sql_down _ _ _ _ (log EvSession w) rest Hf).
      reflexivity.
    + unfold Part001.getUsers. rewrite gate_open by exact H.
      destruct (Part001.getUsers_parts wanted search) as [conditions values].
      unfold bind. rewrite (sql_down _ _ _ _ (log EvSession w) rest Hf).
      reflexivity.
Qed.

Lemma failures_are_returned_where_a_handler_stands_witness :
  is_admin (Some alice) = false
  /\ fst (updateUserStatus "2" suspended (Some alice) (fresh [alice; root]))
     = Return (mkErrorResult (Some "Failed to update status"))
  /\ fst (Part001.getUsers None None (Some alice) (fresh [alice; root]))
     = Throw Unauthorized.
Proof.
  destruct (failures_are_returned_where_a_handler_stands
              (Some alice) (fresh [alice; root]) no_engine demo "2" []
              student suspended (ProfileData.mk None None) "" "" None None)
    as (_ & H & _).
  specialize (H eq_refl).
  split; [reflexivity|]. split; apply H.
Defined.

(** A failure of the second statement: the [SELECT] of a password change
    is answered, its [UPDATE] fails, and the caller gets the failure
    object while the stored digest stays. *)
Example failed_update_is_reported :
  let w := mkWorld [alice; root] [] [false; true] [] in
  statement_failed w
    (snd (updateCurrentUserPassword "secret" "new" (Some alice) w)) = true
  /\ updateCurrentUserPassword "secret" "new" (Some alice) w
     = (Return (mkErrorResult (Some "Failed to change password")),
        mkWorld [alice; root] [] []
          [EvSession;
           EvSql (mkStmt "SELECT password_hash FROM users WHERE id = $1"
                         [Some "1"]);
           EvSql (mkStmt "UPDATE users SET password_hash = $1 WHERE id = $2"
                         [Some (hashPassword "new"); Some "1"])]).
Proof. split; vm_compute; reflexivity. Qed.

(** ** Keys: ids and emails stay unique *)

Lemma Inv_same_data (w w1 : World) : same_data w w1 -> Inv w -> Inv w1.
Proof. unfold Inv. intros [-> _]. trivial. Qed.

Section KeepsKeys.
Variable s : Session.

Lemma keeps_ret {A} (a : A) : keeps_keys s (ret a).
Proof. apply hoare_ret. trivial. Qed.

Lemma keeps_bind {A B} (m : M A) (k : A -> M B) :
  keeps_keys s m -> (forall a, keeps_keys s (k a)) -> keeps_keys s (bind m k).
Proof.
  intros Hm Hk. apply hoare_bind with (R := fun _ w => Inv w);
    [exact Hm|exact Hk|trivial].
Qed.

Lemma keeps_try {A} (m h : M A) :
  keeps_keys s m -> keeps_keys s h -> keeps_keys s (try_catch m h).
Proof.
  intros Hm Hh. apply hoare_try with (R := fun _ w => Inv w);
    [exact Hm|trivial|intros _; exact Hh].
Qed.

Lemma keeps_sql {A} (text : string) (params : list Param)
    (body : World -> Outcome A * World) :
  harmless body -> keeps_keys s (sql text params body).
Proof.
  intros Hb. apply hoare_sql.
  - intros w w1 Hw Hd. apply Hb. exact (Inv_same_data w w1 Hd Hw).
  - intros w w1 Hw Hd. exact (Inv_same_data w w1 Hd Hw).
Qed.

Lemma keeps_getSession : keeps_keys s getSession.
Proof.
  apply hoare_getSession. intros w w1 Hw Hd.
  exact (Inv_same_data w w1 Hd Hw).
Qed.

Lemma keeps_requireRole : keeps_keys s (requireRole [admin]).
Proof.
  apply hoare_requireRole. intros w w1 Hw Hd.
  destruct (is_admin s); exact (Inv_same_data w w1 Hd Hw).
Qed.
End KeepsKeys.

Lemma harmless_select (p : User -> bool) : harmless (select_where p).
Proof. intros w Hw. exact Hw. Qed.

Lemma harmless_listing (role : option UserRole) (pattern : option string) :
  harmless (select_listing role pattern).
Proof. intros w Hw. exact Hw. Qed.

Lemma harmless_stats {A} (f : list User -> A) :
  harmless (fun w => (Return (f (table w)), w)).
Proof. intros w Hw. exact Hw. Qed.

Lemma harmless_update (p : User -> bool) (f : User -> User) :
  keeps_row_keys f -> harmless (update_where p f).
Proof.
  intros Hf w [Hpk Hem]. unfold Inv, keys_unique, pk_unique, email_unique.
  cbn [update_where snd table with_table].
  rewrite !map_map.
  rewrite (map_ext (fun u => User.id (if p u then f u else u)) User.id).
  2:{ intros u. destruct (p u); [apply Hf|reflexivity]. }
  rewrite (map_ext (fun u => User.email (if p u then f u else u)) User.email).
  2:{ intros u. destruct (p u); [apply Hf|reflexivity]. }
  split; assumption.
Qed.

Lemma NoDup_map_filter {A B} (g : A -> B) (q : A -> bool) (l : list A) :
  NoDup (map g l) -> NoDup (map g (filter q l)).
Proof.
  induction l as [|a l IH]; cbn; intros H; [constructor|].
  inversion H as [|x y Hnotin Hnd]; subst.
  destruct (q a); cbn.
  - constructor; [|apply IH, Hnd].
    intros Hin. apply Hnotin. apply in_map_iff in Hin.
    destruct Hin as (x & Hx & Hxin). apply filter_In in Hxin.
    apply in_map_iff. exists x. tauto.
  - apply IH, Hnd.
Qed.

Lemma harmless_delete (p : User -> bool) : harmless (delete_where p).
Proof.
  intros w [Hpk Hem]. split; cbn [delete_where snd table with_table].
  - apply NoDup_map_filter, Hpk.
  - apply NoDup_map_filter, Hem.
Qed.

Lemma entry_assign_keys (e : Entry) : keeps_row_keys (entry_assign e).
Proof.
  intros u. destruct e as [[v|]|[v|]|[v|]|[v|]|[v|]|[v|]|[v|]|[v|]|[v|]|[v|]];
    split; reflexivity.
Qed.

Lemma assign_all_keys (data : list Entry) : keeps_row_keys (assign_all data).
Proof.
  unfold assign_all. induction data as [|e data IH]; intros u; cbn [fold_left].
  - split; reflexivity.
  - destruct (IH (entry_assign e u)) as [H1 H2].
    destruct (entry_assign_keys e u) as [H3 H4].
    split; congruence.
Qed.

#[local] Hint Resolve harmless_select harmless_listing harmless_delete
  keeps_ret keeps_getSession keeps_requireRole : actions.

Ltac keeps_simple :=
  repeat match goal with
    | |- keeps_keys _ (try_catch _ _) => apply keeps_try
    | |- keeps_keys _ (bind _ _) => apply keeps_bind
    | |- keeps_keys _ (ret _) => apply keeps_ret
    | |- keeps_keys _ (requireRole _) => apply keeps_requireRole
    | |- keeps_keys _ getSession => apply keeps_getSession
    | |- keeps_keys _ (sql _ _ _) => apply keeps_sql
    | |- harmless (select_where _) => apply harmless_select
    | |- harmless (select_listing _ _) => apply harmless_listing
    | |- harmless (delete_where _) => apply harmless_delete
    | |- harmless (update_where _ _) => apply harmless_update
    | |- keeps_row_keys (assign_all _) => apply assign_all_keys
    | |- forall _, _ => intro
    end.

Lemma keeps_getUserById (s : Session) (id : string) :
  keeps_keys s (getUserById id).
Proof. unfold getUserById. keeps_simple. Qed.

Lemma keeps_getCurrentUserProfile (s : Session) :
  keeps_keys s getCurrentUserProfile.
Proof. unfold getCurrentUserProfile. keeps_simple. Qed.

Lemma keeps_updateUser (s : Session) (id : string) (data : list Entry) :
  keeps_keys s (updateUser id data).
Proof.
  unfold updateUser. apply keeps_try; [|apply keeps_ret].
  apply keeps_bind; [apply keeps_requireRole|]. intros _.
  destruct (collect data) as [updates values].
  destruct (List.length updates =? 0)%nat; keeps_simple.
Qed.

Lemma keeps_updateUserRole (s : Session) (id : string) (role : UserRole) :
  keeps_keys s (updateUserRole id role).
Proof. unfold updateUserRole. keeps_simple. split; reflexivity. Qed.

Lemma keeps_updateUserStatus (s : Session) (id : string) (status : UserStatus) :
  keeps_keys s (updateUserStatus id status).
Proof. unfold updateUserStatus. keeps_simple. split; reflexivity. Qed.

Lemma keeps_soft_delete (s : Session) (id : string) :
  keeps_keys s (Part001.deleteUser id).
Proof. unfold Part001.deleteUser. keeps_simple. split; reflexivity. Qed.

Lemma keeps_hard_delete (s : Session) (id : string) :
  keeps_keys s (UserActions.deleteUser id).
Proof. unfold UserActions.deleteUser. keeps_simple. Qed.

Lemma keeps_stats (s : Session) : keeps_keys s Part001.getUserStats.
Proof.
  unfold Part001.getUserStats. apply keeps_bind; [|intro; apply keeps_ret].
  apply keeps_sql. apply (harmless_stats Part001.stats_of).
Qed.

Lemma keeps_stats_all (s : Session) : keeps_keys s UserActions.getUserStats.
Proof.
  unfold UserActions.getUserStats. apply keeps_bind; [|intro; apply keeps_ret].
  apply keeps_sql. apply (harmless_stats UserActions.stats_of).
Qed.

Lemma keeps_getUsers (s : Session) (role : option UserRole)
    (search : option string) :
  keeps_keys s (Part001.getUsers role search).
Proof.
  unfold Part001.getUsers. apply keeps_bind; [apply keeps_requireRole|].
  intros _. destruct (Part001.getUsers_parts role search) as [c v].
  keeps_simple.
Qed.

Lemma keeps_getUsers_interpolated (s : Session) (raw : RawEngine)
    (role : option UserRole) (search : option string) :
  UserActions.breaks_literal search = false ->
  keeps_keys s (UserActions.getUsers raw role search).
Proof.
  intros Hb. unfold UserActions.getUsers. rewrite Hb. keeps_simple.
Qed.

Lemma keeps_updateCurrentUserPassword (s : Session) (c n : string) :
  keeps_keys s (updateCurrentUserPassword c n).
Proof.
  unfold updateCurrentUserPassword. apply keeps_try; [|apply keeps_ret].
  apply keeps_bind; [apply keeps_getSession|].
  intros [me|]; [|apply keeps_ret].
  apply keeps_bind; [keeps_simple|].
  intros [|row rest]; [apply keeps_ret|].
  destruct (negb (String.eqb (User.password_hash row) (hashPassword c)));
    keeps_simple.
  split; reflexivity.
Qed.

Lemma NoDup_snoc {A} (l : list A) (x : A) :
  NoDup l -> ~ In x l -> NoDup (l ++ [x]).
Proof.
  induction l as [|a l IH]; cbn; intros Hnd Hx.
  - constructor; [intros []|constructor].
  - inversion Hnd as [|y z Hnotin Hnd']; subst.
    constructor.
    + intros Hin. apply in_app_or in Hin. destruct Hin as [Hin|[<-|[]]].
      * now apply Hnotin.
      * apply Hx. now left.
    + apply IH; [exact Hnd'|]. intros Hin. apply Hx. now right.
Qed.

Lemma filter_nil_none {A} (p : A -> bool) (l : list A) (x : A) :
  filter p l = [] -> In x l -> p x = false.
Proof.
  intros Hf Hin. destruct (p x) eqn:E; [|reflexivity].
  assert (H : In x (filter p l)) by (apply filter_In; split; assumption).
  rewrite Hf in H. destruct H.
Qed.

Lemma insert_keeps_keys (row : string -> Z -> User) (e : string) (w : World) :
  (forall i ts, User.id (row i ts) = i /\ User.email (row i ts) = e) ->
  Inv w ->
  filter (fun u => String.eqb (User.email u) e) (table w) = [] ->
  Inv (snd (insert_row row w)).
Proof.
  intros Hrow [Hpk Hem] Hfree. unfold insert_row.
  destruct (supply w) as [|[i ts] rest]; [split; assumption|].
  destruct (existsb (fun u => String.eqb (User.id u) i) (table w)) eqn:E;
    [split; assumption|].
  destruct (Hrow i ts) as [Hi He].
  split; cbn [snd table with_table with_supply];
    unfold pk_unique, email_unique; rewrite map_app; cbn [map].
  - rewrite Hi. apply NoDup_snoc; [exact Hpk|].
    intros Hin. apply in_map_iff in Hin. destruct Hin as (u & Hu & Hin).
    assert (Hex : existsb (fun u => String.eqb (User.id u) i) (table w) = true).
    { apply existsb_exists. exists u. split; [exact Hin|].
      now apply String.eqb_eq. }
    congruence.
  - rewrite He. apply NoDup_snoc; [exact Hem|].
    intros Hin. apply in_map_iff in Hin. destruct Hin as (u & Hu & Hin).
    pose proof (filter_nil_none _ _ u Hfree Hin) as Hno. cbn in Hno.
    apply String.eqb_neq in Hno. congruence.
Qed.

Lemma new_row_keys (data : NewUser.t) (h : string) (i : string) (ts : Z) :
  User.id (new_row data h i ts) = i
  /\ User.email (new_row data h i ts) = NewUser.email data.
Proof. split; reflexivity. Qed.

Lemma keeps_createUser (s : Session) (data : NewUser.t) :
  keeps_keys s (createUser data).
Proof.
  unfold createUser. apply keeps_try; [|apply keeps_ret].
  apply keeps_bind; [apply keeps_requireRole|]. intros _.
  unfold keeps_keys.
  apply hoare_bind with
    (R := fun r w =>
            Inv w
            /\ forall rows, r = Return rows ->
                 rows = filter (fun u => String.eqb (User.email u)
                                                    (NewUser.email data))
                               (table w)).
  - apply hoare_sql.
    + intros w w1 Hw Hd. cbn [select_where fst snd]. split.
      * exact (Inv_same_data w w1 Hd Hw).
      * intros rows [= <-]. reflexivity.
    + intros w w1 Hw Hd. split; [exact (Inv_same_data w w1 Hd Hw)|].
      intros rows [=].
  - intros rows. destruct rows as [|row0 rest]; cbn [List.length Nat.ltb Nat.leb].
    + apply hoare_bind with (R := fun _ w => Inv w).
      * apply hoare_sql.
        -- intros w w1 [Hw Hrows] Hd.
           apply (insert_keeps_keys _ (NewUser.email data)).
           ++ intros i ts. apply new_row_keys.
           ++ exact (Inv_same_data w w1 Hd Hw).
           ++ rewrite (proj1 Hd). symmetry. apply Hrows. reflexivity.
        -- intros w w1 [Hw _] Hd. exact (Inv_same_data w w1 Hd Hw).
      * intros a. apply hoare_ret. trivial.
      * trivial.
    + apply hoare_ret. intros w [Hw _]. exact Hw.
  - intros e w [Hw _]. exact Hw.
Qed.

(** ** The profile update *)

Lemma profile_assign_id (data : ProfileData.t) (u : User) :
  User.id (profile_assign data u) = User.id u.
Proof.
  unfold profile_assign.
  destruct (ProfileData.full_name data) as [[|c n]|],
    (ProfileData.email data) as [[|d e]|]; reflexivity.
Qed.

Lemma profile_assign_email (data : ProfileData.t) (u : User) :
  User.email (profile_assign data u)
  = match ProfileData.email data with
    | Some e => if truthy (Some e) then e else User.email u
    | None => User.email u
    end.
Proof.
  unfold profile_assign.
  destruct (ProfileData.full_name data) as [[|c n]|],
    (ProfileData.email data) as [[|d e]|]; reflexivity.
Qed.

Lemma profile_assign_keeps (data : ProfileData.t) :
  truthy (ProfileData.email data) = false ->
  keeps_row_keys (profile_assign data).
Proof.
  intros He u. split; [apply profile_assign_id|].
  rewrite profile_assign_email.
  destruct (ProfileData.email data) as [e|]; [|reflexivity].
  now rewrite He.
Qed.

(** Giving the rows of one id the email [e] keeps the keys unique when no
    row of another id has [e]. *)
Lemma retarget_email (target e : string) (f : User -> User) (t : list User) :
  (forall u, User.id (f u) = User.id u) ->
  (forall u, User.email (f u) = e) ->
  keys_unique t ->
  filter (fun u => String.eqb (User.email u) e && negb (has_id target u)) t = [] ->
  keys_unique (map (fun u => if has_id target u then f u else u) t).
Proof.
  intros Hid Hem [Hpk Hun] Hfree. split.
  - unfold pk_unique. rewrite map_map.
    rewrite (map_ext (fun u => User.id (if has_id target u then f u else u))
                     User.id); [exact Hpk|].
    intros u. destruct (has_id target u); [apply Hid|reflexivity].
  - unfold pk_unique, email_unique in *.
    assert (Hother : forall u, In u t -> has_id target u = false ->
                               User.email u <> e).
    { intros u Hin Hne Heq.
      pose proof (filter_nil_none _ _ u Hfree Hin) as Hno. cbn in Hno.
      rewrite Hne in Hno. cbn in Hno. rewrite andb_true_r in Hno.
      apply String.eqb_neq in Hno. contradiction. }
    clear Hfree.
    induction t as [|a t IH]; cbn [map]; [constructor|].
    cbn [map] in Hpk, Hun.
    inversion Hpk as [|x y Hida Hpk']; subst.
    inversion Hun as [|x y Hema Hun']; subst.
    assert (IH' : NoDup (map User.email
                           (map (fun u => if has_id target u then f u else u) t))).
    { apply IH; [assumption|assumption|].
      intros u Hin. apply Hother. now right. }
    destruct (has_id target a) eqn:Ea.
    + assert (Hrest : map (fun u => if has_id target u then f u else u) t = t).
      { apply map_if_none. intros x Hx. apply has_id_false.
        intros Hx'. apply Hida. apply has_id_true in Ea.
        rewrite Ea, <- Hx'. now apply in_map. }
      rewrite Hrest. constructor; [|exact Hun'].
      rewrite Hem. intros Hin. apply in_map_iff in Hin.
      destruct Hin as (x & Hx & Hxin).
      apply (Hother x); [now right| |exact Hx].
      apply has_id_false. intros Hx'. apply Hida. apply has_id_true in Ea.
      rewrite Ea, <- Hx'. now apply in_map.
    + constructor; [|exact IH'].
      intros Hin. apply in_map_iff in Hin. destruct Hin as (x & Hx & Hxin).
      apply in_map_iff in Hxin. destruct Hxin as (y & Hy & Hyin). subst x.
      destruct (has_id target y) eqn:Ey.
      * rewrite Hem in Hx. apply (Hother a); [now left|exact Ea|now symmetry].
      * apply Hema. rewrite <- Hx. now apply in_map.
Qed.

Lemma keeps_profile_write_plain (s : Session) (me : User) (data : ProfileData.t)
    (updates : list string) (values : list Param) :
  truthy (ProfileData.email data) = false ->
  keeps_keys s (profile_write me data updates values).
Proof.
  intros He. unfold profile_write.
  destruct (List.length updates =? 0)%nat; keeps_simple.
  apply profile_assign_keeps, He.
Qed.

Lemma keeps_profile_write_checked (s : Session) (me : User)
    (data : ProfileData.t) (e : string)
    (updates : list string) (values : list Param) :
  ProfileData.email data = Some e ->
  truthy (Some e) = true ->
  hoare s (email_free_for me e) (profile_write me data updates values)
        (fun _ w => Inv w).
Proof.
  intros Hd He. unfold profile_write.
  destruct (List.length updates =? 0)%nat.
  - apply hoare_ret. intros w [Hw _]. exact Hw.
  - apply hoare_bind with (R := fun _ w => Inv w).
    + apply hoare_sql.
      * intros w w1 [Hw Hfree] Hsd. unfold Inv.
        cbn [update_where snd table with_table].
        apply (retarget_email (User.id me) e).
        -- apply profile_assign_id.
        -- intros u. rewrite profile_assign_email, Hd, He. reflexivity.
        -- rewrite (proj1 Hsd). exact Hw.
        -- rewrite (proj1 Hsd). exact Hfree.
      * intros w w1 [Hw _] Hsd. exact (Inv_same_data w w1 Hsd Hw).
    + intros a. apply hoare_ret. trivial.
    + trivial.
Qed.

Lemma keeps_updateCurrentUserProfile (s : Session) (data : ProfileData.t) :
  keeps_keys s (updateCurrentUserProfile data).
Proof.
  unfold updateCurrentUserProfile. apply keeps_try; [|apply keeps_ret].
  apply keeps_bind; [apply keeps_getSession|].
  intros [me|]; [|apply keeps_ret].
  destruct (truthy (ProfileData.email data)) eqn:Ee.
  2:{ destruct (truthy (ProfileData.full_name data));
        apply keeps_profile_write_plain, Ee. }
  destruct (ProfileData.email data) as [e|] eqn:Hd; [|discriminate].
  assert (Hgo : forall updates values,
             keeps_keys s
               (exists_ <- sql "SELECT id FROM users WHERE email = $1 AND id != $2"
                             [Some e; Some (User.id me)]
                             (select_where
                                (fun u => String.eqb (User.email u) e
                                          && negb (has_id (User.id me) u))) ;;
                if (0 <? List.length exists_)%nat
                then ret (mkUserResult None (Some "Email already in use"))
                else profile_write me data updates values)).
  { intros updates values. unfold keeps_keys.
    apply hoare_bind with
      (R := fun r w =>
              Inv w
              /\ forall rows, r = Return rows ->
                   rows = filter (fun u => String.eqb (User.email u) e
                                           && negb (has_id (User.id me) u))
                                 (table w)).
    - apply hoare_sql.
      + intros w w1 Hw Hsd. cbn [select_where fst snd]. split.
        * exact (Inv_same_data w w1 Hsd Hw).
        * intros rows [= <-]. reflexivity.
      + intros w w1 Hw Hsd. split; [exact (Inv_same_data w w1 Hsd Hw)|].
        intros rows [=].
    - intros rows. destruct rows as [|row0 rest];
        cbn [List.length Nat.ltb Nat.leb].
      + apply hoare_weaken with (P' := email_free_for me e)
                                (Q' := fun _ w => Inv w).
        * apply keeps_profile_write_checked; [exact Hd|exact Ee].
        * intros w [Hw Hrows]. split; [exact Hw|].
          symmetry. apply Hrows. reflexivity.
        * trivial.
      + apply hoare_ret. intros w [Hw _]. exact Hw.
    - intros x w [Hw _]. exact Hw. }
  destruct (truthy (ProfileData.full_name data)); apply Hgo.
Qed.

(** ** Serving requests keeps the keys unique *)

Lemma hoare_at {A} (s : Session) (w : World) (m : M A)
    (P : World -> Prop) (Q : Outcome A -> World -> Prop) :
  hoare s P m Q -> P w -> Q (fst (m s w)) (snd (m s w)).
Proof. intros H Hw. apply H, Hw. Qed.

Lemma serve_part001_keeps (rq : Request) (s : Session) (w : World) :
  Inv w -> Inv (serve_part001 rq s w).
Proof.
  intros Hw. destruct rq; cbn [serve_part001];
    refine (hoare_at s w _ Inv (fun _ w' => Inv w') _ Hw).
  - apply keeps_getUsers.
  - apply keeps_getUserById.
  - apply keeps_getCurrentUserProfile.
  - apply keeps_createUser.
  - apply keeps_updateUser.
  - apply keeps_updateUserRole.
  - apply keeps_updateUserStatus.
  - apply keeps_soft_delete.
  - apply keeps_stats.
  - apply keeps_updateCurrentUserProfile.
  - apply keeps_updateCurrentUserPassword.
Qed.

Lemma serve_user_actions_keeps (raw : RawEngine) (rq : Request) (s : Session)
    (w : World) :
  literal_safe rq = true -> Inv w -> Inv (serve_user_actions raw rq s w).
Proof.
  intros Hsafe Hw.
  destruct rq; try (apply serve_part001_keeps; exact Hw);
    cbn [serve_user_actions];
    refine (hoare_at s w _ Inv (fun _ w' => Inv w') _ Hw).
  - apply keeps_getUsers_interpolated.
    cbn in Hsafe. now apply negb_true_iff in Hsafe.
  - apply keeps_hard_delete.
  - apply keeps_stats_all.
Qed.

Lemma serve_all_keeps (serve : Request -> Session -> World -> World)
    (ok : Request -> Prop) :
  (forall rq s w, ok rq -> Inv w -> Inv (serve rq s w)) ->
  forall rqs w,
    Forall (fun p => ok (fst p)) rqs -> Inv w -> Inv (serve_all serve rqs w).
Proof.
  intros Hstep rqs. induction rqs as [|[rq s] rqs IH]; intros w Hok Hw;
    cbn [serve_all]; [exact Hw|].
  inversion Hok as [|x y Hrq Hrest]; subst.
  apply IH; [exact Hrest|]. apply Hstep; [exact Hrq|exact Hw].
Qed.

Lemma keys_unique_live (t : list User) : keys_unique t -> live_email_unique t.
Proof. intros [_ H]. apply NoDup_map_filter, H. Qed.

(** ** Refusing an email that is taken *)

Lemma taken_rows (e : string) (t : list User) :
  email_taken e t ->
  filter (fun u => String.eqb (User.email u) e) t <> [].
Proof.
  intros (u & Hin & He) Hnil.
  pose proof (filter_nil_none _ _ u Hnil Hin) as Hno. cbn in Hno.
  apply String.eqb_neq in Hno. contradiction.
Qed.

Lemma createUser_refuses_taken_email (data : NewUser.t) (s : Session)
    (w : World) :
  email_taken (NewUser.email data) (table w) ->
  exists msg w',
    createUser data s w = (Return (mkUserResult None (Some msg)), w')
    /\ table w' = table w.
Proof.
  intros Htaken.
  assert (H : hoare s (same_data w) (createUser data)
                (fun r w' => (exists msg,
                                 r = Return (mkUserResult None (Some msg)))
                             /\ table w' = table w)).
  { unfold createUser.
    apply hoare_try with
      (R := fun r w' => table w' = table w
                        /\ forall a, r = Return a ->
                             exists msg, a = mkUserResult None (Some msg)).
    - apply hoare_bind with (R := fun _ w' => same_data w w').
      + apply hoare_requireRole. intros w0 w1 Hd0 Hd1.
        destruct (is_admin s); exact (same_data_trans _ _ _ Hd0 Hd1).
      + intros _.
        apply hoare_bind with
          (R := fun r w' =>
                  same_data w w'
                  /\ forall rows, r = Return rows ->
                       rows = filter (fun u => String.eqb (User.email u)
                                                          (NewUser.email data))
                                     (table w)).
        * apply hoare_sql.
          -- intros w0 w1 Hd0 Hd1. cbn [select_where fst snd].
             pose proof (same_data_trans _ _ _ Hd0 Hd1) as Hd.
             split; [exact Hd|]. intros rows [= <-]. now rewrite (proj1 Hd).
          -- intros w0 w1 Hd0 Hd1.
             split; [exact (same_data_trans _ _ _ Hd0 Hd1)|]. intros rows [=].
        * intros rows. destruct rows as [|row0 rest];
            cbn [List.length Nat.ltb Nat.leb].
          -- intros w0 [_ Hrows]. exfalso.
             apply (taken_rows _ _ Htaken). symmetry. now apply Hrows.
          -- apply hoare_ret. intros w0 [Hd _]. split; [apply Hd|].
             intros a [= <-]. eauto.
        * intros e w0 [Hd _]. split; [apply Hd|]. intros a [=].
      + intros e w0 Hd. split; [apply Hd|]. intros a [=].
    - intros a w0 [Ht Ha]. destruct (Ha a eq_refl) as [msg ->]. eauto.
    - intros e. apply hoare_ret. intros w0 [Ht _]. eauto. }
  specialize (H w (same_data_refl w)). destruct H as ((msg & Hr) & Ht).
  exists msg, (snd (createUser data s w)). split; [|exact Ht].
  rewrite <- Hr. apply surjective_pairing.
Qed.

Lemma createUser_stores (data : NewUser.t) (s : Session) (w w' : World)
    (u : User) (e : option string) :
  createUser data s w = (Return (mkUserResult (Some u) e), w') ->
  In u (table w') /\ User.email u = NewUser.email data.
Proof.
  intros Hrun.
  assert (H : hoare s (fun _ => True) (createUser data)
                (fun r w1 => forall u e,
                     r = Return (mkUserResult (Some u) e) ->
                     In u (table w1) /\ User.email u = NewUser.email data)).
  { unfold createUser.
    apply hoare_try with
      (R := fun r w1 => forall u e,
                r = Return (mkUserResult (Some u) e) ->
                In u (table w1) /\ User.email u = NewUser.email data).
    - apply hoare_bind with (R := fun _ _ => True).
      + apply hoare_requireRole. intros; destruct (is_admin s); exact I.
      + intros _. apply hoare_bind with (R := fun _ _ => True).
        * apply hoare_sql; intros; exact I.
        * intros rows. destruct (0 <? List.length rows)%nat.
          { apply hoare_ret. intros _ _ u0 e0 [=]. }
          apply hoare_bind with
            (R := fun r w1 => forall rows, r = Return rows ->
                      exists i ts,
                        rows = [new_row data
                                  (hashPassword (NewUser.password data)) i ts]
                        /\ In (new_row data
                                 (hashPassword (NewUser.password data)) i ts)
                              (table w1)).
          -- apply hoare_sql.
             ++ intros w0 w1 _ _ rows' Hr.
                destruct (insert_row_result _ _ _ Hr) as (i & ts & -> & Ht & _).
                exists i, ts. split; [reflexivity|].
                rewrite Ht. apply in_or_app. right. now left.
             ++ intros w0 w1 _ _ rows' [=].
          -- intros rows'. apply hoare_ret. intros w0 Hrows u0 e0 [= Hu _].
             destruct (Hrows rows' eq_refl) as (i & ts & -> & Hin).
             cbn in Hu. injection Hu as <-. split; [exact Hin|reflexivity].
          -- intros e0 w0 _ u0 e1 [=].
        * intros e0 w0 _ u0 e1 [=].
      + intros e0 w0 _ u0 e1 [=].
    - intros a w0 Ha. exact Ha.
    - intros e0. apply hoare_ret. intros w0 _ u0 e1 [=]. }
  pose proof (H w I u e) as Hq. rewrite Hrun in Hq. apply Hq. reflexivity.
Qed.

Lemma profile_refuses_taken_email (data : ProfileData.t) (me : User)
    (e : string) (w : World) :
  ProfileData.email data = Some e ->
  truthy (Some e) = true ->
  (exists u, In u (table w) /\ User.email u = e /\ User.id u <> User.id me) ->
  exists msg w',
    updateCurrentUserProfile data (Some me) w
      = (Return (mkUserResult None (Some msg)), w')
    /\ table w' = table w.
Proof.
  intros Hd He (other & Hin & Hoe & Hoid).
  assert (Hrows : filter (fun u => String.eqb (User.email u) e
                                   && negb (has_id (User.id me) u)) (table w)
                  <> []).
  { intros Hnil. pose proof (filter_nil_none _ _ other Hnil Hin) as Hno.
    cbn in Hno. rewrite (proj2 (String.eqb_eq _ _) Hoe) in Hno.
    rewrite (has_id_false _ _ Hoid) in Hno. discriminate. }
  assert (Hgo : forall updates values,
             hoare (Some me) (same_data w)
               (exists_ <- sql "SELECT id FROM users WHERE email = $1 AND id != $2"
                             [Some e; Some (User.id me)]
                             (select_where
                                (fun u => String.eqb (User.email u) e
                                          && negb (has_id (User.id me) u))) ;;
                if (0 <? List.length exists_)%nat
                then ret (mkUserResult None (Some "Email already in use"))
                else profile_write me data updates values)
               (fun r w' => table w' = table w
                            /\ forall a, r = Return a ->
                                 exists msg, a = mkUserResult None (Some msg))).
  { intros updates values.
    apply hoare_bind with
      (R := fun r w' =>
              same_data w w'
              /\ forall rows, r = Return rows ->
                   rows = filter (fun u => String.eqb (User.email u) e
                                           && negb (has_id (User.id me) u))
                                 (table w)).
    - apply hoare_sql.
      + intros w0 w1 Hd0 Hd1. cbn [select_where fst snd].
        pose proof (same_data_trans _ _ _ Hd0 Hd1) as Hsd.
        split; [exact Hsd|]. intros rows [= <-]. now rewrite (proj1 Hsd).
      + intros w0 w1 Hd0 Hd1.
        split; [exact (same_data_trans _ _ _ Hd0 Hd1)|]. intros rows [=].
    - intros rows. destruct rows as [|row0 rest];
        cbn [List.length Nat.ltb Nat.leb].
      + intros w0 [_ Hr]. exfalso. apply Hrows. symmetry. now apply Hr.
      + apply hoare_ret. intros w0 [Hsd _]. split; [apply Hsd|].
        intros a [= <-]. eauto.
    - intros x w0 [Hsd _]. split; [apply Hsd|]. intros a [=]. }
  assert (H : hoare (Some me) (same_data w) (updateCurrentUserProfile data)
                (fun r w' => (exists msg,
                                 r = Return (mkUserResult None (Some msg)))
                             /\ table w' = table w)).
  { unfold updateCurrentUserProfile.
    apply hoare_try with
      (R := fun r w' => table w' = table w
                        /\ forall a, r = Return a ->
                             exists msg, a = mkUserResult None (Some msg)).
    - apply hoare_bind with
        (R := fun r w' => same_data w w' /\ r = Return (Some me)).
      + apply hoare_getSession. intros w0 w1 Hd0 Hd1.
        split; [exact (same_data_trans _ _ _ Hd0 Hd1)|reflexivity].
      + intros [me'|]; [|intros w0 [_ [=]]].
        apply hoare_weaken with
          (P' := fun w0 => same_data w w0 /\ me' = me)
          (Q' := fun r w' => table w' = table w
                             /\ forall a, r = Return a ->
                                  exists msg, a = mkUserResult None (Some msg)).
        * intros w0 [Hsd ->]. revert w0 Hsd.
          rewrite Hd, He.
          destruct (truthy (ProfileData.full_name data)); apply Hgo.
        * intros w0 [Hsd [= ->]]. split; [exact Hsd|reflexivity].
        * trivial.
      + intros x w0 [_ [=]].
    - intros a w0 [Ht Ha]. destruct (Ha a eq_refl) as [msg ->]. eauto.
    - intros x. apply hoare_ret. intros w0 [Ht _]. eauto. }
  specialize (H w (same_data_refl w)). destruct H as ((msg & Hr) & Ht).
  exists msg, (snd (updateCurrentUserProfile data (Some me) w)).
  split; [|exact Ht]. rewrite <- Hr. apply surjective_pairing.
Qed.

(** ** C5 *)

(** [createUser] is its two parts run one right after the other. *)
Lemma createUser_in_two_steps (data : NewUser.t) (s : Session) (w : World) :
  createUser data s w
  = match createUser_check data s w with
    | (Return (Some r), w1) => (Return r, w1)
    | (Return None, w1) => createUser_store data s w1
    | (Throw e, w1) => (Throw e, w1)
    end.
Proof.
  unfold createUser, createUser_check, createUser_store, try_catch, bind.
  destruct (requireRole [admin] s w) as [[[]|e] w1]; [|reflexivity].
  destruct (sql "SELECT id FROM users WHERE email = $1"
              [Some (NewUser.email data)]
              (select_where
                 (fun u => String.eqb (User.email u) (NewUser.email data)))
              s w1) as [[rows|e] w2]; [|reflexivity].
  destruct (0 <? List.length rows)%nat; reflexivity.
Qed.

(** C5 as stated fails in four ways.

    Uniqueness among the rows that are not soft-deleted is not kept by
    every operation: with an inactive row that has the email of a live
    one, [updateUserStatus] brings the inactive row back and two live
    rows share the email.

    A profile update whose email is the empty string is not refused
    although another user holds that email: the empty string counts as
    no email, and the name is written.

    Two calls of [createUser] that overlap store one email twice: both
    [SELECT]s are answered before either [INSERT] is sent, both find the
    email free, and both rows are stored, from a table in which ids and
    emails are unique.

    And an email can be created a second time, by calls that do not
    overlap, once the row that held it has taken another email. *)
Lemma email_uniqueness_claim_fails :
  (live_email_unique [alice; root; ghost]
   /\ pk_unique [alice; root; ghost]
   /\ fst (updateUserStatus "3" active (Some root) (fresh [alice; root; ghost]))
      = Return (mkErrorResult None)
   /\ ~ live_email_unique
          (table (snd (updateUserStatus "3" active (Some root)
                                        (fresh [alice; root; ghost])))))
  /\ (In blank [alice; root; blank]
      /\ User.email blank = ""
      /\ User.id blank <> User.id alice
      /\ updateCurrentUserProfile (ProfileData.mk (Some "Al") (Some ""))
                                  (Some alice) (fresh [alice; root; blank])
         = (Return (mkUserResult (Some (User.set_full_name "Al" alice)) None),
            mkWorld [User.set_full_name "Al" alice; root; blank] [] []
              [EvSession;
               EvSql (mkStmt "UPDATE users SET full_name = $1 WHERE id = $2 RETURNING *"
                             [Some "Al"; Some "1"])]))
  /\ (let w0 := mkWorld [alice; root] [("9", 50%Z); ("10", 60%Z)] [] [] in
      let check1 := createUser_check demo (Some root) w0 in
      let check2 := createUser_check demo (Some root) (snd check1) in
      let store1 := createUser_store demo (Some root) (snd check2) in
      let store2 := createUser_store demo (Some root) (snd store1) in
      keys_unique (table w0)
      /\ fst check1 = Return None
      /\ fst check2 = Return None
      /\ fst store1
         = Return (mkUserResult
                     (Some (new_row demo (hashPassword "pw") "9" 50%Z)) None)
      /\ fst store2
         = Return (mkUserResult
                     (Some (new_row demo (hashPassword "pw") "10" 60%Z)) None)
      /\ table (snd store2)
         = [alice; root; new_row demo (hashPassword "pw") "9" 50%Z;
            new_row demo (hashPassword "pw") "10" 60%Z]
      /\ map User.email (table (snd store2))
         = ["alice@lib.org"; "root@lib.org"; "dan@lib.org"; "dan@lib.org"]
      /\ ~ email_unique (table (snd store2))
      /\ ~ live_email_unique (table (snd store2)))
  /\ (let w0 := mkWorld [alice; root] [("9", 50%Z); ("10", 60%Z)] [] [] in
      let dan := new_row demo (hashPassword "pw") "9" 50%Z in
      let w1 := snd (createUser demo (Some root) w0) in
      let w2 := snd (updateCurrentUserProfile
                       (ProfileData.mk None (Some "dan@home.org"))
                       (Some dan) w1) in
      fst (createUser demo (Some root) w0)
        = Return (mkUserResult (Some dan) None)
      /\ fst (updateCurrentUserProfile
                (ProfileData.mk None (Some "dan@home.org")) (Some dan) w1)
         = Return (mkUserResult (Some (User.set_email "dan@home.org" dan))
                                None)
      /\ fst (createUser demo (Some root) w2)
         = Return (mkUserResult
                     (Some (new_row demo (hashPassword "pw") "10" 60%Z)) None)
      /\ map User.email (table (snd (createUser demo (Some root) w2)))
         = ["alice@lib.org"; "root@lib.org"; "dan@home.org"; "dan@lib.org"]).
Proof.
  split.
  { split.
    { unfold live_email_unique. cbn.
      repeat constructor; cbn; intuition discriminate. }
    split.
    { unfold pk_unique. cbn. repeat constructor; cbn; intuition discriminate. }
    split; [reflexivity|].
    unfold live_email_unique. cbn. intros H.
    inversion H as [|x l Hnotin _]; subst. apply Hnotin.
    right. left. reflexivity. }
  split.
  { split; [right; right; left; reflexivity|].
    split; [reflexivity|]. split; [discriminate|]. reflexivity. }
  split.
  { intros w0 check1 check2 store1 store2.
    assert (Hmails : map User.email (table (snd store2))
                     = ["alice@lib.org"; "root@lib.org"; "dan@lib.org";
                        "dan@lib.org"])
      by (vm_compute; reflexivity).
    assert (Hlive : map User.email (filter not_inactive (table (snd store2)))
                    = ["alice@lib.org"; "root@lib.org"; "dan@lib.org";
                       "dan@lib.org"])
      by (vm_compute; reflexivity).
    assert (Hdup : ~ NoDup ["alice@lib.org"; "root@lib.org"; "dan@lib.org";
                            "dan@lib.org"]).
    { intros H. inversion H as [|x1 l1 _ H1]; subst.
      inversion H1 as [|x2 l2 _ H2]; subst.
      inversion H2 as [|x3 l3 Hnotin _]; subst.
      apply Hnotin. left. reflexivity. }
    split.
    { split; [unfold pk_unique|unfold email_unique]; cbn;
        repeat constructor; cbn; intuition discriminate. }
    split; [vm_compute; reflexivity|].
    split; [vm_compute; reflexivity|].
    split; [vm_compute; reflexivity|].
    split; [vm_compute; reflexivity|].
    split; [vm_compute; reflexivity|].
    split; [exact Hmails|].
    split.
    - unfold email_unique. rewrite Hmails. exact Hdup.
    - unfold live_email_unique. rewrite Hlive. exact Hdup. }
  intros w0 dan w1 w2.
  split; [vm_compute; reflexivity|].
  split; [vm_compute; reflexivity|].
  split; vm_compute; reflexivity.
Qed.

(** C5, as the code has it, for calls that are served one after the
    other.  What the operations keep is uniqueness of the email among
    all rows, soft-deleted ones included, together with uniqueness of
    the id: it holds after any sequence of requests to [part_001] that
    starts where it holds, and likewise for [user-actions.ts] with one
    exception, a listing whose search carries a quote (there the text
    sent is no longer the listing query, and what it does is the
    database's affair); it implies uniqueness among the rows that are
    not soft-deleted.  [createUser] with an email that some row has,
    whatever that row's status, returns no user and an error and leaves
    the table as it was; so does [updateCurrentUserProfile] with a
    non-empty email that a row of another id has.  A [createUser] that
    returns a user has found no row with the email and has stored the
    user with it; hence a [createUser] that follows a successful one
    with the same email is refused, and is refused for as long as a row
    holds the email. *)
Theorem emails_stay_unique_over_all_rows :
  (forall rqs w,
      keys_unique (table w) ->
      keys_unique (table (serve_all serve_part001 rqs w)))
  /\ (forall raw rqs w,
        Forall (fun p => literal_safe (fst p) = true) rqs ->
        keys_unique (table w) ->
        keys_unique (table (serve_all (serve_user_actions raw) rqs w)))
  /\ (forall t, keys_unique t -> live_email_unique t)
  /\ (forall data s w,
        email_taken (NewUser.email data) (table w) ->
        exists msg w',
          createUser data s w = (Return (mkUserResult None (Some msg)), w')
          /\ table w' = table w)
  /\ (forall data me e w,
        ProfileData.email data = Some e ->
        truthy (Some e) = true ->
        (exists u, In u (table w) /\ User.email u = e
                   /\ User.id u <> User.id me) ->
        exists msg w',
          updateCurrentUserProfile data (Some me) w
            = (Return (mkUserResult None (Some msg)), w')
          /\ table w' = table w)
  /\ (forall first second s s' w w1 u,
        createUser first s w = (Return (mkUserResult (Some u) None), w1) ->
        NewUser.email second = NewUser.email first ->
        exists msg w2,
          createUser second s' w1 = (Return (mkUserResult None (Some msg)), w2)
          /\ table w2 = table w1)
  /\ (forall data s w w' u,
        createUser data s w = (Return (mkUserResult (Some u) None), w') ->
        ~ email_taken (NewUser.email data) (table w)
        /\ In u (table w')
        /\ User.email u = NewUser.email data).
Proof.
  split.
  { intros rqs w Hw.
    apply (serve_all_keeps serve_part001 (fun _ => True)).
    - intros rq s w0 _. apply serve_part001_keeps.
    - apply Forall_forall. intros; exact I.
    - exact Hw. }
  split.
  { intros raw rqs w Hsafe Hw.
    apply (serve_all_keeps (serve_user_actions raw)
             (fun rq => literal_safe rq = true)).
    - intros rq s w0. apply serve_user_actions_keeps.
    - exact Hsafe.
    - exact Hw. }
  split; [apply keys_unique_live|].
  split; [apply createUser_refuses_taken_email|].
  split; [apply profile_refuses_taken_email|].
  split.
  { intros first second s s' w w1 u Hrun Hsame.
    apply createUser_refuses_taken_email.
    destruct (createUser_stores first s w w1 u None Hrun) as [Hin He].
    exists u. split; [exact Hin|]. congruence. }
  intros data s w w' u Hrun. split.
  - intros Htaken.
    destruct (createUser_refuses_taken_email data s w Htaken)
      as (msg & w2 & Hr & _).
    rewrite Hr in Hrun. discriminate Hrun.
  - exact (createUser_stores data s w w' u None Hrun).
Qed.

Lemma emails_stay_unique_over_all_rows_witness :
  (email_taken (NewUser.email
                  (NewUser.mk "alice@lib.org" "pw" "Twin" student
                              None None None None None))
               (table (mkWorld [alice; root] [("9", 50%Z)] [] [])))
  /\ exists msg w',
       createUser (NewUser.mk "alice@lib.org" "pw" "Twin" student
                              None None None None None)
                  (Some root) (mkWorld [alice; root] [("9", 50%Z)] [] [])
         = (Return (mkUserResult None (Some msg)), w')
       /\ table w' = table (mkWorld [alice; root] [("9", 50%Z)] [] []).
Proof.
  assert (Ht : email_taken "alice@lib.org" [alice; root]).
  { exists alice. split; [left; reflexivity|reflexivity]. }
  split; [exact Ht|].
  destruct emails_stay_unique_over_all_rows as (_ & _ & _ & H & _).
  apply (H (NewUser.mk "alice@lib.org" "pw" "Twin" student
                       None None None None None)
           (Some root) (mkWorld [alice; root] [("9", 50%Z)] [] [])).
  exact Ht.
Defined.

(** A second [createUser] with the email of the first adds no row. *)
Example second_createUser_is_refused :
  let w0 := mkWorld [alice; root] [("9", 50%Z); ("10", 60%Z)] [] [] in
  let w1 := snd (createUser demo (Some root) w0) in
  List.length (table w1) = 3
  /\ fst (createUser demo (Some root) w1)
     = Return (mkUserResult None (Some "Email already exists"))
  /\ table (snd (createUser demo (Some root) w1)) = table w1.
Proof. repeat split; vm_compute; reflexivity. Qed.

(** * Further properties of the code *)

(** ** How tables evolve *)

Section Evolves.
Variable R : list User -> list User -> Prop.
Hypothesis R_refl : forall t, R t t.
Variable s : Session.

Lemma quiet_evolves {A} (m : M A) : quiet s m -> evolves R s m.
Proof. intros H w. rewrite H. apply R_refl. Qed.

Lemma quiet_ret {A} (a : A) : quiet s (ret a).
Proof. intros w. reflexivity. Qed.

Lemma quiet_throw {A} (e : Exn) : quiet s (@throw A e).
Proof. intros w. reflexivity. Qed.

Lemma quiet_getSession : quiet s getSession.
Proof. intros w. reflexivity. Qed.

Lemma quiet_requireRole : quiet s (requireRole [admin]).
Proof.
  intros w. destruct (is_admin s) eqn:E.
  - now rewrite requireRole_admin.
  - now rewrite requireRole_other.
Qed.

Lemma quiet_bind {A B} (m : M A) (k : A -> M B) :
  quiet s m -> (forall a, quiet s (k a)) -> quiet s (bind m k).
Proof.
  intros Hm Hk w. unfold bind. specialize (Hm w).
  destruct (m s w) as [[a|e] w1]; cbn [snd] in *.
  - rewrite Hk. exact Hm.
  - exact Hm.
Qed.

Lemma quiet_try {A} (m h : M A) :
  quiet s m -> quiet s h -> quiet s (try_catch m h).
Proof.
  intros Hm Hh w. unfold try_catch. specialize (Hm w).
  destruct (m s w) as [[a|e] w1]; cbn [snd] in *.
  - exact Hm.
  - rewrite Hh. exact Hm.
Qed.

Lemma quiet_sql {A} (text : string) (params : list Param)
    (body : World -> Outcome A * World) :
  (forall w, table (snd (body w)) = table w) ->
  quiet s (sql text params body).
Proof.
  intros Hb w. unfold sql. cbn [faults log].
  destruct (faults w) as [|[|] rest]; [|reflexivity|]; now rewrite Hb.
Qed.

Lemma evolves_sql {A} (text : string) (params : list Param)
    (body : World -> Outcome A * World) :
  body_evolves R body -> evolves R s (sql text params body).
Proof.
  intros Hb w. unfold sql. cbn [faults log].
  destruct (faults w) as [|[|] rest]; cbn [snd].
  - exact (Hb (log (EvSql (mkStmt text params)) w)).
  - apply R_refl.
  - exact (Hb (with_faults rest (log (EvSql (mkStmt text params)) w))).
Qed.

Lemma evolves_after_quiet {A B} (m : M A) (k : A -> M B) :
  quiet s m -> (forall a, evolves R s (k a)) -> evolves R s (bind m k).
Proof.
  intros Hm Hk w. unfold bind. specialize (Hm w).
  destruct (m s w) as [[a|e] w1]; cbn [snd] in *.
  - rewrite <- Hm. apply Hk.
  - rewrite Hm. apply R_refl.
Qed.

Lemma evolves_then_quiet {A B} (m : M A) (k : A -> M B) :
  evolves R s m -> (forall a, quiet s (k a)) -> evolves R s (bind m k).
Proof.
  intros Hm Hk w. unfold bind. specialize (Hm w).
  destruct (m s w) as [[a|e] w1]; cbn [snd] in *.
  - rewrite Hk. exact Hm.
  - exact Hm.
Qed.

Lemma evolves_try {A} (m h : M A) :
  evolves R s m -> quiet s h -> evolves R s (try_catch m h).
Proof.
  intros Hm Hh w. unfold try_catch. specialize (Hm w).
  destruct (m s w) as [[a|e] w1]; cbn [snd] in *.
  - exact Hm.
  - rewrite Hh. exact Hm.
Qed.
End Evolves.

Lemma quiet_select (s : Session) (text : string) (params : list Param)
    (p : User -> bool) :
  quiet s (sql text params (select_where p)).
Proof. apply quiet_sql. reflexivity. Qed.

Lemma quiet_gate_closed {A} (s : Session) (k : unit -> M A) :
  is_admin s = false -> quiet s (bind (requireRole [admin]) k).
Proof. intros H w. now rewrite gate_closed. Qed.

Lemma quiet_gate_closed_caught {A} (s : Session) (k : unit -> M A) (a : A) :
  is_admin s = false ->
  quiet s (try_catch (bind (requireRole [admin]) k) (ret a)).
Proof. intros H w. now rewrite gate_closed_caught. Qed.

(** ** Creating a user *)

Lemma not_taken_rows (e : string) (t : list User) :
  ~ email_taken e t ->
  filter (fun u : User => String.eqb (User.email u) e) t = [].
Proof.
  intros H. apply filter_none. intros u Hin.
  apply String.eqb_neq. intros He. apply H. now exists u.
Qed.

Lemma absent_existsb (i : string) (t : list User) :
  absent i t -> existsb (fun u => String.eqb (User.id u) i) t = false.
Proof.
  intros H.
  destruct (existsb (fun u => String.eqb (User.id u) i) t) eqn:E;
    [|reflexivity].
  apply existsb_exists in E. destruct E as (u & Hin & Hu).
  apply String.eqb_eq in Hu. now elim (H u Hin).
Qed.

(** X1. An admin's [createUser] with an email that no row has, against a
    database that answers and whose next generated id is not in use,
    returns the new user and stores it as the last row, the rows that
    were there being kept as they were.  The row has the generated id
    and creation time, the given email, name and role, and the digest of
    the password; each of its five optional columns holds the value
    given, and [null] when none or the empty string was given. *)
Theorem createUser_stores_the_new_user
    (data : NewUser.t) (s : Session) (w : World)
    (i : string) (ts : Z) (rest : list (string * Z)) :
  is_admin s = true ->
  faults w = [] ->
  ~ email_taken (NewUser.email data) (table w) ->
  supply w = (i, ts) :: rest ->
  absent i (table w) ->
  exists row w',
    createUser data s w = (Return (mkUserResult (Some row) None), w')
    /\ table w' = table w ++ [row]
    /\ supply w' = rest
    /\ User.id row = i
    /\ User.created_at row = ts
    /\ User.email row = NewUser.email data
    /\ User.full_name row = NewUser.full_name data
    /\ User.role row = NewUser.role data
    /\ User.password_hash row = hashPassword (NewUser.password data)
    /\ (forall given stored,
          In (given, stored)
             [(NewUser.university_id data, User.university_id row);
              (NewUser.university_name data, User.university_name row);
              (NewUser.department data, User.department row);
              (NewUser.year_level data, User.year_level row);
              (NewUser.course data, User.course row)] ->
          (given = None \/ given = Some "" -> stored = None)
          /\ (forall v, given = Some v -> v <> "" -> stored = Some v)).
Proof.
  intros Hs Hf Hfree Hsup Hid.
  exists (new_row data (hashPassword (NewUser.password data)) i ts).
  unfold createUser, try_catch. rewrite gate_open by exact Hs.
  unfold bind. rewrite sql_up by exact Hf.
  unfold select_where. cbn [table log fst snd].
  rewrite (not_taken_rows _ _ Hfree). cbn [List.length Nat.ltb Nat.leb].
  rewrite sql_up by exact Hf.
  unfold insert_row. cbn [supply table log]. rewrite Hsup.
  rewrite (absent_existsb i (table w) Hid).
  eexists. do 9 (split; [reflexivity|]).
  assert (Hnull : forall given,
             (given = None \/ given = Some "" -> or_null given = None)
             /\ (forall v, given = Some v -> v <> "" ->
                           or_null given = Some v)).
  { intros [[|c v]|]; split.
    - intros _. reflexivity.
    - intros v [= <-] Hv. now elim Hv.
    - intros [H|H]; discriminate H.
    - intros v' [= <-] _. reflexivity.
    - intros _. reflexivity.
    - intros v [=]. }
  intros given stored Hin. cbn [new_row] in Hin. cbn in Hin.
  destruct Hin as [H|[H|[H|[H|[H|[]]]]]]; injection H as <- <-; apply Hnull.
Qed.

Lemma createUser_stores_the_new_user_witness :
  exists row w',
    createUser (NewUser.mk "eve@lib.org" "pw" "Eve" faculty
                           (Some "U-7") None (Some "") None None)
               (Some root) (mkWorld [alice; root] [("9", 50%Z)] [] [])
      = (Return (mkUserResult (Some row) None), w')
    /\ table w' = [alice; root] ++ [row]
    /\ User.university_id row = Some "U-7"
    /\ User.department row = None.
Proof.
  destruct (createUser_stores_the_new_user
              (NewUser.mk "eve@lib.org" "pw" "Eve" faculty
                          (Some "U-7") None (Some "") None None)
              (Some root) (mkWorld [alice; root] [("9", 50%Z)] [] [])
              "9" 50%Z [])
    as (row & w' & H1 & H2 & _ & _ & _ & _ & _ & _ & _ & Hcols).
  - reflexivity.
  - reflexivity.
  - intros (u & [<-|[<-|[]]] & Hu); discriminate.
  - reflexivity.
  - intros u [<-|[<-|[]]]; discriminate.
  - exists row, w'. split; [exact H1|]. split; [exact H2|]. split.
    + apply (Hcols (Some "U-7") (User.university_id row));
        [left; reflexivity|reflexivity|discriminate].
    + apply (Hcols (Some "") (User.department row)).
      * right; right; left; reflexivity.
      * right; reflexivity.
Defined.

Lemma createUser_row (data : NewUser.t) (s : Session) (w w' : World)
    (u : User) (e : option string) :
  createUser data s w = (Return (mkUserResult (Some u) e), w') ->
  exists i ts,
    u = new_row data (hashPassword (NewUser.password data)) i ts
    /\ In u (table w').
Proof.
  intros Hrun.
  assert (H : hoare s (fun _ => True) (createUser data)
                (fun r w1 => forall u e,
                     r = Return (mkUserResult (Some u) e) ->
                     exists i ts,
                       u = new_row data (hashPassword (NewUser.password data)) i ts
                       /\ In u (table w1))).
  { unfold createUser.
    apply hoare_try with
      (R := fun r w1 => forall u e,
                r = Return (mkUserResult (Some u) e) ->
                exists i ts,
                  u = new_row data (hashPassword (NewUser.password data)) i ts
                  /\ In u (table w1)).
    - apply hoare_bind with (R := fun _ _ => True).
      + apply hoare_requireRole. intros; destruct (is_admin s); exact I.
      + intros _. apply hoare_bind with (R := fun _ _ => True).
        * apply hoare_sql; intros; exact I.
        * intros rows. destruct (0 <? List.length rows)%nat.
          { apply hoare_ret. intros _ _ u0 e0 [=]. }
          apply hoare_bind with
            (R := fun r w1 => forall rows, r = Return rows ->
                      exists i ts,
                        rows = [new_row data
                                  (hashPassword (NewUser.password data)) i ts]
                        /\ In (new_row data
                                 (hashPassword (NewUser.password data)) i ts)
                              (table w1)).
          -- apply hoare_sql.
             ++ intros w0 w1 _ _ rows' Hr.
                destruct (insert_row_result _ _ _ Hr) as (i & ts & -> & Ht & _).
                exists i, ts. split; [reflexivity|].
                rewrite Ht. apply in_or_app. right. now left.
             ++ intros w0 w1 _ _ rows' [=].
          -- intros rows'. apply hoare_ret. intros w0 Hrows u0 e0 [= Hu _].
             destruct (Hrows rows' eq_refl) as (i & ts & -> & Hin).
             cbn in Hu. injection Hu as <-. exists i, ts. split; [reflexivity|exact Hin].
          -- intros e0 w0 _ u0 e1 [=].
        * intros e0 w0 _ u0 e1 [=].
      + intros e0 w0 _ u0 e1 [=].
    - intros a w0 Ha. exact Ha.
    - intros e0. apply hoare_ret. intros w0 _ u0 e1 [=]. }
  pose proof (H w I u e) as Hq. rewrite Hrun in Hq. apply Hq. reflexivity.
Qed.

Lemma createUser_keeps_keys (data : NewUser.t) (s : Session) (w : World) :
  keys_unique (table w) -> keys_unique (table (snd (createUser data s w))).
Proof. intros H. exact (keeps_createUser s data w H). Qed.

(** X2. A user that [createUser] has returned can be fetched and is
    listed: with unique keys before the call and a database that answers
    after it, [getUserById] with the new id returns that very user to any
    caller, and the listing of [part_001] for an admin, without a role
    filter or with the user's role, contains it. *)
Theorem created_user_is_found_and_listed
    (data : NewUser.t) (s : Session) (w w' : World) (u : User) :
  createUser data s w = (Return (mkUserResult (Some u) None), w') ->
  keys_unique (table w) ->
  faults w' = [] ->
  (forall s', fst (getUserById (User.id u) s' w') = Return (Some u))
  /\ (forall s' role,
        is_admin s' = true ->
        role = None \/ role = Some (NewUser.role data) ->
        exists l w2,
          Part001.getUsers role None s' w' = (Return l, w2) /\ In u l).
Proof.
  intros Hrun Hkeys Hf.
  destruct (createUser_row data s w w' u None Hrun) as (i & ts & Hu & Hin).
  assert (Hk' : keys_unique (table w')).
  { pose proof (createUser_keeps_keys data s w Hkeys) as H.
    now rewrite Hrun in H. }
  split.
  - intros s'.
    apply (lookups_need_no_session_aux (User.id u) s' w' Hf u);
      [apply Hk'|exact Hin|reflexivity].
  - intros s' role Hs' Hrole. eexists _, _. split.
    + apply getUsers_admin; assumption.
    + apply order_In. apply filter_In. split; [exact Hin|].
      subst u. unfold listing_filter. cbn.
      destruct Hrole as [->| ->]; [reflexivity|].
      destruct (NewUser.role data); reflexivity.
Qed.

Lemma created_user_is_found_and_listed_witness :
  let w := mkWorld [alice; root] [("9", 50%Z)] [] [] in
  let u := new_row demo (hashPassword "pw") "9" 50%Z in
  let w' := snd (createUser demo (Some root) w) in
  fst (getUserById "9" None w') = Return (Some u).
Proof.
  intros w u w'.
  apply (created_user_is_found_and_listed demo (Some root) w w' u).
  - vm_compute. reflexivity.
  - split; unfold pk_unique, email_unique; cbn;
      repeat constructor; cbn; intuition discriminate.
  - reflexivity.
Defined.

(** ** Changing a password *)

Lemma filter_updated_rows (id : string) (f : User -> User) (t : list User) :
  (forall u, User.id (f u) = User.id u) ->
  filter (has_id id) (map (fun u => if has_id id u then f u else u) t)
  = map f (filter (has_id id) t).
Proof.
  intros Hf. induction t as [|a t IH]; [reflexivity|].
  cbn [map filter]. destruct (has_id id a) eqn:E.
  - unfold has_id in *. rewrite Hf, E. cbn [map]. now rewrite IH.
  - rewrite E. exact IH.
Qed.

Lemma stored_digest_after (me : User) (h : string) (t : list User) :
  stored_digest me t <> None ->
  stored_digest me (with_new_digest me h t) = Some h.
Proof.
  unfold stored_digest, with_new_digest. intros H.
  rewrite filter_updated_rows by reflexivity.
  destruct (filter (has_id (User.id me)) t) as [|row rest]; [now elim H|].
  reflexivity.
Qed.

Lemma password_mismatch (currentPassword newPassword : string) (me : User)
    (w : World) :
  faults w = [] ->
  stored_digest me (table w) <> Some (hashPassword currentPassword) ->
  exists w',
    updateCurrentUserPassword currentPassword newPassword (Some me) w
      = (Return (mkErrorResult (Some "Current password is incorrect")), w')
    /\ table w' = table w.
Proof.
  intros Hf Hno. rewrite password_session. unfold try_catch, bind.
  rewrite sql_up by exact Hf. unfold select_where. cbn [table log].
  destruct (filter (has_id (User.id me)) (table w)) as [|row rest] eqn:E.
  - eexists. split; reflexivity.
  - destruct (String.eqb (User.password_hash row)
                         (hashPassword currentPassword)) eqn:Eh; cbn [negb].
    + exfalso. apply Hno. apply stored_digest_rows. exists row, rest.
      split; [exact E|now apply String.eqb_eq].
    + eexists. split; reflexivity.
Qed.

(** X3. After a successful password change the new password is the one
    that counts: the stored digest is the digest of the new password, a
    further change that supplies the new password as the current one
    succeeds, and one that supplies the old password is refused with
    "Current password is incorrect" and writes nothing, unless the two
    passwords have the same digest. *)
Theorem changed_password_replaces_the_old_one
    (currentPassword newPassword : string) (me : User) (w : World) :
  faults w = [] ->
  stored_digest me (table w) = Some (hashPassword currentPassword) ->
  exists w1,
    updateCurrentUserPassword currentPassword newPassword (Some me) w
      = (Return (mkErrorResult None), w1)
    /\ stored_digest me (table w1) = Some (hashPassword newPassword)
    /\ (forall next, exists w2,
          updateCurrentUserPassword newPassword next (Some me) w1
            = (Return (mkErrorResult None), w2))
    /\ (hashPassword currentPassword <> hashPassword newPassword ->
        forall next, exists w2,
          updateCurrentUserPassword currentPassword next (Some me) w1
            = (Return (mkErrorResult (Some "Current password is incorrect")), w2)
          /\ table w2 = table w1).
Proof.
  intros Hf Hyes.
  assert (Hrun : updateCurrentUserPassword currentPassword newPassword (Some me) w
                 = (Return (mkErrorResult None),
                    with_table (with_new_digest me (hashPassword newPassword)
                                                (table w))
                      (log (EvSql (mkStmt "UPDATE users SET password_hash = $1 WHERE id = $2"
                                          [Some (hashPassword newPassword);
                                           Some (User.id me)]))
                         (log (EvSql (mkStmt "SELECT password_hash FROM users WHERE id = $1"
                                             [Some (User.id me)]))
                            (log EvSession w))))).
  { apply stored_digest_rows in Hyes. destruct Hyes as (row & rest & E & Hh).
    rewrite password_session. unfold try_catch, bind.
    rewrite sql_up by exact Hf.
    unfold select_where. cbn [table log]. rewrite E.
    rewrite Hh, String.eqb_refl. cbn [negb].
    rewrite sql_up by exact Hf. reflexivity. }
  eexists. split; [exact Hrun|].
  set (w1 := with_table _ _).
  assert (Hf1 : faults w1 = []) by exact Hf.
  assert (Hd1 : stored_digest me (table w1) = Some (hashPassword newPassword)).
  { apply stored_digest_after. rewrite Hyes. discriminate. }
  split; [exact Hd1|]. split.
  - intros next.
    destruct (password_right newPassword next me w1 Hf1 Hd1) as (w2 & H2 & _).
    now exists w2.
  - intros Hne next. apply password_mismatch; [exact Hf1|].
    rewrite Hd1. congruence.
Qed.

Lemma changed_password_replaces_the_old_one_witness :
  exists w1,
    updateCurrentUserPassword "secret" "renewed" (Some alice) (fresh [alice; root])
      = (Return (mkErrorResult None), w1)
    /\ stored_digest alice (table w1) = Some (hashPassword "renewed").
Proof.
  destruct (changed_password_replaces_the_old_one
              "secret" "renewed" alice (fresh [alice; root]))
    as (w1 & H1 & H2 & _).
  - reflexivity.
  - vm_compute. reflexivity.
  - exists w1. split; assumption.
Defined.


(** ** Updating a user *)

Lemma sql_ext {A} (text : string) (params : list Param)
    (body body' : World -> Outcome A * World) (s : Session) (w : World) :
  (forall w0, body w0 = body' w0) ->
  sql text params body s w = sql text params body' s w.
Proof.
  intros H. unfold sql. destruct (faults _) as [|[|] rest];
    [apply H|reflexivity|apply H].
Qed.

Lemma update_where_ext (p : User -> bool) (f g : User -> User) (w : World) :
  (forall u, f u = g u) -> update_where p f w = update_where p g w.
Proof.
  intros H. unfold update_where.
  rewrite (map_ext f g H).
  rewrite (map_ext (fun u => if p u then f u else u)
                   (fun u => if p u then g u else u)); [reflexivity|].
  intros u. now rewrite H.
Qed.

Lemma entry_assign_undefined (e : Entry) (u : User) :
  entry_value e = None -> entry_assign e u = u.
Proof.
  destruct e as [[v|]|[v|]|[v|]|[v|]|[v|]|[v|]|[v|]|[v|]|[v|]|[v|]];
    cbn; intros H; try discriminate; reflexivity.
Qed.

Lemma assign_all_defined (data : list Entry) (u : User) :
  assign_all (defined_entries data) u = assign_all data u.
Proof.
  unfold assign_all, defined_entries. revert u.
  induction data as [|e data IH]; intros u; [reflexivity|].
  cbn [filter fold_left]. destruct (entry_value e) as [v|] eqn:E; cbn [is_some].
  - cbn [fold_left]. apply IH.
  - rewrite (entry_assign_undefined e u E). apply IH.
Qed.

Lemma collect_from_defined (data : list Entry) (acc : list string * list Param) :
  fold_left collect_step (defined_entries data) acc
  = fold_left collect_step data acc.
Proof.
  unfold defined_entries. revert acc.
  induction data as [|e data IH]; intros acc; [reflexivity|].
  cbn [filter fold_left]. destruct (entry_value e) as [v|] eqn:E; cbn [is_some].
  - cbn [fold_left]. apply IH.
  - rewrite (collect_step_none acc e E). apply IH.
Qed.

Lemma collect_defined (data : list Entry) :
  collect (defined_entries data) = collect data.
Proof. apply (collect_from_defined data ([], [])). Qed.

(** X4. Properties of the argument of [updateUser] that are present but
    undefined count for nothing: the call does exactly what the call with
    only the defined properties does, for every caller and database: the
    same outcome, the same statement and parameters, the same rows. *)
Theorem updateUser_ignores_undefined_properties
    (id : string) (data : list Entry) (s : Session) (w : World) :
  updateUser id data s w = updateUser id (defined_entries data) s w.
Proof.
  unfold updateUser, try_catch, bind.
  destruct (requireRole [admin] s w) as [[[]|e] w1]; [|reflexivity].
  rewrite collect_defined.
  destruct (collect data) as [updates values].
  destruct (List.length updates =? 0)%nat; [reflexivity|].
  rewrite (sql_ext _ _ (update_where (has_id id) (assign_all data))
                   (update_where (has_id id)
                                 (assign_all (defined_entries data)))).
  - reflexivity.
  - intros w0. apply update_where_ext. intros u.
    symmetry. apply assign_all_defined.
Qed.

Lemma collect_values_from (data : list Entry) (updates : list string)
    (values : list Param) :
  snd (fold_left collect_step data (updates, values))
  = values ++ map entry_value (defined_entries data).
Proof.
  unfold defined_entries. revert updates values.
  induction data as [|e data IH]; intros updates values; cbn [fold_left filter].
  - cbn. now rewrite app_nil_r.
  - destruct (entry_value e) as [v|] eqn:E; cbn [is_some].
    + rewrite (collect_step_some updates values e v E). rewrite IH.
      cbn [map]. rewrite E. rewrite <- app_assoc. reflexivity.
    + rewrite (collect_step_none (updates, values) e E). apply IH.
Qed.

Lemma collect_values (data : list Entry) :
  snd (collect data) = map entry_value (defined_entries data).
Proof. apply (collect_values_from data [] []). Qed.

Lemma numbered_nth (m n : nat) (keys : list string) (k : string) :
  nth_error keys n = Some k ->
  nth_error (numbered m keys) n = Some (k ++ " = $" ++ dec (m + n + 1))%string.
Proof.
  revert m n. induction keys as [|a keys IH]; intros m n; [destruct n; discriminate|].
  destruct n as [|n]; cbn [nth_error numbered].
  - intros [= ->]. now rewrite Nat.add_0_r.
  - intros H. rewrite (IH (S m) n H).
    replace (S m + n + 1) with (m + S n + 1) by lia. reflexivity.
Qed.

Lemma events_since_two (w : World) (t : list User) (e1 e2 : Event) :
  events_since w (with_table t (log e2 (log e1 w))) = [e1; e2].
Proof.
  unfold events_since. cbn [trace with_table log].
  rewrite <- app_assoc. rewrite skipn_app, Nat.sub_diag, skipn_all.
  reflexivity.
Qed.

(** X5. The one statement an admin's [updateUser] sends is well formed:
    its text sets the defined properties in their order, the n-th of them
    to placeholder [$n], and compares the id with the placeholder after
    the last; its parameters are the values of those properties in the
    same order, followed by the id. *)
Theorem updateUser_statement_binds_in_order
    (id : string) (data : list Entry) (s : Session) (w : World) :
  is_admin s = true ->
  faults w = [] ->
  defined_keys data <> [] ->
  statements (events_since w (snd (updateUser id data s w)))
  = [mkStmt ("UPDATE users SET " ++ join ", " (numbered 0 (defined_keys data))
               ++ " WHERE id = $" ++ dec (S (List.length (defined_keys data)))
               ++ " RETURNING *")%string
            (map entry_value (defined_entries data) ++ [Some id])]
  /\ (forall n e,
        nth_error (defined_entries data) n = Some e ->
        nth_error (numbered 0 (defined_keys data)) n
          = Some (entry_key e ++ " = $" ++ dec (n + 1))%string
        /\ nth_error (map entry_value (defined_entries data) ++ [Some id]) n
          = Some (entry_value e))
  /\ nth_error (map entry_value (defined_entries data) ++ [Some id])
               (List.length (defined_keys data))
     = Some (Some id).
Proof.
  intros Hs Hf Hk. split; [|split].
  - rewrite (updateUser_sends id data s w Hs Hf Hk). cbn [snd].
    rewrite events_since_two. cbn [statements]. unfold updateUser_stmt.
    rewrite collect_updates, collect_values. unfold update_text.
    rewrite length_app, length_map. cbn [List.length].
    replace (List.length (defined_entries data) + 1)
      with (S (List.length (defined_keys data))).
    + reflexivity.
    + unfold defined_keys, defined_entries. rewrite length_map. lia.
  - intros n e He. split.
    + apply (numbered_nth 0 n). unfold defined_keys.
      fold (defined_entries data). now rewrite nth_error_map, He.
    + rewrite nth_error_app1.
      * now rewrite nth_error_map, He.
      * rewrite length_map. apply nth_error_Some. congruence.
  - rewrite nth_error_app2.
    + unfold defined_keys, defined_entries. rewrite !length_map.
      now rewrite Nat.sub_diag.
    + unfold defined_keys, defined_entries. rewrite !length_map. lia.
Qed.

Lemma updateUser_statement_binds_in_order_witness :
  statements (events_since (fresh [alice; root])
                (snd (updateUser "1" [e_full_name (Some "Al"); e_phone None;
                                      e_role (Some faculty)]
                                 (Some root) (fresh [alice; root]))))
  = [mkStmt ("UPDATE users SET "
               ++ join ", " (numbered 0 (defined_keys
                                           [e_full_name (Some "Al"); e_phone None;
                                            e_role (Some faculty)]))
               ++ " WHERE id = $"
               ++ dec (S (List.length (defined_keys
                                         [e_full_name (Some "Al"); e_phone None;
                                          e_role (Some faculty)])))
               ++ " RETURNING *")%string
            (map entry_value (defined_entries
                                [e_full_name (Some "Al"); e_phone None;
                                 e_role (Some faculty)]) ++ [Some "1"])].
Proof.
  apply (updateUser_statement_binds_in_order
           "1" [e_full_name (Some "Al"); e_phone None; e_role (Some faculty)]
           (Some root) (fresh [alice; root])).
  - reflexivity.
  - reflexivity.
  - discriminate.
Defined.

(** The statement of the witness, written out. *)
Example updateUser_statement_example :
  statements (events_since (fresh [alice; root])
                (snd (updateUser "1" [e_full_name (Some "Al"); e_phone None;
                                      e_role (Some faculty)]
                                 (Some root) (fresh [alice; root]))))
  = [mkStmt "UPDATE users SET full_name = $1, role = $2 WHERE id = $3 RETURNING *"
            [Some "Al"; Some "faculty"; Some "1"]].
Proof. vm_compute. reflexivity. Qed.


Lemma pk_unique_same (t : list User) (u v : User) :
  pk_unique t -> In u t -> In v t -> User.id u = User.id v -> u = v.
Proof.
  unfold pk_unique. induction t as [|a t IH]; intros Hnd Hu Hv Hid;
    [destruct Hu|].
  cbn [map] in Hnd. inversion Hnd as [|x l Hnotin Hnd']; subst.
  destruct Hu as [->|Hu], Hv as [->|Hv].
  - reflexivity.
  - exfalso. apply Hnotin. rewrite Hid. now apply in_map.
  - exfalso. apply Hnotin. rewrite <- Hid. now apply in_map.
  - now apply IH.
Qed.

(** *** What the [UPDATE] of [updateUser] assigns *)

Lemma entry_assign_identity (e : Entry) : keeps_identity (entry_assign e).
Proof.
  intros u. destruct e as [[v|]|[v|]|[v|]|[v|]|[v|]|[v|]|[v|]|[v|]|[v|]|[v|]];
    repeat split; reflexivity.
Qed.

Lemma assign_all_identity (data : list Entry) : keeps_identity (assign_all data).
Proof.
  unfold assign_all. induction data as [|e data IH]; intros u; cbn [fold_left].
  - repeat split; reflexivity.
  - destruct (IH (entry_assign e u)) as (H1 & H2 & H3 & H4).
    destruct (entry_assign_identity e u) as (G1 & G2 & G3 & G4).
    repeat split; congruence.
Qed.

Lemma column_after_assign (e e' : Entry) (u : User) :
  column_value e (entry_assign e' u)
  = if String.eqb (entry_key e) (entry_key e') && is_some (entry_value e')
    then entry_value e' else column_value e u.
Proof.
  destruct e, e' as [[v'|]|[v'|]|[v'|]|[v'|]|[v'|]|[v'|]|[v'|]|[v'|]|[v'|]|[v'|]];
    reflexivity.
Qed.

Lemma defined_keys_head (e : Entry) (data : list Entry) :
  defined_keys (e :: data)
  = if is_some (entry_value e) then entry_key e :: defined_keys data
    else defined_keys data.
Proof.
  unfold defined_keys. cbn [filter].
  destruct (is_some (entry_value e)); reflexivity.
Qed.

Lemma column_untouched (e : Entry) (data : list Entry) (u : User) :
  ~ In (entry_key e) (defined_keys data) ->
  column_value e (assign_all data u) = column_value e u.
Proof.
  revert u. induction data as [|e' data IH]; intros u Hout; [reflexivity|].
  unfold assign_all. cbn [fold_left]. fold (assign_all data (entry_assign e' u)).
  rewrite defined_keys_head in Hout.
  rewrite IH.
  - rewrite column_after_assign.
    destruct (is_some (entry_value e')); [|now rewrite andb_false_r].
    destruct (String.eqb (entry_key e) (entry_key e')) eqn:E; [|reflexivity].
    apply String.eqb_eq in E. exfalso. apply Hout. left. now symmetry.
  - intros Hin. apply Hout.
    destruct (is_some (entry_value e')); [right|]; exact Hin.
Qed.

Lemma column_assigned (e : Entry) (data : list Entry) (u : User) :
  NoDup (defined_keys data) ->
  In e (defined_entries data) ->
  column_value e (assign_all data u) = entry_value e.
Proof.
  revert u. induction data as [|e' data IH]; intros u Hnd Hin; [destruct Hin|].
  unfold assign_all. cbn [fold_left]. fold (assign_all data (entry_assign e' u)).
  rewrite defined_keys_head in Hnd.
  unfold defined_entries in Hin. cbn [filter] in Hin.
  fold (defined_entries data) in Hin.
  destruct (is_some (entry_value e')) eqn:Ed.
  - inversion Hnd as [|k ks Hnotin Hnd']; subst.
    destruct Hin as [->|Hin].
    + rewrite column_untouched by exact Hnotin.
      rewrite column_after_assign, String.eqb_refl, Ed. reflexivity.
    + apply IH; assumption.
  - apply IH; assumption.
Qed.

Lemma update_in_place (id : string) (g : User -> User) (u : User)
    (t : list User) :
  pk_unique t -> In u t -> User.id u = id ->
  map (fun v => if has_id id v then g v else v) t
  = map (fun v => if has_id id v then g u else v) t.
Proof.
  intros Hpk Hin Hid. apply map_ext_in. intros v Hv.
  destruct (has_id id v) eqn:E; [|reflexivity].
  apply has_id_true in E.
  rewrite (pk_unique_same t u v Hpk Hin Hv) by congruence. reflexivity.
Qed.

Lemma updateUser_stores
    (id : string) (data : list Entry) (u : User) (s : Session) (w : World) :
  is_admin s = true ->
  faults w = [] ->
  pk_unique (table w) ->
  In u (table w) ->
  User.id u = id ->
  defined_keys data <> [] ->
  exists w',
    updateUser id data s w
      = (Return (mkUserResult (Some (assign_all data u)) None), w')
    /\ table w'
       = map (fun v => if has_id id v then assign_all data v else v) (table w)
    /\ In (assign_all data u) (table w')
    /\ (forall s',
          fst (getUserById id s' w') = Return (Some (assign_all data u)))
    /\ (forall v, In v (table w) -> User.id v <> id -> In v (table w')).
Proof.
  intros Hs Hf Hpk Hin Hid Hk.
  rewrite (updateUser_sends id data s w Hs Hf Hk).
  rewrite (hd_filter_unique id u (table w) Hpk Hin Hid).
  eexists. split; [reflexivity|].
  cbn [table with_table]. split; [reflexivity|].
  assert (Hnew : In (assign_all data u)
                    (map (fun v => if has_id id v then assign_all data v else v)
                         (table w))).
  { apply in_map_iff. exists u. split; [|exact Hin].
    now rewrite (proj2 (has_id_true id u) Hid). }
  split; [exact Hnew|]. split.
  - intros s'. unfold getUserById, bind.
    rewrite sql_up by exact Hf. unfold select_where.
    cbn [table log with_table fst].
    rewrite filter_updated_rows by (intros v; apply assign_all_keys).
    now rewrite (hd_filter_unique id u (table w) Hpk Hin Hid).
  - intros v Hv Hne. apply in_map_iff. exists v. split; [|exact Hv].
    now rewrite (has_id_false id v Hne).
Qed.


(** X6. An admin's [updateUser] on a stored user, with at least one
    defined property, unique ids and a database that answers, returns the
    row as it is after the update and stores it in place of the old one;
    [getUserById] returns it afterwards, and the rows of other ids stay.
    In the row returned, the column that a defined property names holds
    the value of that property (the names of an object's properties
    being distinct), every column that no defined property names holds
    what it held, and the id, the email, the password digest and the
    creation time are those of the old row. *)
Theorem updateUser_returns_the_stored_row
    (id : string) (data : list Entry) (u : User) (s : Session) (w : World) :
  is_admin s = true ->
  faults w = [] ->
  pk_unique (table w) ->
  In u (table w) ->
  User.id u = id ->
  defined_keys data <> [] ->
  exists row w',
    updateUser id data s w = (Return (mkUserResult (Some row) None), w')
    /\ (NoDup (defined_keys data) ->
        forall e, In e data -> entry_value e <> None ->
                  column_value e row = entry_value e)
    /\ (forall e, ~ In (entry_key e) (defined_keys data) ->
                  column_value e row = column_value e u)
    /\ (User.id row = id
        /\ User.email row = User.email u
        /\ User.password_hash row = User.password_hash u
        /\ User.created_at row = User.created_at u)
    /\ table w' = map (fun v => if has_id id v then row else v) (table w)
    /\ In row (table w')
    /\ (forall s', fst (getUserById id s' w') = Return (Some row))
    /\ (forall v, In v (table w) -> User.id v <> id -> In v (table w')).
Proof.
  intros Hs Hf Hpk Hin Hid Hk.
  destruct (updateUser_stores id data u s w Hs Hf Hpk Hin Hid Hk)
    as (w' & Hrun & Ht & Hnew & Hget & Hrest).
  exists (assign_all data u), w'.
  split; [exact Hrun|].
  split.
  { intros Hnd e He Hv. apply column_assigned; [exact Hnd|].
    apply filter_In. split; [exact He|].
    destruct (entry_value e); [reflexivity|now elim Hv]. }
  split; [intros e He; apply column_untouched, He|].
  split.
  { destruct (assign_all_identity data u) as (H1 & H2 & H3 & H4).
    split; [congruence|]. split; [exact H2|]. split; [exact H3|exact H4]. }
  split; [rewrite Ht; apply update_in_place; assumption|].
  split; [exact Hnew|]. split; [exact Hget|exact Hrest].
Qed.

Lemma updateUser_returns_the_stored_row_witness :
  exists row w',
    updateUser "1" [e_phone (Some "555"); e_status (Some suspended)]
               (Some root) (fresh [alice; root])
      = (Return (mkUserResult (Some row) None), w')
    /\ User.phone row = Some "555"
    /\ status_text (User.status row) = "suspended"
    /\ User.full_name row = "alice smith"
    /\ table w' = [row; root].
Proof.
  destruct (updateUser_returns_the_stored_row
              "1" [e_phone (Some "555"); e_status (Some suspended)] alice
              (Some root) (fresh [alice; root]))
    as (row & w' & H1 & Hset & Hkept & _ & Ht & _).
  - reflexivity.
  - reflexivity.
  - unfold pk_unique. cbn. repeat constructor; cbn; intuition discriminate.
  - left; reflexivity.
  - reflexivity.
  - discriminate.
  - assert (Hnd : NoDup (defined_keys [e_phone (Some "555");
                                        e_status (Some suspended)])).
    { cbn. repeat constructor; cbn; intuition discriminate. }
    exists row, w'. split; [exact H1|]. split.
    { apply (Hset Hnd (e_phone (Some "555")));
        [left; reflexivity|discriminate]. }
    split.
    { pose proof (Hset Hnd (e_status (Some suspended))
                       (or_intror (or_introl eq_refl))) as H.
      cbn in H. injection H; [trivial|discriminate]. }
    split.
    { pose proof (Hkept (e_full_name None)) as H. cbn in H.
      injection H; [trivial|]. intros [H0|[H0|[]]]; discriminate H0. }
    exact Ht.
Defined.

(** ** What the admin edits leave alone *)

Lemma admin_edit_refl (id : string) (t : list User) :
  Forall2 (admin_edit id) t t.
Proof.
  induction t as [|a t IH]; constructor; [|exact IH].
  repeat split; reflexivity.
Qed.

Lemma Forall2_map_self {A} (rel : A -> A -> Prop) (g : A -> A) (l : list A) :
  (forall x, rel x (g x)) -> Forall2 rel l (map g l).
Proof.
  intros H. induction l as [|a l IH]; cbn; constructor; [apply H|exact IH].
Qed.

Lemma admin_edit_update (id : string) (g : User -> User) :
  keeps_identity g ->
  body_evolves (Forall2 (admin_edit id)) (update_where (has_id id) g).
Proof.
  intros Hg w. cbn [update_where snd table with_table].
  apply Forall2_map_self. intros u.
  destruct (has_id id u) eqn:E.
  - destruct (Hg u) as (H1 & H2 & H3 & H4). repeat split; try assumption.
    intros Hne. apply has_id_true in E. contradiction.
  - repeat split; reflexivity.
Qed.

Lemma evolves_gated_update (R : list User -> list User -> Prop)
    (s : Session) (text : string) (params : list Param)
    (p : User -> bool) (g : User -> User) (r r' : ErrorResult) :
  (forall t, R t t) ->
  body_evolves R (update_where p g) ->
  evolves R s
    (try_catch
       (requireRole [admin] ;;;
        sql text params (update_where p g) ;;;
        ret r)
       (ret r')).
Proof.
  intros Hrefl Hb.
  apply evolves_try; [|apply quiet_ret].
  apply evolves_after_quiet; [exact Hrefl|apply quiet_requireRole|].
  intros _. apply evolves_then_quiet; [apply evolves_sql; assumption|].
  intros a. apply quiet_ret.
Qed.

(** X7. Whoever calls them and whatever the database does, [updateUser],
    [updateUserRole], [updateUserStatus] and the soft [deleteUser] keep
    the number and order of the rows, never change the id, the email, the
    password digest or the creation time of any row, and leave every row
    of another id than the one they are given exactly as it was. *)
Theorem admin_edits_keep_identity_and_other_rows
    (id : string) (data : list Entry) (role : UserRole) (status : UserStatus)
    (s : Session) (w : World) :
  Forall2 (admin_edit id) (table w) (table (snd (updateUser id data s w)))
  /\ Forall2 (admin_edit id) (table w)
             (table (snd (updateUserRole id role s w)))
  /\ Forall2 (admin_edit id) (table w)
             (table (snd (updateUserStatus id status s w)))
  /\ Forall2 (admin_edit id) (table w)
             (table (snd (Part001.deleteUser id s w))).
Proof.
  repeat split.
  - revert w. change (evolves (Forall2 (admin_edit id)) s (updateUser id data)).
    unfold updateUser.
    apply evolves_try; [|apply quiet_ret].
    apply evolves_after_quiet;
      [apply admin_edit_refl|apply quiet_requireRole|].
    intros _. destruct (collect data) as [updates values].
    destruct (List.length updates =? 0)%nat.
    + apply quiet_evolves; [apply admin_edit_refl|apply quiet_ret].
    + apply evolves_then_quiet; [|intros a; apply quiet_ret].
      apply evolves_sql; [apply admin_edit_refl|].
      apply admin_edit_update, assign_all_identity.
  - revert w.
    change (evolves (Forall2 (admin_edit id)) s (updateUserRole id role)).
    apply evolves_gated_update; [apply admin_edit_refl|].
    apply admin_edit_update. intros u. repeat split; reflexivity.
  - revert w.
    change (evolves (Forall2 (admin_edit id)) s (updateUserStatus id status)).
    apply evolves_gated_update; [apply admin_edit_refl|].
    apply admin_edit_update. intros u. repeat split; reflexivity.
  - revert w.
    change (evolves (Forall2 (admin_edit id)) s (Part001.deleteUser id)).
    apply evolves_gated_update; [apply admin_edit_refl|].
    apply admin_edit_update. intros u. repeat split; reflexivity.
Qed.

(** ** Soft delete and status *)

(** X8. The soft [deleteUser] of [part_001] is [updateUserStatus] with
    the status inactive: for every caller and database the two leave the
    same rows, and one reports success exactly when the other does. *)
Theorem soft_delete_is_a_status_update
    (id : string) (s : Session) (w : World) :
  table (snd (Part001.deleteUser id s w))
    = table (snd (updateUserStatus id inactive s w))
  /\ (fst (Part001.deleteUser id s w) = Return (mkErrorResult None)
      <-> fst (updateUserStatus id inactive s w) = Return (mkErrorResult None)).
Proof.
  unfold Part001.deleteUser, updateUserStatus.
  destruct (is_admin s) eqn:Hs.
  - unfold try_catch. rewrite !gate_open by exact Hs.
    unfold bind, sql. cbn [faults log].
    destruct (faults w) as [|[|] rest]; cbn; split; try reflexivity;
      split; intros H; discriminate.
  - rewrite !gate_closed_caught by exact Hs. cbn. split; [reflexivity|].
    split; intros H; discriminate.
Qed.

Lemma set_status_back (u : User) :
  User.set_status (User.status u) (User.set_status inactive u) = u.
Proof. destruct u; reflexivity. Qed.

(** X9. A soft delete can be undone: after an admin's [deleteUser] on a
    stored user of [part_001], [updateUserStatus] with the status the
    user had gives back exactly the table from before the delete (ids
    unique, database answering). *)
Theorem soft_delete_is_undone_by_status_update
    (id : string) (u : User) (s : Session) (w : World) :
  is_admin s = true ->
  faults w = [] ->
  pk_unique (table w) ->
  In u (table w) ->
  User.id u = id ->
  exists w1 w2,
    Part001.deleteUser id s w = (Return (mkErrorResult None), w1)
    /\ updateUserStatus id (User.status u) s w1
       = (Return (mkErrorResult None), w2)
    /\ table w2 = table w.
Proof.
  intros Hs Hf Hpk Hin Hid.
  rewrite (soft_delete_admin id s w Hs Hf).
  eexists _, _. split; [reflexivity|].
  unfold updateUserStatus, try_catch. rewrite gate_open by exact Hs.
  unfold bind. rewrite sql_up by exact Hf.
  split; [reflexivity|].
  cbn [update_where snd table with_table log].
  unfold soft_deleted. rewrite map_map.
  rewrite <- (map_id (table w)) at 2. apply map_ext_in.
  intros v Hv. destruct (has_id id v) eqn:E.
  - assert (v = u).
    { apply (pk_unique_same (table w)); try assumption.
      apply has_id_true in E. congruence. }
    subst v. unfold has_id in *. cbn. rewrite E. apply set_status_back.
  - now rewrite E.
Qed.

Lemma soft_delete_is_undone_by_status_update_witness :
  exists w1 w2,
    Part001.deleteUser "1" (Some root) (fresh [alice; root])
      = (Return (mkErrorResult None), w1)
    /\ updateUserStatus "1" (User.status alice) (Some root) w1
       = (Return (mkErrorResult None), w2)
    /\ table w2 = table (fresh [alice; root]).
Proof.
  apply (soft_delete_is_undone_by_status_update
           "1" alice (Some root) (fresh [alice; root])).
  - reflexivity.
  - reflexivity.
  - unfold pk_unique. cbn. repeat constructor; cbn; intuition discriminate.
  - left; reflexivity.
  - reflexivity.
Defined.


(** ** Hard delete *)

Lemma filter_split_length {A} (p : A -> bool) (l : list A) :
  List.length l
  = List.length (filter p l) + List.length (filter (fun x => negb (p x)) l).
Proof.
  induction l as [|a l IH]; [reflexivity|].
  cbn [filter]. destruct (p a); cbn [negb List.length]; lia.
Qed.

(** X10. An admin's [deleteUser] of [user-actions.ts], with a database
    that answers, removes the rows of the id and nothing else: it returns
    [{ error: null }], no row of the id is left, [getUserById] then
    returns [null] to any caller, the rows of other ids are the same in
    the same order, and with unique ids the table of a stored user gets
    shorter by one and [total_users] of that file's statistics drops by
    one. *)
Theorem hard_delete_removes_the_row
    (id : string) (s : Session) (w : World) :
  is_admin s = true ->
  faults w = [] ->
  exists w',
    UserActions.deleteUser id s w = (Return (mkErrorResult None), w')
    /\ table w' = filter (fun u => negb (has_id id u)) (table w)
    /\ absent id (table w')
    /\ (forall s', fst (getUserById id s' w') = Return None)
    /\ (forall v, User.id v <> id -> (In v (table w') <-> In v (table w)))
    /\ (forall u,
          pk_unique (table w) -> In u (table w) -> User.id u = id ->
          List.length (table w) = S (List.length (table w'))
          /\ UserStats.total_users (UserActions.stats_of (table w))
             = S (UserStats.total_users (UserActions.stats_of (table w')))).
Proof.
  intros Hs Hf.
  unfold UserActions.deleteUser, try_catch. rewrite gate_open by exact Hs.
  unfold bind. rewrite sql_up by exact Hf.
  eexists. split; [reflexivity|].
  cbn [delete_where snd table with_table log].
  split; [reflexivity|].
  assert (Habs : absent id (filter (fun u => negb (has_id id u)) (table w))).
  { intros v Hv Hid. apply filter_In in Hv. destruct Hv as [_ Hv].
    rewrite (proj2 (has_id_true id v) Hid) in Hv. discriminate. }
  split; [exact Habs|]. split.
  - intros s'. unfold getUserById, bind. rewrite sql_up by exact Hf.
    unfold select_where. cbn [table log with_table fst].
    rewrite filter_none; [reflexivity|].
    intros v Hv. apply has_id_false. now apply Habs.
  - split.
    + intros v Hne. rewrite filter_In. rewrite (has_id_false id v Hne).
      cbn. tauto.
    + intros u Hpk Hin Hid.
      assert (Hlen : List.length (table w)
                     = S (List.length (filter (fun u => negb (has_id id u))
                                              (table w)))).
      { rewrite (filter_split_length (has_id id) (table w)).
        now rewrite (hd_filter_unique id u (table w) Hpk Hin Hid). }
      split; exact Hlen.
Qed.

Lemma hard_delete_removes_the_row_witness :
  exists w',
    UserActions.deleteUser "1" (Some root) (fresh [alice; root])
      = (Return (mkErrorResult None), w')
    /\ table w'
       = filter (fun u => negb (has_id "1" u)) (table (fresh [alice; root]))
    /\ absent "1" (table w').
Proof.
  destruct (hard_delete_removes_the_row "1" (Some root) (fresh [alice; root]))
    as (w' & H1 & H2 & H3 & _).
  - reflexivity.
  - reflexivity.
  - exists w'. repeat split; assumption.
Defined.

(** ** Statistics *)

Lemma count_cons (p : User -> bool) (a : User) (t : list User) :
  count p (a :: t) = (if p a then 1 else 0) + count p t.
Proof. unfold count. cbn [filter]. destruct (p a); reflexivity. Qed.

Lemma count_ext (p q : User -> bool) (t : list User) :
  (forall u, p u = q u) -> count p t = count q t.
Proof. intros H. unfold count. now rewrite (filter_ext p q H). Qed.

Lemma count_le (p q : User -> bool) (t : list User) :
  (forall u, p u = true -> q u = true) -> count p t <= count q t.
Proof.
  intros H. induction t as [|a t IH]; [reflexivity|].
  rewrite !count_cons. destruct (p a) eqn:E.
  - rewrite (H a E). lia.
  - destruct (q a); lia.
Qed.

Lemma count_by_role (q : User -> bool) (t : list User) :
  count q t
  = count (fun u => is_role student u && q u) t
    + count (fun u => is_role faculty u && q u) t
    + count (fun u => is_role librarian u && q u) t
    + count (fun u => is_role admin u && q u) t.
Proof.
  induction t as [|a t IH]; [reflexivity|].
  rewrite !count_cons, IH. unfold is_role.
  destruct (User.role a), (q a); cbn; lia.
Qed.

Lemma count_split (p q : User -> bool) (t : list User) :
  count p t
  = count (fun u => p u && q u) t + count (fun u => p u && negb (q u)) t.
Proof.
  induction t as [|a t IH]; [reflexivity|].
  rewrite !count_cons, IH. destruct (p a), (q a); cbn; lia.
Qed.

Lemma count_all (t : list User) : count (fun _ => true) t = List.length t.
Proof. unfold count. now rewrite filter_all. Qed.

(** X11. In the statistics of both files the four role counts add up to
    [total_users], and [active_users] never exceeds it. *)
Theorem statistics_add_up (t : list User) :
  (UserStats.total_users (Part001.stats_of t)
   = UserStats.students (Part001.stats_of t)
     + UserStats.faculty (Part001.stats_of t)
     + UserStats.librarians (Part001.stats_of t)
     + UserStats.admins (Part001.stats_of t)
   /\ UserStats.active_users (Part001.stats_of t)
      <= UserStats.total_users (Part001.stats_of t))
  /\ (UserStats.total_users (UserActions.stats_of t)
      = UserStats.students (UserActions.stats_of t)
        + UserStats.faculty (UserActions.stats_of t)
        + UserStats.librarians (UserActions.stats_of t)
        + UserStats.admins (UserActions.stats_of t)
      /\ UserStats.active_users (UserActions.stats_of t)
         <= UserStats.total_users (UserActions.stats_of t)).
Proof.
  split; split; cbn.
  - apply count_by_role.
  - apply count_le. intros u. unfold is_status, not_inactive, is_status.
    destruct (User.status u); cbn; congruence.
  - rewrite <- count_all. rewrite (count_by_role (fun _ => true)).
    assert (E : forall r, count (fun u => is_role r u && true) t
                          = count (is_role r) t).
    { intros r. apply count_ext. intros u. apply andb_true_r. }
    rewrite !E. reflexivity.
  - rewrite <- count_all. apply count_le. reflexivity.
Qed.

(** X12. The two files count differently: the statistics of
    [user-actions.ts] are those of [part_001] plus the inactive rows, in
    the total and in each role count; [active_users] is the same in
    both. *)
Theorem statistics_differ_by_inactive_rows (t : list User) (r : UserRole) :
  UserStats.total_users (UserActions.stats_of t)
    = UserStats.total_users (Part001.stats_of t) + count (is_status inactive) t
  /\ role_count r (UserActions.stats_of t)
     = role_count r (Part001.stats_of t)
       + count (fun u => is_role r u && is_status inactive u) t
  /\ UserStats.active_users (UserActions.stats_of t)
     = UserStats.active_users (Part001.stats_of t).
Proof.
  split; [|split; [|reflexivity]].
  - cbn. rewrite <- count_all.
    rewrite (count_split (fun _ => true) not_inactive t). cbn.
    f_equal. apply count_ext. intros u. unfold not_inactive.
    now rewrite negb_involutive.
  - destruct r; cbn;
      match goal with
      | |- count (is_role ?x) t = _ =>
          rewrite (count_split (is_role x) not_inactive t)
      end;
      f_equal; apply count_ext; intros u; unfold not_inactive;
      now rewrite negb_involutive.
Qed.

Lemma order_length (l : list User) :
  List.length (order_by_created_at_desc l) = List.length l.
Proof. apply Permutation_length, order_perm. Qed.

(** X13. In [part_001] the listing and the statistics agree: for an admin
    and a database that answers, the unfiltered listing has [total_users]
    rows and the listing for a role has as many rows as the statistics
    count for that role. *)
Theorem listing_agrees_with_statistics
    (s : Session) (w : World) (r : UserRole) :
  is_admin s = true ->
  faults w = [] ->
  exists all of_role st w1 w2 w3,
    Part001.getUsers None None s w = (Return all, w1)
    /\ Part001.getUsers (Some r) None s w = (Return of_role, w2)
    /\ Part001.getUserStats s w = (Return st, w3)
    /\ List.length all = UserStats.total_users st
    /\ List.length of_role = role_count r st.
Proof.
  intros Hs Hf.
  rewrite !getUsers_admin by assumption.
  unfold Part001.getUserStats, bind. rewrite sql_up by exact Hf.
  eexists _, _, _, _, _, _. split; [reflexivity|].
  split; [reflexivity|]. split; [reflexivity|].
  rewrite !order_length. cbn [table log]. split.
  - cbn. apply (count_ext (listing_filter None None) not_inactive).
    intros u. unfold listing_filter, not_inactive, is_status.
    now rewrite !andb_true_r.
  - destruct r; cbn;
      match goal with
      | |- _ = count ?q _ => apply (count_ext _ q)
      end;
      intros u; unfold listing_filter, not_inactive, is_status, is_role;
      cbn; rewrite andb_true_r; apply andb_comm.
Qed.

Lemma listing_agrees_with_statistics_witness :
  exists all of_role st w1 w2 w3,
    Part001.getUsers None None (Some root) (fresh [alice; root; ghost])
      = (Return all, w1)
    /\ Part001.getUsers (Some student) None (Some root)
                        (fresh [alice; root; ghost])
       = (Return of_role, w2)
    /\ Part001.getUserStats (Some root) (fresh [alice; root; ghost])
       = (Return st, w3)
    /\ List.length all = UserStats.total_users st
    /\ List.length of_role = role_count student st.
Proof.
  apply (listing_agrees_with_statistics
           (Some root) (fresh [alice; root; ghost]) student); reflexivity.
Defined.

(** X14. In [user-actions.ts] they do not: for an admin and a database
    that answers, the unfiltered listing leaves out the inactive rows
    that [total_users] of that file counts, so it is shorter than
    [total_users] by their number. *)
Theorem interpolated_listing_is_shorter_than_its_statistics
    (raw : RawEngine) (s : Session) (w : World) :
  is_admin s = true ->
  faults w = [] ->
  exists all st w1 w2,
    UserActions.getUsers raw None None s w = (Return all, w1)
    /\ UserActions.getUserStats s w = (Return st, w2)
    /\ List.length all + count (is_status inactive) (table w)
       = UserStats.total_users st.
Proof.
  intros Hs Hf.
  rewrite getUsers_interpolated_admin by (assumption || reflexivity).
  unfold UserActions.getUserStats, bind. rewrite sql_up by exact Hf.
  eexists _, _, _, _. split; [reflexivity|]. split; [reflexivity|].
  rewrite order_length. cbn [table log UserStats.total_users UserActions.stats_of].
  rewrite <- (count_all (table w)).
  rewrite (count_split (fun _ => true) not_inactive (table w)). cbn.
  f_equal.
  - apply (count_ext (listing_filter None None) not_inactive).
    intros u. unfold listing_filter, not_inactive, is_status.
    now rewrite !andb_true_r.
  - apply count_ext. intros u. unfold not_inactive.
    now rewrite negb_involutive.
Qed.

Lemma interpolated_listing_is_shorter_than_its_statistics_witness :
  exists all st w1 w2,
    UserActions.getUsers no_engine None None (Some root)
                         (fresh [alice; root; ghost])
      = (Return all, w1)
    /\ UserActions.getUserStats (Some root) (fresh [alice; root; ghost])
       = (Return st, w2)
    /\ List.length all
       + count (is_status inactive) (table (fresh [alice; root; ghost]))
       = UserStats.total_users st.
Proof.
  apply (interpolated_listing_is_shorter_than_its_statistics
           no_engine (Some root) (fresh [alice; root; ghost])); reflexivity.
Defined.


(** ** What a caller who is not an admin can change *)

Lemma evolves_session {A} (R : list User -> list User -> Prop)
    (s : Session) (k : Session -> M A) :
  evolves R s (k s) -> evolves R s (bind getSession k).
Proof. intros H w. exact (H (log EvSession w)). Qed.

Lemma same_standing_refl (u : User) : same_standing u u.
Proof. repeat split; reflexivity. Qed.

Lemma self_edit_refl (me : User) (t : list User) : Forall2 (self_edit me) t t.
Proof.
  induction t as [|a t IH]; constructor; [|exact IH].
  split; [apply same_standing_refl|reflexivity].
Qed.

Lemma self_edit_update (me : User) (g : User -> User) :
  (forall u, same_standing u (g u)) ->
  body_evolves (Forall2 (self_edit me))
               (update_where (has_id (User.id me)) g).
Proof.
  intros Hg w. cbn [update_where snd table with_table].
  apply Forall2_map_self. intros u.
  destruct (has_id (User.id me) u) eqn:E.
  - split; [apply Hg|]. intros Hne. apply has_id_true in E. contradiction.
  - split; [apply same_standing_refl|reflexivity].
Qed.

Lemma profile_assign_standing (data : ProfileData.t) (u : User) :
  same_standing u (profile_assign data u).
Proof.
  unfold profile_assign.
  destruct (ProfileData.full_name data) as [[|c n]|],
    (ProfileData.email data) as [[|d e]|]; repeat split; reflexivity.
Qed.

Lemma self_edit_profile_write (me : User) (data : ProfileData.t)
    (updates : list string) (values : list Param) :
  evolves (Forall2 (self_edit me)) (Some me)
          (profile_write me data updates values).
Proof.
  unfold profile_write. destruct (List.length updates =? 0)%nat.
  - apply quiet_evolves; [apply self_edit_refl|apply quiet_ret].
  - apply evolves_then_quiet; [|intros a; apply quiet_ret].
    apply evolves_sql; [apply self_edit_refl|].
    apply self_edit_update, profile_assign_standing.
Qed.

Lemma self_edit_profile (me : User) (data : ProfileData.t) :
  evolves (Forall2 (self_edit me)) (Some me) (updateCurrentUserProfile data).
Proof.
  unfold updateCurrentUserProfile.
  apply evolves_try; [|apply quiet_ret].
  apply evolves_session.
  destruct (truthy (ProfileData.full_name data)),
    (truthy (ProfileData.email data));
    try apply self_edit_profile_write.
  - apply evolves_after_quiet;
      [apply self_edit_refl|apply quiet_select|].
    intros rows. destruct (0 <? List.length rows)%nat.
    + apply quiet_evolves; [apply self_edit_refl|apply quiet_ret].
    + apply self_edit_profile_write.
  - apply evolves_after_quiet;
      [apply self_edit_refl|apply quiet_select|].
    intros rows. destruct (0 <? List.length rows)%nat.
    + apply quiet_evolves; [apply self_edit_refl|apply quiet_ret].
    + apply self_edit_profile_write.
Qed.

Lemma self_edit_password (me : User) (c n : string) :
  evolves (Forall2 (self_edit me)) (Some me) (updateCurrentUserPassword c n).
Proof.
  unfold updateCurrentUserPassword.
  apply evolves_try; [|apply quiet_ret].
  apply evolves_session.
  apply evolves_after_quiet; [apply self_edit_refl|apply quiet_select|].
  intros [|row rest].
  - apply quiet_evolves; [apply self_edit_refl|apply quiet_ret].
  - destruct (negb (String.eqb (User.password_hash row) (hashPassword c))).
    + apply quiet_evolves; [apply self_edit_refl|apply quiet_ret].
    + apply evolves_then_quiet; [|intros a; apply quiet_ret].
      apply evolves_sql; [apply self_edit_refl|].
      apply self_edit_update. intros u. repeat split; reflexivity.
Qed.

Lemma quiet_getUserById (s : Session) (id : string) : quiet s (getUserById id).
Proof.
  unfold getUserById. apply quiet_bind; [apply quiet_select|].
  intros a. apply quiet_ret.
Qed.

Lemma quiet_getCurrentUserProfile (s : Session) : quiet s getCurrentUserProfile.
Proof.
  unfold getCurrentUserProfile.
  apply quiet_bind; [apply quiet_getSession|intros a; apply quiet_ret].
Qed.

Lemma quiet_stats (s : Session) : quiet s Part001.getUserStats.
Proof.
  unfold Part001.getUserStats.
  apply quiet_bind; [|intros a; apply quiet_ret].
  apply quiet_sql. reflexivity.
Qed.

Lemma quiet_stats_all (s : Session) : quiet s UserActions.getUserStats.
Proof.
  unfold UserActions.getUserStats.
  apply quiet_bind; [|intros a; apply quiet_ret].
  apply quiet_sql. reflexivity.
Qed.

Lemma quiet_getUsers (s : Session) (role : option UserRole)
    (search : option string) :
  quiet s (Part001.getUsers role search).
Proof.
  unfold Part001.getUsers.
  apply quiet_bind; [apply quiet_requireRole|]. intros _.
  destruct (Part001.getUsers_parts role search) as [c v].
  apply quiet_bind; [|intros a; apply quiet_ret].
  apply quiet_sql. reflexivity.
Qed.

Lemma self_edit_part001 (rq : Request) (me : User) (w : World) :
  is_admin (Some me) = false ->
  Forall2 (self_edit me) (table w) (table (serve_part001 rq (Some me) w)).
Proof.
  intros Hs.
  assert (Hq : forall {A} (m : M A), quiet (Some me) m ->
                 Forall2 (self_edit me) (table w) (table (snd (m (Some me) w)))).
  { intros A m H. rewrite H. apply self_edit_refl. }
  destruct rq; cbn [serve_part001].
  - apply Hq, quiet_getUsers.
  - apply Hq, quiet_getUserById.
  - apply Hq, quiet_getCurrentUserProfile.
  - apply Hq. unfold createUser. now apply quiet_gate_closed_caught.
  - apply Hq. unfold updateUser. now apply quiet_gate_closed_caught.
  - apply Hq. unfold updateUserRole. now apply quiet_gate_closed_caught.
  - apply Hq. unfold updateUserStatus. now apply quiet_gate_closed_caught.
  - apply Hq. unfold Part001.deleteUser. now apply quiet_gate_closed_caught.
  - apply Hq, quiet_stats.
  - apply self_edit_profile.
  - apply self_edit_password.
Qed.

Lemma no_session_part001 (rq : Request) (w : World) :
  table (serve_part001 rq None w) = table w.
Proof.
  destruct rq; cbn [serve_part001].
  - apply quiet_getUsers.
  - apply quiet_getUserById.
  - apply quiet_getCurrentUserProfile.
  - unfold createUser. now apply quiet_gate_closed_caught.
  - unfold updateUser. now apply quiet_gate_closed_caught.
  - unfold updateUserRole. now apply quiet_gate_closed_caught.
  - unfold updateUserStatus. now apply quiet_gate_closed_caught.
  - unfold Part001.deleteUser. now apply quiet_gate_closed_caught.
  - apply quiet_stats.
  - reflexivity.
  - reflexivity.
Qed.

(** X15. No privilege is gained without the admin role.  Any request
    served for a caller whose session is not an admin's leaves every row
    of another id exactly as it was, and changes in a row of the caller's
    own id at most the name, the email and the password digest: never the
    role, the status, the id or any other column.  Any request served
    without a session changes no row at all.  This holds for both files,
    whatever the request and whatever the database does. *)
Theorem no_change_beyond_own_profile_without_admin
    (raw : RawEngine) (rq : Request) (w : World) :
  (forall me,
      is_admin (Some me) = false ->
      Forall2 (self_edit me) (table w) (table (serve_part001 rq (Some me) w))
      /\ Forall2 (self_edit me) (table w)
                 (table (serve_user_actions raw rq (Some me) w)))
  /\ table (serve_part001 rq None w) = table w
  /\ table (serve_user_actions raw rq None w) = table w.
Proof.
  split; [|split].
  - intros me Hs. split; [now apply self_edit_part001|].
    destruct rq; try (now apply self_edit_part001);
      cbn [serve_user_actions].
    + unfold UserActions.getUsers. rewrite quiet_gate_closed by exact Hs.
      apply self_edit_refl.
    + unfold UserActions.deleteUser.
      rewrite quiet_gate_closed_caught by exact Hs. apply self_edit_refl.
    + rewrite quiet_stats_all. apply self_edit_refl.
  - apply no_session_part001.
  - destruct rq; try apply no_session_part001; cbn [serve_user_actions].
    + unfold UserActions.getUsers. now apply quiet_gate_closed.
    + unfold UserActions.deleteUser. now apply quiet_gate_closed_caught.
    + apply quiet_stats_all.
Qed.

Lemma no_change_beyond_own_profile_without_admin_witness :
  is_admin (Some alice) = false
  /\ Forall2 (self_edit alice) (table (fresh [alice; root]))
       (table (serve_part001
                 (rq_updateCurrentUserProfile
                    (ProfileData.mk (Some "Alice S.") (Some "as@lib.org")))
                 (Some alice) (fresh [alice; root]))).
Proof.
  split; [reflexivity|].
  destruct (no_change_beyond_own_profile_without_admin
              no_engine
              (rq_updateCurrentUserProfile
                 (ProfileData.mk (Some "Alice S.") (Some "as@lib.org")))
              (fresh [alice; root])) as (H & _).
  apply (H alice). reflexivity.
Defined.

(** The request of the witness does change the caller's own row. *)
Example own_profile_edit_is_stored :
  map User.full_name
      (table (serve_part001
                (rq_updateCurrentUserProfile
                   (ProfileData.mk (Some "Alice S.") (Some "as@lib.org")))
                (Some alice) (fresh [alice; root])))
  = ["Alice S."; "Root"].
Proof. vm_compute. reflexivity. Qed.

(** ** Rows are never lost in [part_001] *)

Lemma rows_kept_refl (t : list User) : rows_kept t t.
Proof. exists []. now rewrite app_nil_r. Qed.

Lemma rows_kept_trans (a b c : list User) :
  rows_kept a b -> rows_kept b c -> rows_kept a c.
Proof.
  intros [x Hx] [y Hy]. exists (x ++ y). rewrite Hy, Hx. now rewrite app_assoc.
Qed.

Lemma rows_kept_update (p : User -> bool) (g : User -> User) :
  (forall u, row_key (g u) = row_key u) ->
  body_evolves rows_kept (update_where p g).
Proof.
  intros Hg w. cbn [update_where snd table with_table].
  exists []. rewrite app_nil_r, map_map. apply map_ext.
  intros u. destruct (p u); [apply Hg|reflexivity].
Qed.

Lemma rows_kept_insert (row : string -> Z -> User) :
  body_evolves rows_kept (insert_row row).
Proof.
  intros w. unfold insert_row. destruct (supply w) as [|[i ts] rest];
    [apply rows_kept_refl|].
  destruct (existsb (fun u => String.eqb (User.id u) i) (table w));
    [apply rows_kept_refl|].
  cbn [snd table with_table with_supply].
  exists [row_key (row i ts)]. now rewrite map_app.
Qed.

Lemma assign_all_row_key (data : list Entry) (u : User) :
  row_key (assign_all data u) = row_key u.
Proof.
  unfold row_key. destruct (assign_all_identity data u) as (H1 & _ & _ & H4).
  now rewrite H1, H4.
Qed.

Lemma profile_assign_row_key (data : ProfileData.t) (u : User) :
  row_key (profile_assign data u) = row_key u.
Proof.
  unfold row_key.
  destruct (profile_assign_standing data u) as (H1 & _ & _ & H4 & _).
  now rewrite H1, H4.
Qed.

Lemma rows_kept_createUser (s : Session) (data : NewUser.t) :
  evolves rows_kept s (createUser data).
Proof.
  unfold createUser. apply evolves_try; [|apply quiet_ret].
  apply evolves_after_quiet; [apply rows_kept_refl|apply quiet_requireRole|].
  intros _.
  apply evolves_after_quiet; [apply rows_kept_refl|apply quiet_select|].
  intros rows. destruct (0 <? List.length rows)%nat.
  - apply quiet_evolves; [apply rows_kept_refl|apply quiet_ret].
  - apply evolves_then_quiet; [|intros a; apply quiet_ret].
    apply evolves_sql; [apply rows_kept_refl|apply rows_kept_insert].
Qed.

Lemma rows_kept_updateUser (s : Session) (id : string) (data : list Entry) :
  evolves rows_kept s (updateUser id data).
Proof.
  unfold updateUser. apply evolves_try; [|apply quiet_ret].
  apply evolves_after_quiet; [apply rows_kept_refl|apply quiet_requireRole|].
  intros _. destruct (collect data) as [updates values].
  destruct (List.length updates =? 0)%nat.
  - apply quiet_evolves; [apply rows_kept_refl|apply quiet_ret].
  - apply evolves_then_quiet; [|intros a; apply quiet_ret].
    apply evolves_sql; [apply rows_kept_refl|].
    apply rows_kept_update, assign_all_row_key.
Qed.

Lemma rows_kept_profile_write (s : Session) (me : User) (data : ProfileData.t)
    (updates : list string) (values : list Param) :
  evolves rows_kept s (profile_write me data updates values).
Proof.
  unfold profile_write. destruct (List.length updates =? 0)%nat.
  - apply quiet_evolves; [apply rows_kept_refl|apply quiet_ret].
  - apply evolves_then_quiet; [|intros a; apply quiet_ret].
    apply evolves_sql; [apply rows_kept_refl|].
    apply rows_kept_update, profile_assign_row_key.
Qed.

Lemma rows_kept_profile (s : Session) (data : ProfileData.t) :
  evolves rows_kept s (updateCurrentUserProfile data).
Proof.
  unfold updateCurrentUserProfile.
  apply evolves_try; [|apply quiet_ret].
  apply evolves_after_quiet; [apply rows_kept_refl|apply quiet_getSession|].
  intros [me|]; [|apply quiet_evolves; [apply rows_kept_refl|apply quiet_ret]].
  destruct (truthy (ProfileData.full_name data)),
    (truthy (ProfileData.email data));
    try apply rows_kept_profile_write.
  - apply evolves_after_quiet; [apply rows_kept_refl|apply quiet_select|].
    intros rows. destruct (0 <? List.length rows)%nat.
    + apply quiet_evolves; [apply rows_kept_refl|apply quiet_ret].
    + apply rows_kept_profile_write.
  - apply evolves_after_quiet; [apply rows_kept_refl|apply quiet_select|].
    intros rows. destruct (0 <? List.length rows)%nat.
    + apply quiet_evolves; [apply rows_kept_refl|apply quiet_ret].
    + apply rows_kept_profile_write.
Qed.

Lemma rows_kept_password (s : Session) (c n : string) :
  evolves rows_kept s (updateCurrentUserPassword c n).
Proof.
  unfold updateCurrentUserPassword.
  apply evolves_try; [|apply quiet_ret].
  apply evolves_after_quiet; [apply rows_kept_refl|apply quiet_getSession|].
  intros [me|]; [|apply quiet_evolves; [apply rows_kept_refl|apply quiet_ret]].
  apply evolves_after_quiet; [apply rows_kept_refl|apply quiet_select|].
  intros [|row rest].
  - apply quiet_evolves; [apply rows_kept_refl|apply quiet_ret].
  - destruct (negb (String.eqb (User.password_hash row) (hashPassword c))).
    + apply quiet_evolves; [apply rows_kept_refl|apply quiet_ret].
    + apply evolves_then_quiet; [|intros a; apply quiet_ret].
      apply evolves_sql; [apply rows_kept_refl|].
      apply rows_kept_update. reflexivity.
Qed.

Lemma rows_kept_part001 (rq : Request) (s : Session) (w : World) :
  rows_kept (table w) (table (serve_part001 rq s w)).
Proof.
  assert (Hq : forall {A} (m : M A), quiet s m ->
                 rows_kept (table w) (table (snd (m s w)))).
  { intros A m H. rewrite H. apply rows_kept_refl. }
  destruct rq; cbn [serve_part001].
  - apply Hq, quiet_getUsers.
  - apply Hq, quiet_getUserById.
  - apply Hq, quiet_getCurrentUserProfile.
  - apply rows_kept_createUser.
  - apply rows_kept_updateUser.
  - revert w Hq. intros w _. revert w.
    change (evolves rows_kept s (updateUserRole id role)).
    apply evolves_gated_update; [apply rows_kept_refl|].
    apply rows_kept_update. reflexivity.
  - revert w Hq. intros w _. revert w.
    change (evolves rows_kept s (updateUserStatus id status)).
    apply evolves_gated_update; [apply rows_kept_refl|].
    apply rows_kept_update. reflexivity.
  - revert w Hq. intros w _. revert w.
    change (evolves rows_kept s (Part001.deleteUser id)).
    apply evolves_gated_update; [apply rows_kept_refl|].
    apply rows_kept_update. reflexivity.
  - apply Hq, quiet_stats.
  - apply rows_kept_profile.
  - apply rows_kept_password.
Qed.

(** X16. [part_001] never loses a row.  After any sequence of requests,
    by any callers and whatever the database does, every row that was
    stored is still stored at its place with its id and its creation
    time, and new rows come after the old ones; so the table never gets
    shorter and an id that was in use stays in use. *)
Theorem part001_never_removes_a_row
    (rqs : list (Request * Session)) (w : World) :
  rows_kept (table w) (table (serve_all serve_part001 rqs w))
  /\ List.length (table w)
     <= List.length (table (serve_all serve_part001 rqs w))
  /\ (forall id,
        In id (map User.id (table w)) ->
        In id (map User.id (table (serve_all serve_part001 rqs w)))).
Proof.
  assert (H : rows_kept (table w) (table (serve_all serve_part001 rqs w))).
  { revert w. induction rqs as [|[rq s] rqs IH]; intros w; cbn [serve_all].
    - apply rows_kept_refl.
    - apply rows_kept_trans with (table (serve_part001 rq s w)).
      + apply rows_kept_part001.
      + apply IH. }
  split; [exact H|]. destruct H as [extra H]. split.
  - apply (f_equal (@List.length _)) in H.
    rewrite length_app, !length_map in H. lia.
  - intros id Hin.
    assert (Hk : In id (map fst (map row_key (table w)))).
    { rewrite map_map. exact Hin. }
    assert (Hk' : In id (map fst (map row_key
                                   (table (serve_all serve_part001 rqs w))))).
    { rewrite H, map_app. apply in_or_app. now left. }
    rewrite map_map in Hk'. exact Hk'.
Qed.

(** The hard delete of [user-actions.ts] does lose one. *)
Example user_actions_removes_a_row :
  map User.id
      (table (serve_all (serve_user_actions no_engine)
                        [(rq_deleteUser "1", Some root)]
                        (fresh [alice; root])))
  = ["2"]
  /\ map User.id
         (table (serve_all serve_part001 [(rq_deleteUser "1", Some root)]
                           (fresh [alice; root])))
     = ["1"; "2"].
Proof. split; vm_compute; reflexivity. Qed.

(** ** The listing for any search *)

Lemma getUsers_returned (role : option UserRole) (search : option string)
    (s : Session) (w w' : World) (l : list User) :
  Part001.getUsers role search s w = (Return l, w') ->
  is_admin s = true
  /\ l = order_by_created_at_desc
           (filter (listing_filter role (Part001.getUsers_pattern search))
                   (table w))
  /\ table w' = table w.
Proof.
  destruct (is_admin s) eqn:Hs.
  - unfold Part001.getUsers. rewrite gate_open by exact Hs.
    destruct (Part001.getUsers_parts role search) as [conditions values].
    unfold bind, sql. cbn [faults log].
    destruct (faults w) as [|[|] rest]; cbn; intros [= <- <-];
      repeat split.
  - unfold Part001.getUsers. rewrite gate_closed by exact Hs. intros [=].
Qed.

(** X17. Whatever the search text, wildcard characters and quotes
    included, a listing that [getUsers] of [part_001] returns is sound:
    the caller is an admin, every listed row is a stored row that is not
    inactive and has the role asked for, the rows are newest first, no
    stored row is listed more often than it is stored, and the table is
    left as it was. *)
Theorem listing_is_sound_for_every_search
    (role : option UserRole) (search : option string)
    (s : Session) (w w' : World) (l : list User) :
  Part001.getUsers role search s w = (Return l, w') ->
  is_admin s = true
  /\ table w' = table w
  /\ Sorted newer_or_same l
  /\ (forall u, In u l ->
        In u (table w)
        /\ User.status u <> inactive
        /\ (forall r, role = Some r -> User.role u = r))
  /\ (NoDup (table w) -> NoDup l)
  /\ List.length l <= List.length (table w).
Proof.
  intros Hrun.
  destruct (getUsers_returned role search s w w' l Hrun) as (Hs & -> & Ht).
  split; [exact Hs|]. split; [exact Ht|].
  split; [apply order_sorted|]. split; [|split].
  - intros u Hu. apply (proj1 (order_In _ _)) in Hu.
    apply filter_In in Hu. destruct Hu as [Hin Hf]. split; [exact Hin|].
    split; [exact (listing_filter_live _ _ _ Hf)|].
    intros r ->. unfold listing_filter in Hf.
    apply andb_true_iff in Hf. destruct Hf as [Hf _].
    apply andb_true_iff in Hf. destruct Hf as [_ Hf].
    destruct (User.role u), r; cbn in Hf; congruence.
  - intros Hnd.
    apply (Permutation_NoDup (Permutation_sym (order_perm _))).
    now apply NoDup_filter.
  - rewrite order_length. apply filter_length_le.
Qed.

Lemma listing_is_sound_for_every_search_witness :
  let w := fresh [alice; root; ghost] in
  is_admin (Some root) = true
  /\ Sorted newer_or_same
            (order_by_created_at_desc
               (filter (listing_filter None (Part001.getUsers_pattern (Some "%_'")))
                       (table w))).
Proof.
  intros w.
  destruct (listing_is_sound_for_every_search
              None (Some "%_'") (Some root) w
              (snd (Part001.getUsers None (Some "%_'") (Some root) w))
              (order_by_created_at_desc
                 (filter (listing_filter None
                            (Part001.getUsers_pattern (Some "%_'")))
                         (table w))))
    as (H1 & _ & H3 & _).
  - reflexivity.
  - split; assumption.
Defined.

(** ** Letter case of the search *)




(** ** Placeholders of the listing *)




(** ** The digest *)

Lemma compress_length (h block : list Z) :
  List.length h = 8 -> List.length (Sha256.compress h block) = 8.
Proof.
  intros H. unfold Sha256.compress.
  rewrite length_map, length_combine, H. reflexivity.
Qed.

Lemma digest_length (msg : list Z) : List.length (Sha256.digest msg) = 8.
Proof.
  unfold Sha256.digest.
  generalize (Sha256.blocks
                (List.length (Sha256.words (List.length (Sha256.pad msg))
                                           (Sha256.pad msg)))
                (Sha256.words (List.length (Sha256.pad msg)) (Sha256.pad msg))).
  intros bs.
  assert (H : List.length Sha256.H0 = 8) by reflexivity.
  revert H. generalize Sha256.H0.
  induction bs as [|b bs IH]; intros h Hh; cbn [fold_left]; [exact Hh|].
  apply IH, compress_length, Hh.
Qed.

Lemma hex_word_length (x : Z) : List.length (Sha256.hex_word x) = 8.
Proof.
  unfold Sha256.hex_word. now rewrite length_map, length_rev, length_seq.
Qed.

Lemma hex_words_length (ws : list Z) :
  List.length (flat_map Sha256.hex_word ws) = 8 * List.length ws.
Proof.
  induction ws as [|x ws IH]; [reflexivity|].
  cbn [flat_map]. rewrite length_app, hex_word_length, IH.
  cbn [List.length]. lia.
Qed.

Lemma string_of_list_length (l : list ascii) :
  String.length (string_of_list_ascii l) = List.length l.
Proof. induction l as [|c l IH]; cbn; [reflexivity|now rewrite IH]. Qed.

Lemma hex_digit_char (d : Z) :
  (0 <= d < 16)%Z -> occurs (Sha256.hex_digit d) hex_chars = true.
Proof.
  intros H.
  assert (E : (d = 0 \/ d = 1 \/ d = 2 \/ d = 3 \/ d = 4 \/ d = 5 \/ d = 6
               \/ d = 7 \/ d = 8 \/ d = 9 \/ d = 10 \/ d = 11 \/ d = 12
               \/ d = 13 \/ d = 14 \/ d = 15)%Z) by lia.
  repeat (destruct E as [E|E]; [subst d; reflexivity|]).
  subst d. reflexivity.
Qed.

Lemma nibble_range (x : Z) : (0 <= Z.land x 15 < 16)%Z.
Proof.
  change 15%Z with (Z.ones 4). rewrite Z.land_ones by lia.
  apply Z.mod_pos_bound. reflexivity.
Qed.

(** X20. [hashPassword] returns, for every password, a text of sixty-four
    characters, each of them one of [0123456789abcdef]. *)
Theorem hashPassword_is_64_hex_characters (password : string) :
  String.length (hashPassword password) = 64
  /\ (forall c,
        In c (list_ascii_of_string (hashPassword password)) ->
        occurs c hex_chars = true).
Proof.
  unfold hashPassword, Sha256.hex. split.
  - rewrite string_of_list_length, hex_words_length, digest_length.
    reflexivity.
  - intros c. rewrite list_ascii_of_string_of_list_ascii.
    intros Hc. apply in_flat_map in Hc. destruct Hc as (x & _ & Hc).
    unfold Sha256.hex_word in Hc. apply in_map_iff in Hc.
    destruct Hc as (i & <- & _).
    apply hex_digit_char. apply nibble_range.
Qed.

(** ** The page of the librarians *)

Lemma not_staff_roles (user : Session) :
  not_staff user = false <->
  exists u, user = Some u
            /\ (User.role u = librarian \/ User.role u = admin).
Proof.
  unfold not_staff. destruct user as [u|].
  - destruct (User.role u) eqn:E; cbn; split;
      try discriminate; try reflexivity.
    + intros (u' & [= <-] & [H|H]); congruence.
    + intros (u' & [= <-] & [H|H]); congruence.
    + intros _. exists u. split; [reflexivity|now left].
    + intros _. exists u. split; [reflexivity|now right].
  - split; [discriminate|]. intros (u & [=] & _).
Qed.

(** X21. The page that manages the books serves staff only.  For a
    caller without a session, or whose role is neither librarian nor
    admin, it ends in a redirect to [/login] after the session lookup
    alone: neither the books nor the categories are loaded, whatever the
    two loaders are.  It renders only for a librarian or an admin, and
    then with what [getBooks] and then [getCategories] returned, run in
    that order. *)
Theorem books_page_is_for_staff_only
    {B C : Type} (getBooks : M B) (getCategories : M C)
    (s : Session) (w : World) :
  (not_staff s = true ->
   ManageBooksPage getBooks getCategories s w
   = (Redirect "/login", log EvSession w))
  /\ (forall books categories w',
        ManageBooksPage getBooks getCategories s w
        = (Rendered books categories, w') ->
        (exists u, s = Some u
                   /\ (User.role u = librarian \/ User.role u = admin))
        /\ exists w2,
             getBooks s (log EvSession w) = (Return books, w2)
             /\ getCategories s w2 = (Return categories, w'))
  /\ (not_staff s = false ->
      forall books categories w2 w3,
        getBooks s (log EvSession w) = (Return books, w2) ->
        getCategories s w2 = (Return categories, w3) ->
        ManageBooksPage getBooks getCategories s w
        = (Rendered books categories, w3)).
Proof.
  unfold ManageBooksPage, getSession. split; [|split].
  - intros ->. reflexivity.
  - intros books categories w'.
    destruct (not_staff s) eqn:E; [intros [=]|].
    destruct (getBooks s (log EvSession w)) as [[b|e] w2]; [|intros [=]].
    destruct (getCategories s w2) as [[c|e] w3] eqn:Ec; [|intros [=]].
    intros [= <- <- <-]. split; [now apply not_staff_roles|].
    exists w2. split; [reflexivity|exact Ec].
  - intros -> books categories w2 w3 -> ->. reflexivity.
Qed.

Lemma books_page_is_for_staff_only_witness :
  not_staff (Some alice) = true
  /\ ManageBooksPage (getUserById "1") Part001.getUserStats (Some alice)
                     (fresh [alice; root])
     = (Redirect "/login", log EvSession (fresh [alice; root])).
Proof.
  split; [reflexivity|].
  destruct (books_page_is_for_staff_only
              (getUserById "1") Part001.getUserStats (Some alice)
              (fresh [alice; root])) as (H & _).
  apply H. reflexivity.
Defined.


(** ** Updating one's own profile *)

Lemma profile_check_passes (data : ProfileData.t) (me : User) (t : list User) :
  email_is_free data me t ->
  filter (fun u : User =>
            match ProfileData.email data with
            | Some e => String.eqb (User.email u) e
            | None => false
            end && negb (has_id (User.id me) u)) t = [].
Proof.
  intros Hfree. apply filter_none. intros v Hv.
  destruct (ProfileData.email data) as [e|] eqn:Ed; [|reflexivity].
  destruct (String.eqb (User.email v) e) eqn:Ee; [|reflexivity].
  apply String.eqb_eq in Ee.
  rewrite (proj2 (has_id_true _ _) (Hfree e v Ed Hv Ee)). reflexivity.
Qed.

Lemma profile_update_stores
    (data : ProfileData.t) (me u : User) (w : World) :
  faults w = [] ->
  pk_unique (table w) ->
  In u (table w) ->
  User.id u = User.id me ->
  truthy (ProfileData.full_name data) = true
    \/ truthy (ProfileData.email data) = true ->
  email_is_free data me (table w) ->
  exists w',
    updateCurrentUserProfile data (Some me) w
      = (Return (mkUserResult (Some (profile_assign data u)) None), w')
    /\ table w'
       = map (fun v => if has_id (User.id me) v then profile_assign data v
                       else v) (table w)
    /\ (forall s',
          fst (getUserById (User.id me) s' w')
            = Return (Some (profile_assign data u))).
Proof.
  intros Hf Hpk Hin Hid Hsome Hfree.
  assert (Hlookup : forall w0,
             faults w0 = [] ->
             table w0 = map (fun v => if has_id (User.id me) v
                                      then profile_assign data v else v)
                            (table w) ->
             forall s', fst (getUserById (User.id me) s' w0)
                        = Return (Some (profile_assign data u))).
  { intros w0 Hf0 Ht0 s'. unfold getUserById, bind.
    rewrite sql_up by exact Hf0. unfold select_where.
    cbn [table log fst]. rewrite Ht0.
    rewrite filter_updated_rows by (intros v; apply profile_assign_id).
    now rewrite (hd_filter_unique _ u (table w) Hpk Hin Hid). }
  assert (Hwrite : forall updates values w0,
             updates <> [] ->
             faults w0 = [] ->
             table w0 = table w ->
             exists w',
               profile_write me data updates values (Some me) w0
               = (Return (mkUserResult (Some (profile_assign data u)) None), w')
               /\ table w'
                  = map (fun v => if has_id (User.id me) v
                                  then profile_assign data v else v) (table w)
               /\ faults w' = []).
  { intros updates values w0 Hne Hf0 Ht0. unfold profile_write.
    destruct updates as [|k updates]; [now elim Hne|].
    cbn [List.length Nat.eqb]. unfold bind.
    rewrite sql_up by exact Hf0.
    cbn [update_where fst snd table log with_table]. rewrite Ht0.
    rewrite (hd_filter_unique _ u (table w) Hpk Hin Hid).
    eexists. split; [reflexivity|]. split; [reflexivity|exact Hf0]. }
  unfold updateCurrentUserProfile, try_catch, bind, getSession.
  destruct (truthy (ProfileData.full_name data)) eqn:En,
    (truthy (ProfileData.email data)) eqn:Ee; cbv beta iota.
  - rewrite sql_up by exact Hf. unfold select_where. cbn [table log fst snd].
    rewrite (profile_check_passes data me (table w) Hfree).
    cbn [List.length Nat.ltb Nat.leb].
    match goal with
    | |- context [profile_write me data ?us ?vs (Some me) ?w0] =>
        destruct (Hwrite us vs w0) as (w' & Hw & Ht & Hf');
          [discriminate|exact Hf|reflexivity|]
    end.
    rewrite Hw. exists w'. split; [reflexivity|]. split; [exact Ht|].
    now apply Hlookup.
  - match goal with
    | |- context [profile_write me data ?us ?vs (Some me) ?w0] =>
        destruct (Hwrite us vs w0) as (w' & Hw & Ht & Hf');
          [discriminate|exact Hf|reflexivity|]
    end.
    rewrite Hw. exists w'. split; [reflexivity|]. split; [exact Ht|].
    now apply Hlookup.
  - rewrite sql_up by exact Hf. unfold select_where. cbn [table log fst snd].
    rewrite (profile_check_passes data me (table w) Hfree).
    cbn [List.length Nat.ltb Nat.leb].
    match goal with
    | |- context [profile_write me data ?us ?vs (Some me) ?w0] =>
        destruct (Hwrite us vs w0) as (w' & Hw & Ht & Hf');
          [discriminate|exact Hf|reflexivity|]
    end.
    rewrite Hw. exists w'. split; [reflexivity|]. split; [exact Ht|].
    now apply Hlookup.
  - destruct Hsome; discriminate.
Qed.

(** What the [UPDATE] of a profile assigns, column by column. *)
Lemma profile_assign_columns (data : ProfileData.t) (u : User) :
  (forall v, ProfileData.full_name data = Some v -> v <> "" ->
             User.full_name (profile_assign data u) = v)
  /\ (ProfileData.full_name data = None
      \/ ProfileData.full_name data = Some "" ->
      User.full_name (profile_assign data u) = User.full_name u)
  /\ (forall e, ProfileData.email data = Some e -> e <> "" ->
                User.email (profile_assign data u) = e)
  /\ (ProfileData.email data = None \/ ProfileData.email data = Some "" ->
      User.email (profile_assign data u) = User.email u)
  /\ User.password_hash (profile_assign data u) = User.password_hash u.
Proof.
  unfold profile_assign.
  destruct (ProfileData.full_name data) as [[|c n]|],
    (ProfileData.email data) as [[|d e]|]; cbn;
    (split; [intros v [=]; subst; intros H; try reflexivity; now elim H|]);
    (split; [intros [H|H]; try discriminate H; reflexivity|]);
    (split; [intros v [=]; subst; intros H; try reflexivity; now elim H|]);
    (split; [intros [H|H]; try discriminate H; reflexivity|]);
    reflexivity.
Qed.

(** X22. A caller's [updateCurrentUserProfile] with a non-empty name or
    email, the email not being that of a row of another id, on a stored
    row of the caller's id (ids unique, database answering) returns the
    row as it is after the update, stores it in place of the old one,
    and [getUserById] returns it afterwards.  In the row returned the
    name is the one given when a non-empty one is given, and the old one
    otherwise; likewise the email; the password digest and every other
    column are those of the old row. *)
Theorem own_profile_update_is_stored
    (data : ProfileData.t) (me u : User) (w : World) :
  faults w = [] ->
  pk_unique (table w) ->
  In u (table w) ->
  User.id u = User.id me ->
  truthy (ProfileData.full_name data) = true
    \/ truthy (ProfileData.email data) = true ->
  email_is_free data me (table w) ->
  exists row w',
    updateCurrentUserProfile data (Some me) w
      = (Return (mkUserResult (Some row) None), w')
    /\ (forall v, ProfileData.full_name data = Some v -> v <> "" ->
                  User.full_name row = v)
    /\ (ProfileData.full_name data = None
        \/ ProfileData.full_name data = Some "" ->
        User.full_name row = User.full_name u)
    /\ (forall e, ProfileData.email data = Some e -> e <> "" ->
                  User.email row = e)
    /\ (ProfileData.email data = None \/ ProfileData.email data = Some "" ->
        User.email row = User.email u)
    /\ User.password_hash row = User.password_hash u
    /\ same_standing u row
    /\ table w'
       = map (fun v => if has_id (User.id me) v then row else v) (table w)
    /\ (forall s', fst (getUserById (User.id me) s' w') = Return (Some row)).
Proof.
  intros Hf Hpk Hin Hid Hsome Hfree.
  destruct (profile_update_stores data me u w Hf Hpk Hin Hid Hsome Hfree)
    as (w' & Hrun & Ht & Hget).
  destruct (profile_assign_columns data u) as (C1 & C2 & C3 & C4 & C5).
  exists (profile_assign data u), w'.
  split; [exact Hrun|].
  split; [exact C1|]. split; [exact C2|]. split; [exact C3|].
  split; [exact C4|]. split; [exact C5|].
  split; [apply profile_assign_standing|].
  split; [rewrite Ht; apply update_in_place; assumption|exact Hget].
Qed.

Lemma own_profile_update_is_stored_witness :
  exists row w',
    updateCurrentUserProfile
      (ProfileData.mk (Some "Alice S.") (Some "as@lib.org"))
      (Some alice) (fresh [alice; root])
      = (Return (mkUserResult (Some row) None), w')
    /\ User.full_name row = "Alice S."
    /\ User.email row = "as@lib.org"
    /\ table w' = [row; root].
Proof.
  destruct (own_profile_update_is_stored
              (ProfileData.mk (Some "Alice S.") (Some "as@lib.org"))
              alice alice (fresh [alice; root]))
    as (row & w' & H1 & Hname & _ & Hmail & _ & _ & _ & Ht & _).
  - reflexivity.
  - unfold pk_unique. cbn. repeat constructor; cbn; intuition discriminate.
  - left; reflexivity.
  - reflexivity.
  - left; reflexivity.
  - intros e v [= <-] [<-|[<-|[]]]; cbn; intros H; discriminate.
  - exists row, w'. split; [exact H1|].
    split; [apply (Hname "Alice S."); [reflexivity|discriminate]|].
    split; [apply (Hmail "as@lib.org"); [reflexivity|discriminate]|].
    exact Ht.
Defined.

(** X23. The self-service operations at their edges.  Without a session
    both return "Not authenticated" and send nothing.  A profile update
    whose name and email are both absent or empty returns "No updates
    provided" and sends nothing.  For a session whose row is no longer
    stored (database answering), the password change is refused with
    "Current password is incorrect", and a profile update of the name
    alone reports success with no user; neither changes a row. *)
Theorem self_service_edge_cases
    (data : ProfileData.t) (c n : string) (me : User) (w : World) :
  updateCurrentUserProfile data None w
    = (Return (mkUserResult None (Some "Not authenticated")), log EvSession w)
  /\ updateCurrentUserPassword c n None w
     = (Return (mkErrorResult (Some "Not authenticated")), log EvSession w)
  /\ (truthy (ProfileData.full_name data) = false ->
      truthy (ProfileData.email data) = false ->
      updateCurrentUserProfile data (Some me) w
      = (Return (mkUserResult None (Some "No updates provided")),
         log EvSession w))
  /\ (faults w = [] ->
      absent (User.id me) (table w) ->
      (exists w',
          updateCurrentUserPassword c n (Some me) w
          = (Return (mkErrorResult (Some "Current password is incorrect")), w')
          /\ table w' = table w)
      /\ (truthy (ProfileData.full_name data) = true ->
          truthy (ProfileData.email data) = false ->
          exists w',
            updateCurrentUserProfile data (Some me) w
            = (Return (mkUserResult None None), w')
            /\ table w' = table w)).
Proof.
  split; [reflexivity|]. split; [reflexivity|]. split.
  - intros Hn He. unfold updateCurrentUserProfile, try_catch, bind, getSession.
    rewrite Hn, He. reflexivity.
  - intros Hf Hab. split.
    + apply password_mismatch; [exact Hf|].
      unfold stored_digest.
      rewrite filter_none by (intros v Hv; apply has_id_false, Hab, Hv).
      discriminate.
    + intros Hn He.
      unfold updateCurrentUserProfile, try_catch, bind, getSession.
      rewrite Hn, He. cbv beta iota. unfold profile_write.
      cbn [List.length app Nat.eqb]. unfold bind.
      rewrite sql_up by exact Hf.
      rewrite (update_where_absent (User.id me)); [|exact Hab].
      eexists. split; reflexivity.
Qed.

Lemma self_service_edge_cases_witness :
  exists w',
    updateCurrentUserProfile (ProfileData.mk (Some "Nobody") None)
                             (Some ghost) (fresh [alice; root])
    = (Return (mkUserResult None None), w')
    /\ table w' = table (fresh [alice; root]).
Proof.
  destruct (self_service_edge_cases
              (ProfileData.mk (Some "Nobody") None) "" "" ghost
              (fresh [alice; root])) as (_ & _ & _ & H).
  destruct H as (_ & H).
  - reflexivity.
  - intros v [<-|[<-|[]]]; discriminate.
  - apply H; reflexivity.
Defined.

(** ** A search of percent signs *)

Lemma like_all_percent (p s : string) :
  only_percent p = true -> p <> EmptyString -> like p s = true.
Proof.
  revert s. induction p as [|c p IH]; intros s Hp Hne; [now elim Hne|].
  cbn [only_percent] in Hp. apply andb_true_iff in Hp. destruct Hp as [Hc Hp].
  apply Ascii.eqb_eq in Hc. subst c.
  destruct p as [|d p].
  - apply like_percent_only.
  - rewrite like_percent_unfold. rewrite IH; [reflexivity|exact Hp|discriminate].
Qed.

Lemma only_percent_lower (v : string) :
  only_percent v = true -> toLowerCase v = v.
Proof.
  induction v as [|c v IH]; [reflexivity|].
  cbn [only_percent toLowerCase]. intros H.
  apply andb_true_iff in H. destruct H as [Hc Hv].
  apply Ascii.eqb_eq in Hc. subst c. now rewrite IH.
Qed.

Lemma only_percent_app (a b : string) :
  only_percent a = true -> only_percent b = true ->
  only_percent (a ++ b) = true.
Proof.
  induction a as [|c a IH]; cbn; [trivial|].
  intros H Hb. apply andb_true_iff in H. destruct H as [-> Ha].
  cbn. now apply IH.
Qed.

(** X24. A search made of percent signs only is no filter at all: for
    every caller and database, [getUsers] of [part_001] ends in the same
    outcome with it as without any search. *)
Theorem percent_search_lists_everyone
    (role : option UserRole) (v : string) (s : Session) (w : World) :
  only_percent v = true ->
  fst (Part001.getUsers role (Some v) s w)
  = fst (Part001.getUsers role None s w).
Proof.
  intros Hv. unfold Part001.getUsers.
  assert (Hfilter : forall u,
             listing_filter role (Part001.getUsers_pattern (Some v)) u
             = listing_filter role (Part001.getUsers_pattern None) u).
  { intros u. unfold listing_filter, Part001.getUsers_pattern.
    destruct v as [|c v']; [reflexivity|].
    cbn [truthy]. f_equal.
    rewrite (like_all_percent _ (toLowerCase (User.full_name u))).
    - reflexivity.
    - rewrite (only_percent_lower _ Hv).
      change (only_percent (String percent (String c v' ++ "%")) = true).
      cbn [only_percent]. rewrite Ascii.eqb_refl. cbn [andb].
      apply only_percent_app; [exact Hv|reflexivity].
    - discriminate. }
  destruct (Part001.getUsers_parts role (Some v)) as [c1 v1].
  destruct (Part001.getUsers_parts role None) as [c2 v2].
  destruct (is_admin s) eqn:Hs.
  - rewrite !gate_open by exact Hs. unfold bind, sql. cbn [faults log].
    destruct (faults w) as [|[|] rest]; cbn; try reflexivity;
      now rewrite (filter_ext _ _ Hfilter).
  - now rewrite !gate_closed by exact Hs.
Qed.

Lemma percent_search_lists_everyone_witness :
  fst (Part001.getUsers None (Some "%%") (Some root) (fresh [alice; root; ghost]))
  = fst (Part001.getUsers None None (Some root) (fresh [alice; root; ghost])).
Proof.
  apply (percent_search_lists_everyone None "%%" (Some root)
           (fresh [alice; root; ghost])).
  reflexivity.
Defined.

(** ** What reaches the database *)

Lemma events_since_one (w : World) (e : Event) :
  events_since w (log e w) = [e].
Proof.
  unfold events_since. cbn [trace log].
  now rewrite skipn_app, Nat.sub_diag, skipn_all.
Qed.

Lemma gated_without_admin_sends_nothing {A} (s : Session) (k : unit -> M A)
    (a : A) (w : World) :
  is_admin s = false ->
  statements (events_since w
                (snd (try_catch (bind (requireRole [admin]) k) (ret a) s w)))
  = [].
Proof.
  intros H. rewrite gate_closed_caught by exact H. cbn [snd].
  now rewrite events_since_one.
Qed.

(** X25. Without a session only two kinds of request make the database
    see a statement: [getUserById] and [getUserStats], which have no
    gate.  Every other request of either file, served without a session,
    sends no statement at all. *)
Theorem only_lookups_reach_the_database_without_session
    (raw : RawEngine) (rq : Request) (w : World) :
  (forall id, rq <> rq_getUserById id) ->
  rq <> rq_getUserStats ->
  statements (events_since w (serve_part001 rq None w)) = []
  /\ statements (events_since w (serve_user_actions raw rq None w)) = [].
Proof.
  intros Hid Hst.
  assert (H1 : statements (events_since w (serve_part001 rq None w)) = []).
  { destruct rq; cbn [serve_part001].
    - unfold Part001.getUsers. rewrite gate_closed by reflexivity.
      cbn [snd]. now rewrite events_since_one.
    - now elim (Hid id).
    - unfold getCurrentUserProfile, bind, getSession. cbn [snd ret].
      now rewrite events_since_one.
    - now apply gated_without_admin_sends_nothing.
    - now apply gated_without_admin_sends_nothing.
    - now apply gated_without_admin_sends_nothing.
    - now apply gated_without_admin_sends_nothing.
    - now apply gated_without_admin_sends_nothing.
    - now elim Hst.
    - cbn. now rewrite events_since_one.
    - cbn. now rewrite events_since_one. }
  split; [exact H1|].
  destruct rq; try exact H1; cbn [serve_user_actions];
    try (now elim Hst);
    try (now apply gated_without_admin_sends_nothing).
Qed.

Lemma only_lookups_reach_the_database_without_session_witness :
  statements (events_since (fresh [alice; root])
                (serve_part001 (rq_deleteUser "1") None (fresh [alice; root])))
  = [].
Proof.
  destruct (only_lookups_reach_the_database_without_session
              no_engine (rq_deleteUser "1") (fresh [alice; root])) as (H & _).
  - intros id. discriminate.
  - discriminate.
  - exact H.
Defined.

(** The two ungated requests do send their statement without a session. *)
Example lookups_are_sent_without_session :
  statements (events_since (fresh [alice; root])
                (serve_part001 (rq_getUserById "1") None (fresh [alice; root])))
  = [mkStmt "SELECT * FROM users WHERE id = $1" [Some "1"]]
  /\ List.length
       (statements (events_since (fresh [alice; root])
                      (serve_part001 rq_getUserStats None (fresh [alice; root]))))
     = 1.
Proof. split; vm_compute; reflexivity. Qed.

Lemma events_since_three (w : World) (t : list User) (sup : list (string * Z))
    (e1 e2 e3 : Event) :
  events_since w (with_table t (with_supply sup (log e3 (log e2 (log e1 w)))))
  = [e1; e2; e3].
Proof.
  unfold events_since. cbn [trace with_table with_supply log].
  rewrite <- !app_assoc. rewrite skipn_app, Nat.sub_diag, skipn_all.
  reflexivity.
Qed.

(** X26. Passwords reach the database as digests.  When an admin's
    [createUser] stores a user, the two statements it has sent carry the
    email, and then the email, the digest of the password, the name, the
    role and the five optional columns, in the order of the columns of
    the [INSERT]; when a password change succeeds, the two statements
    carry the caller's id, and then the digest of the new password and
    the id. *)
Theorem passwords_are_sent_as_digests
    (data : NewUser.t) (s : Session) (w : World)
    (i : string) (ts : Z) (rest : list (string * Z))
    (currentPassword newPassword : string) (me : User) (w0 : World) :
  (is_admin s = true ->
   faults w = [] ->
   ~ email_taken (NewUser.email data) (table w) ->
   supply w = (i, ts) :: rest ->
   absent i (table w) ->
   statements (events_since w (snd (createUser data s w)))
   = [mkStmt "SELECT id FROM users WHERE email = $1"
             [Some (NewUser.email data)];
      mkStmt insert_text
             [Some (NewUser.email data);
              Some (hashPassword (NewUser.password data));
              Some (NewUser.full_name data);
              Some (role_text (NewUser.role data));
              or_null (NewUser.university_id data);
              or_null (NewUser.university_name data);
              or_null (NewUser.department data);
              or_null (NewUser.year_level data);
              or_null (NewUser.course data)]])
  /\ (faults w0 = [] ->
      stored_digest me (table w0) = Some (hashPassword currentPassword) ->
      statements
        (events_since w0
           (snd (updateCurrentUserPassword currentPassword newPassword
                                           (Some me) w0)))
      = [mkStmt "SELECT password_hash FROM users WHERE id = $1"
                [Some (User.id me)];
         mkStmt "UPDATE users SET password_hash = $1 WHERE id = $2"
                [Some (hashPassword newPassword); Some (User.id me)]]).
Proof.
  split.
  - intros Hs Hf Hfree Hsup Hid.
    unfold createUser, try_catch. rewrite gate_open by exact Hs.
    unfold bind. rewrite sql_up by exact Hf.
    unfold select_where. cbn [table log fst snd].
    rewrite (not_taken_rows _ _ Hfree). cbn [List.length Nat.ltb Nat.leb].
    rewrite sql_up by exact Hf.
    unfold insert_row. cbn [supply table log]. rewrite Hsup.
    rewrite (absent_existsb i (table w) Hid). cbn [snd ret].
    rewrite events_since_three. reflexivity.
  - intros Hf Hyes.
    apply stored_digest_rows in Hyes. destruct Hyes as (row & rest0 & E & Hh).
    rewrite password_session. unfold try_catch, bind.
    rewrite sql_up by exact Hf.
    unfold select_where. cbn [table log]. rewrite E.
    rewrite Hh, String.eqb_refl. cbn [negb].
    rewrite sql_up by exact Hf.
    cbn [update_where snd ret].
    change (with_table ?t ?x) with (with_table t (with_supply (supply x) x))
      at 1.
    unfold events_since. cbn [trace with_table with_supply log].
    rewrite <- !app_assoc. rewrite skipn_app, Nat.sub_diag, skipn_all.
    reflexivity.
Qed.

Lemma passwords_are_sent_as_digests_witness :
  statements
    (events_since (fresh [alice; root])
       (snd (updateCurrentUserPassword "secret" "renewed" (Some alice)
                                       (fresh [alice; root]))))
  = [mkStmt "SELECT password_hash FROM users WHERE id = $1"
            [Some (User.id alice)];
     mkStmt "UPDATE users SET password_hash = $1 WHERE id = $2"
            [Some (hashPassword "renewed"); Some (User.id alice)]].
Proof.
  destruct (passwords_are_sent_as_digests
              demo None (fresh []) "" 0%Z []
              "secret" "renewed" alice (fresh [alice; root])) as (_ & H).
  apply H.
  - reflexivity.
  - vm_compute. reflexivity.
Defined.
